(** * Blueprint builder of Complement: a shallow embedding of
      [internal/docker/builder.go].

    The builder drives a container runtime (the Docker client), an image
    deployer and an instruction runner.  None of them is code of the builder:
    they are modelled as an interface [Runtime] over an abstract world [W],
    every call of which is recorded, with its answer, in a trace of [Event]s.
    The builder's functions are written in a small state-and-trace monad over
    that interface, in the order the Go code performs its calls. *)

From Stdlib Require Import ZArith String List.
From stdpp Require Import gmap strings list fin_maps pretty.

Open Scope string_scope.
Open Scope list_scope.
Open Scope Z_scope.

(** ** Data of the runtime API and of the blueprint packages *)

(** [nat.PortBinding] and [nat.PortMap] of go-connections. *)
Module natpkg.
Record PortBinding := mkPortBinding { HostIP : string; HostPort : string }.
Definition zero : PortBinding := mkPortBinding "" "".
Abbreviation PortMap := (gmap string (list PortBinding)).
End natpkg.

#[global] Instance PortBinding_eq_dec : EqDecision natpkg.PortBinding.
Proof. solve_decision. Defined.

(** [image.Summary], with the fields the builder reads. *)
Module image.
Record Summary := mkSummary
  { ID : string; RepoTags : list string; Labels : gmap string string }.
End image.

(** [network.Summary] and [network.CreateResponse]. *)
Module network.
Record Summary := mkSummary { ID : string; Name : string }.
Record CreateResponse := mkCreateResponse { cr_ID : string; Warning : string }.
End network.

(** [container.Summary], the inspected state and the commit options. *)
Module container.
Record Summary := mkSummary { ID : string; Names : list string }.
Record InspectResponse := mkInspect { Running : bool }.
Record CommitOptions := mkCommitOptions
  { Author : string; Pause : bool; Reference : string;
    Changes : list string; Config : bool (* a non-nil, empty config *) }.
End container.

(** Package [b]: blueprints, homeservers and application services. *)
Module b.
Record ApplicationService := mkApplicationService
  { ID : string; HSToken : string; ASToken : string; URL : string;
    SenderLocalpart : string; RateLimited : bool;
    SendEphemeral : bool; EnableEncryption : bool }.
Record Homeserver := mkHomeserver
  { Name : string;
    BaseImageURI : option string;          (* *string *)
    ApplicationServices : list ApplicationService }.
Record Blueprint := mkBlueprint
  { bp_Name : string;
    Homeservers : list Homeserver;
    KeepAccessTokensForUsers : list string }.
Definition zeroHomeserver : Homeserver := mkHomeserver "" None [].
End b.

(** Package [config]: the fields of [config.Complement] read by the builder. *)
Module config.
Record Complement := mkComplement
  { PackageNamespace : string;
    DebugLoggingEnabled : bool;
    BestEffort : bool;
    KeepBlueprints : list string;
    BaseImageURI : string;
    BaseImageURIs : gmap string string }.
End config.

(** Go errors.  An error is either opaque (it comes from the runtime or from a
    collaborator) or was built by [fmt.Errorf] from a format and arguments;
    formats are kept unexpanded, with their arguments ([AList] is a slice,
    [ASprintf] a string built by [fmt.Sprintf]). *)
#[warnings="-register-all"]
Inductive error : Type :=
| RuntimeError (msg : string)
| Errorf (format : string) (args : list arg)
with arg : Type :=
| AStr (s : string)
| AInt (z : Z)
| AErr (e : error)
| AList (l : list arg)
| ALabels (m : gmap string string)
| APortMap (p : natpkg.PortMap)
| ASprintf (format : string) (args : list arg).

(** A call that returns [(T, error)]. *)
Inductive res (A : Type) : Type :=
| Ok (a : A)
| Err (e : error).
Arguments Ok {A} a.
Arguments Err {A} e.

(** ** Port resolver *)

Section PortResolver.
Import natpkg.

(** The [for _, pb := range portBindings] loop of [findPortBinding]. *)
Fixpoint findPortBinding_loop (hsPortBindingIP : string)
    (portBindings : list PortBinding) : option PortBinding :=
  match portBindings with
  | [] => None
  | pb :: rest =>
      if decide (HostIP pb = hsPortBindingIP) then Some pb
      else if decide (HostIP pb = "0.0.0.0") then
        Some {| HostIP := hsPortBindingIP; HostPort := HostPort pb |}
      else if decide (HostIP pb = "" ∧ hsPortBindingIP = "127.0.0.1") then
        Some {| HostIP := hsPortBindingIP; HostPort := HostPort pb |}
      else findPortBinding_loop hsPortBindingIP rest
  end.

Definition portString (port : Z) : string := pretty port +:+ "/tcp".

Definition findPortBinding (p : PortMap) (hsPortBindingIP : string) (port : Z)
    : res PortBinding :=
  match p !! portString port with
  | None =>
      Err (Errorf "port %s not exposed - exposed ports: %v"
             [AStr (portString port); APortMap p])
  | Some portBindings =>
      if decide (length portBindings = 0%nat) then
        Err (Errorf "port %s exposed with not mapped port: %+v"
               [AStr (portString port); APortMap p])
      else
        match findPortBinding_loop hsPortBindingIP portBindings with
        | Some pb => Ok pb
        | None =>
            Err (Errorf "unable to find matching port binding for %s %s: %+v"
                   [AStr hsPortBindingIP; AStr (portString port); APortMap p])
        end
  end.

(** [fmt.Sprintf] for formats made of plain text and of the verbs [%s] and
    [%%], with string operands, one for each [%s].  [endpoints] builds its
    formats from the host address of a binding, so that what it returns
    depends on how package fmt reads that address.  The other verbs, a
    missing operand and operands that are left over are not modelled: the
    result is [None] for them. *)
Fixpoint Sprintf (format : string) (a : list string) : option string :=
  match format with
  | EmptyString => match a with [] => Some EmptyString | _ :: _ => None end
  | String c rest =>
      if Ascii.eqb c (Ascii.ascii_of_nat 37) then
        match rest with
        | EmptyString => None
        | String verb rest' =>
            if Ascii.eqb verb (Ascii.ascii_of_nat 115) then
              match a with
              | [] => None
              | operand :: a' =>
                  match Sprintf rest' a' with
                  | Some out => Some (operand +:+ out)
                  | None => None
                  end
              end
            else if Ascii.eqb verb (Ascii.ascii_of_nat 37) then
              match Sprintf rest' a with
              | Some out => Some (String (Ascii.ascii_of_nat 37) out)
              | None => None
              end
            else None
        end
      else
        match Sprintf rest a with
        | Some out => Some (String c out)
        | None => None
        end
  end.

(** [endpoints]: base URLs of the client-server and federation ports.  The
    result is [None] when a format is outside of what [Sprintf] models. *)
Definition endpoints (p : PortMap) (hsPortBindingIP : string) (csPort ssPort : Z)
    : option (res (string * string)) :=
  match findPortBinding p hsPortBindingIP csPort with
  | Err e => Some (Err (Errorf "Problem finding CS API port: %s" [AErr e]))
  | Ok csapiPortBinding =>
      match Sprintf ("http://" +:+ HostIP csapiPortBinding +:+ ":%s")
              [HostPort csapiPortBinding] with
      | None => None
      | Some baseURL =>
          match findPortBinding p hsPortBindingIP ssPort with
          | Err e => Some (Err (Errorf "Problem finding SS API port: %s" [AErr e]))
          | Ok ssapiPortBinding =>
              match Sprintf ("https://" +:+ HostIP ssapiPortBinding +:+ ":%s")
                      [HostPort ssapiPortBinding] with
              | None => None
              | Some fedBaseURL => Some (Ok (baseURL, fedBaseURL))
              end
          end
      end
  end.

(** The three rules of the resolver, for one binding. *)
Definition exact (ip : string) (pb : PortBinding) : Prop := HostIP pb = ip.
Definition allInterfaces (pb : PortBinding) : Prop := HostIP pb = "0.0.0.0".
Definition implicitLoopback (ip : string) (pb : PortBinding) : Prop :=
  HostIP pb = "" ∧ ip = "127.0.0.1".
Definition usable (ip : string) (pb : PortBinding) : Prop :=
  exact ip pb ∨ allInterfaces pb ∨ implicitLoopback ip pb.

#[global] Instance exact_dec ip pb : Decision (exact ip pb).
Proof. unfold exact. apply _. Defined.
#[global] Instance allInterfaces_dec pb : Decision (allInterfaces pb).
Proof. unfold allInterfaces. apply _. Defined.
#[global] Instance implicitLoopback_dec ip pb : Decision (implicitLoopback ip pb).
Proof. unfold implicitLoopback. apply _. Defined.
#[global] Instance usable_dec ip pb : Decision (usable ip pb).
Proof. unfold usable. apply _. Defined.

(** The binding as it is returned: verbatim on an exact match, with the
    address rewritten otherwise. *)
Definition rewritten (ip : string) (pb : PortBinding) : PortBinding :=
  {| HostIP := ip; HostPort := HostPort pb |}.

(** The resolver as the specification words it: the rules are tried one
    after the other, each over all the bindings of the port. *)
Definition ResolvePort_spec (p : PortMap) (hostBindIP : string) (port : Z)
    : option PortBinding :=
  match p !! portString port with
  | None | Some [] => None
  | Some pbs =>
      match List.find (λ pb, bool_decide (exact hostBindIP pb)) pbs with
      | Some pb => Some pb
      | None =>
          match List.find (λ pb, bool_decide (allInterfaces pb)) pbs with
          | Some pb => Some (rewritten hostBindIP pb)
          | None =>
              match List.find (λ pb, bool_decide (implicitLoopback hostBindIP pb)) pbs with
              | Some pb => Some (rewritten hostBindIP pb)
              | None => None
              end
          end
      end
  end.

Definition res_to_option {A} (r : res A) : option A :=
  match r with Ok a => Some a | Err _ => None end.
(** The port map [{80/tcp: [0.0.0.0:8080, 127.0.0.1:9090]}]. *)
Definition twoBindings : PortMap :=
  {[ "80/tcp" := [mkPortBinding "0.0.0.0" "8080"; mkPortBinding "127.0.0.1" "9090"] ]}.

End PortResolver.

(** ** The collaborators of the builder *)

(** [HomeserverDeployment], with the fields the builder reads. *)
Record HomeserverDeployment := mkDeployment
  { BaseURL : string; ContainerID : string }.

(** The arguments of [deployImage], in the order of its signature (the Docker
    client and the configuration are the builder's own). *)
Record DeployArgs := mkDeployArgs
  { da_imageID : string; da_containerName : string; da_pkgNamespace : string;
    da_blueprintName : string; da_hsName : string;
    da_asIDToRegistrationMap : gmap string string;
    da_contextStr : string; da_networkName : string }.

(** What [deployImage] returns: a deployment, or an error together with the
    deployment reached so far, if any.  (A nil deployment with a nil error is
    outside its contract: the builder dereferences the deployment.) *)
Inductive deployResult : Type :=
| Deployed (dep : HomeserverDeployment)
| DeployFailed (dep : option HomeserverDeployment) (err : error).

(** Modelled from the spec: [label] is declared outside builder.go; it builds
    the tag filter of a list call from its arguments, exact-match and ANDed
    across all supplied tags.  A filter is kept as the list of its tags. *)
Definition Filters := list string.
Definition label (labelFilters : list string) : Filters := labelFilters.

Definition complementLabel : string := "complement_context".

(** One call made by the builder, with the answer it received. *)
Inductive Event : Type :=
| EvNetworkList (f : Filters) (r : res (list network.Summary))
| EvNetworkCreate (name : string) (labels : gmap string string)
    (r : res network.CreateResponse)
| EvNetworkRemove (id : string) (r : option error)
| EvImageList (f : Filters) (r : res (list image.Summary))
| EvImageRemove (id : string) (force : bool) (r : option error)
| EvContainerList (all : bool) (f : Filters) (r : res (list container.Summary))
| EvContainerRemove (id : string) (force : bool) (r : option error)
| EvContainerInspect (id : string) (r : res container.InspectResponse)
| EvContainerKill (id signal : string) (r : option error)
| EvContainerStop (id : string) (timeout : Z) (r : option error)
| EvContainerCommit (id : string) (o : container.CommitOptions) (r : res string)
| EvContainerLogs (id : string) (r : res string)
| EvStdCopy (content : string)
| EvDeployImage (a : DeployArgs) (r : deployResult)
| EvNewRunner (blueprintName : string) (bestEffort debug : bool)
| EvRunnerRun (hs : b.Homeserver) (baseURL : string) (r : option error)
| EvAccessTokens (hsName : string) (r : gmap string string)
| EvDeviceIDs (hsName : string) (r : gmap string string)
| EvNow (t : Z)
| EvSleep (d : Z)
| EvPrintf (format : string) (args : list arg).

(** The container runtime client, the image deployer, the instruction runner
    and the clock, as transitions of a world [W]. *)
Class Runtime (W : Type) := {
  rtNetworkList : Filters → W → res (list network.Summary) * W;
  rtNetworkCreate : string → gmap string string → W → res network.CreateResponse * W;
  rtNetworkRemove : string → W → option error * W;
  rtImageList : Filters → W → res (list image.Summary) * W;
  rtImageRemove : string → bool → W → option error * W;
  rtContainerList : bool → Filters → W → res (list container.Summary) * W;
  rtContainerRemove : string → bool → W → option error * W;
  rtContainerInspect : string → W → res container.InspectResponse * W;
  rtContainerKill : string → string → W → option error * W;
  rtContainerStop : string → Z → W → option error * W;
  rtContainerCommit : string → container.CommitOptions → W → res string * W;
  rtContainerLogs : string → W → res string * W;
  rtDeployImage : DeployArgs → W → deployResult * W;
  rtNewRunner : string → bool → bool → W → W;
  rtRunnerRun : b.Homeserver → string → W → option error * W;
  rtAccessTokens : string → W → gmap string string;
  rtDeviceIDs : string → W → gmap string string;
  rtNow : W → Z * W;
  rtSleep : Z → W → W;
}.

(** ** The monad of the builder: state passing over the world, with the trace
       of the calls made *)

Section Monad.
Context {W : Type}.

Record Out (A : Type) := mkOut { val : A; wld : W; trc : list Event }.
Arguments mkOut {A} _ _ _.
Arguments val {A} _.
Arguments wld {A} _.
Arguments trc {A} _.

Definition M (A : Type) : Type := W → Out A.

Definition ret {A} (a : A) : M A := λ w, mkOut a w [].

Definition bind {A B} (m : M A) (f : A → M B) : M B := λ w,
  let r := m w in
  let s := f (val r) (wld r) in
  mkOut (val s) (wld s) (trc r ++ trc s).

(** A call: the world moves, the answer is returned and recorded. *)
Definition call {A} (op : W → A * W) (ev : A → Event) : M A := λ w,
  let p := op w in mkOut p.1 p.2 [ev p.1].

Definition emit (ev : Event) : M unit := λ w, mkOut tt w [ev].
End Monad.

Arguments M W A : clear implicits.
Arguments mkOut {W A} _ _ _.
Arguments val {W A} _.
Arguments wld {W A} _.
Arguments trc {W A} _.

Notation "'let*' x ':=' m 'in' k" := (bind m (λ x, k))
  (at level 10, x pattern, m at level 100, k at level 200).

(** ** The builder *)

Section Builder.
Context {W : Type} {rt : Runtime W}.

(** The fields of [Builder]: the configuration; the Docker client is the
    runtime [rt]. *)
Variable Config : config.Complement.

(** Helpers of the package that are declared outside builder.go. *)
Variable labelsForApplicationServices : b.Homeserver → gmap string string.
Variable asIDToRegistrationFromLabels : gmap string string → gmap string string.

Definition docker_NetworkList f : M W (res (list network.Summary)) :=
  call (rtNetworkList f) (EvNetworkList f).
Definition docker_NetworkCreate name labels : M W (res network.CreateResponse) :=
  call (rtNetworkCreate name labels) (EvNetworkCreate name labels).
Definition docker_NetworkRemove id : M W (option error) :=
  call (rtNetworkRemove id) (EvNetworkRemove id).
Definition docker_ImageList f : M W (res (list image.Summary)) :=
  call (rtImageList f) (EvImageList f).
Definition docker_ImageRemove id force : M W (option error) :=
  call (rtImageRemove id force) (EvImageRemove id force).
Definition docker_ContainerList all f : M W (res (list container.Summary)) :=
  call (rtContainerList all f) (EvContainerList all f).
Definition docker_ContainerRemove id force : M W (option error) :=
  call (rtContainerRemove id force) (EvContainerRemove id force).
Definition docker_ContainerInspect id : M W (res container.InspectResponse) :=
  call (rtContainerInspect id) (EvContainerInspect id).
Definition docker_ContainerKill id signal : M W (option error) :=
  call (rtContainerKill id signal) (EvContainerKill id signal).
Definition docker_ContainerStop id timeout : M W (option error) :=
  call (rtContainerStop id timeout) (EvContainerStop id timeout).
Definition docker_ContainerCommit id o : M W (res string) :=
  call (rtContainerCommit id o) (EvContainerCommit id o).
Definition docker_ContainerLogs id : M W (res string) :=
  call (rtContainerLogs id) (EvContainerLogs id).
Definition deployImage a : M W deployResult :=
  call (rtDeployImage a) (EvDeployImage a).
Definition instruction_NewRunner name bestEffort debug : M W unit :=
  λ w, mkOut tt (rtNewRunner name bestEffort debug w)
         [EvNewRunner name bestEffort debug].
Definition runner_Run hs baseURL : M W (option error) :=
  call (rtRunnerRun hs baseURL) (EvRunnerRun hs baseURL).
Definition runner_AccessTokens hsName : M W (gmap string string) :=
  λ w, mkOut (rtAccessTokens hsName w) w [EvAccessTokens hsName (rtAccessTokens hsName w)].
Definition runner_DeviceIDs hsName : M W (gmap string string) :=
  λ w, mkOut (rtDeviceIDs hsName w) w [EvDeviceIDs hsName (rtDeviceIDs hsName w)].
Definition time_Now : M W Z := call rtNow EvNow.
Definition time_Sleep (d : Z) : M W unit :=
  λ w, mkOut tt (rtSleep d w) [EvSleep d].

(** [log.Printf]. *)
Definition log_Printf (format : string) (args : list arg) : M W unit :=
  emit (EvPrintf format args).

(** [(d *Builder) log]: prints only when debug logging is enabled. *)
Definition log (str : string) (args : list arg) : M W unit :=
  if negb (config.DebugLoggingEnabled Config) then ret tt
  else log_Printf str args.

(** *** Garbage collection *)

Fixpoint removeNetworks_loop (networks : list network.Summary) : M W (option error) :=
  match networks with
  | [] => ret None
  | nw :: rest =>
      let* err := docker_NetworkRemove (network.ID nw) in
      match err with
      | Some e => ret (Some e)
      | None => removeNetworks_loop rest
      end
  end.

Definition removeNetworks : M W (option error) :=
  let* r := docker_NetworkList
    (label [complementLabel;
            "complement_pkg=" +:+ config.PackageNamespace Config]) in
  match r with
  | Err e => ret (Some e)
  | Ok networks => removeNetworks_loop networks
  end.

(** [isLocalhost]: every repository tag has the local prefix. *)
Fixpoint isLocalhost (repoTags : list string) : bool :=
  match repoTags with
  | [] => true
  | rt :: rest =>
      if negb (String.prefix "localhost/complement" rt) then false
      else isLocalhost rest
  end.

(** [keep]: the blueprint name is one of [KeepBlueprints]. *)
Fixpoint keepBlueprint (bprintName : string) (keepBlueprints : list string) : bool :=
  match keepBlueprints with
  | [] => false
  | keepBprint :: rest =>
      if decide (bprintName = keepBprint) then true
      else keepBlueprint bprintName rest
  end.

Fixpoint removeImages_loop (images : list image.Summary) : M W (option error) :=
  match images with
  | [] => ret None
  | img :: rest =>
      if negb (isLocalhost (image.RepoTags img)) then
        let* _ := log "Not cleaning up image with tags: %v" [AList (map AStr (image.RepoTags img))] in
        removeImages_loop rest
      else
        let bprintName := default "" (image.Labels img !! "complement_blueprint") in
        if keepBlueprint bprintName (config.KeepBlueprints Config) then
          let* _ := log "Keeping image created from blueprint %s" [AStr bprintName] in
          removeImages_loop rest
        else
          let* err := docker_ImageRemove (image.ID img) true in
          match err with
          | Some e => ret (Some e)
          | None => removeImages_loop rest
          end
  end.

Definition removeImages : M W (option error) :=
  let* r := docker_ImageList
    (label [complementLabel;
            "complement_pkg=" +:+ config.PackageNamespace Config]) in
  match r with
  | Err e => ret (Some e)
  | Ok images => removeImages_loop images
  end.

Fixpoint removeContainers_loop (containers : list container.Summary) : M W (option error) :=
  match containers with
  | [] => ret None
  | c :: rest =>
      let* err := docker_ContainerRemove (container.ID c) true in
      match err with
      | Some e => ret (Some e)
      | None => removeContainers_loop rest
      end
  end.

Definition removeContainers : M W (option error) :=
  let* r := docker_ContainerList true
    (label [complementLabel;
            "complement_pkg=" +:+ config.PackageNamespace Config]) in
  match r with
  | Err e => ret (Some e)
  | Ok containers => removeContainers_loop containers
  end.

Definition Cleanup : M W unit :=
  let* err := removeContainers in
  let* _ := match err with
            | Some e => log "Cleanup: Failed to remove containers: %s" [AErr e]
            | None => ret tt
            end in
  let* err := removeImages in
  let* _ := match err with
            | Some e => log "Cleanup: Failed to remove images: %s" [AErr e]
            | None => ret tt
            end in
  let* err := removeNetworks in
  match err with
  | Some e => log "Cleanup: Failed to remove networks: %s" [AErr e]
  | None => ret tt
  end.

(** *** Construction *)

(** The construction result of one homeserver. *)
Record result := mkResult
  { err : option error;
    containerID : string;
    contextStr : string;
    homeserver : b.Homeserver }.

Definition zeroResult : result := mkResult None "" "" b.zeroHomeserver.

Definition dquote : string := String (Ascii.ascii_of_nat 34) "".

(** [toChanges]: one [LABEL "k"="v"] directive per label.  Go ranges over
    the map in no fixed order; the order taken here is that of
    [map_to_list]. *)
Definition toChanges (labels : gmap string string) : list string :=
  map (λ kv, "LABEL " +:+ dquote +:+ kv.1 +:+ dquote +:+ "=" +:+
             dquote +:+ kv.2 +:+ dquote)
      (map_to_list labels).

Definition fmtBool (x : bool) : string := if x then "true" else "false".

Definition generateASRegistrationYaml (as_ : b.ApplicationService) : string :=
  ("id: " +:+ b.ID as_ +:+ "\n") +:+
  ("hs_token: " +:+ b.HSToken as_ +:+ "\n") +:+
  ("as_token: " +:+ b.ASToken as_ +:+ "\n") +:+
  ("url: '" +:+ b.URL as_ +:+ "'\n") +:+
  ("sender_localpart: " +:+ b.SenderLocalpart as_ +:+ "\n") +:+
  ("rate_limited: " +:+ fmtBool (b.RateLimited as_) +:+ "\n") +:+
  ("de.sorunome.msc2409.push_ephemeral: " +:+ fmtBool (b.SendEphemeral as_) +:+ "\n") +:+
  ("push_ephemeral: " +:+ fmtBool (b.SendEphemeral as_) +:+ "\n") +:+
  ("org.matrix.msc3202: " +:+ fmtBool (b.EnableEncryption as_) +:+ "\n") +:+
  "namespaces:\n" +:+
  "  users:\n" +:+
  "    - exclusive: false\n" +:+
  "      regex: .*\n" +:+
  "  rooms: []\n" +:+
  "  aliases: []\n".

Definition deployBaseImage (blueprintName : string) (hs : b.Homeserver)
    (contextStr networkName : string) : M W deployResult :=
  let asIDToRegistrationMap :=
    asIDToRegistrationFromLabels (labelsForApplicationServices hs) in
  let baseImageURI :=
    match b.BaseImageURI hs with
    | None =>
        match config.BaseImageURIs Config !! b.Name hs with
        | Some uri => uri
        | None => config.BaseImageURI Config
        end
    | Some uri => uri
    end in
  deployImage
    {| da_imageID := baseImageURI;
       da_containerName := "complement_" +:+ contextStr;
       da_pkgNamespace := config.PackageNamespace Config;
       da_blueprintName := blueprintName;
       da_hsName := b.Name hs;
       da_asIDToRegistrationMap := asIDToRegistrationMap;
       da_contextStr := contextStr;
       da_networkName := networkName |}.

Definition constructHomeserver (blueprintName : string) (hs : b.Homeserver)
    (networkName : string) : M W result :=
  let contextStr :=
    config.PackageNamespace Config +:+ "." +:+ blueprintName +:+ "." +:+ b.Name hs in
  let* _ := log "%s : constructing homeserver...\n" [AStr contextStr] in
  let* r := deployBaseImage blueprintName hs contextStr networkName in
  match r with
  | DeployFailed dep e =>
      let* _ := log_Printf "%s : failed to deployBaseImage: %s\n"
                  [AStr contextStr; AErr e] in
      let containerID :=
        match dep with Some dep => ContainerID dep | None => "" end in
      ret {| err := Some e; containerID := containerID;
             contextStr := contextStr; homeserver := hs |}
  | Deployed dep =>
      let* _ := log "%s : deployed base image to %s (%s)\n"
                  [AStr contextStr; AStr (BaseURL dep); AStr (ContainerID dep)] in
      let* e := runner_Run hs (BaseURL dep) in
      let* _ := match e with
                | Some e => log "%s : failed to run instructions: %s\n"
                              [AStr contextStr; AErr e]
                | None => ret tt
                end in
      ret {| err := e; containerID := ContainerID dep;
             contextStr := contextStr; homeserver := hs |}
  end.

Definition createNetworkIfNotExists (pkgNamespace blueprintName : string)
    : M W (res string) :=
  let* r := docker_NetworkList
    (label ["complement_pkg=" +:+ pkgNamespace;
            "complement_blueprint=" +:+ blueprintName]) in
  match r with
  | Err e =>
      ret (Err (Errorf "%s: failed to list networks. %w" [AStr blueprintName; AErr e]))
  | Ok nws =>
      match nws with
      | nw0 :: _ =>
          let* _ :=
            if decide (1 < length nws)%nat then
              log_Printf "WARNING: createNetworkIfNotExists got %d networks for pkg=%s blueprint=%s"
                [AInt (Z.of_nat (length nws)); AStr pkgNamespace; AStr blueprintName]
            else ret tt in
          ret (Ok (network.Name nw0))
      | [] =>
          let networkName := "complement_" +:+ pkgNamespace +:+ "_" +:+ blueprintName in
          let* r := docker_NetworkCreate networkName
            (<[complementLabel := blueprintName]>
               (<["complement_blueprint" := blueprintName]>
                  (<["complement_pkg" := pkgNamespace]> ∅))) in
          match r with
          | Err e =>
              ret (Err (Errorf "%s: failed to create docker network. %w"
                          [AStr blueprintName; AErr e]))
          | Ok nw =>
              let checkID : M W (res string) :=
                if decide (network.cr_ID nw = "") then
                  ret (Err (Errorf "%s: unexpected empty ID while creating networkID"
                              [AStr blueprintName]))
                else ret (Ok networkName) in
              if decide (network.Warning nw ≠ "") then
                if decide (network.cr_ID nw = "") then
                  ret (Err (Errorf "%s: fatal warning while creating docker network. %s"
                              [AStr blueprintName; AStr (network.Warning nw)]))
                else
                  let* _ := log_Printf "WARNING: %s\n" [AStr (network.Warning nw)] in
                  checkID
              else checkID
          end
      end
  end.

Definition printLogs (containerID contextStr : string) : M W unit :=
  let* r := docker_ContainerLogs containerID in
  match r with
  | Err e =>
      log_Printf "%s : Failed to extract container logs: %s\n" [AStr contextStr; AErr e]
  | Ok reader =>
      let* _ := log_Printf "============================================\n\n\n" [] in
      let* _ := log_Printf "%s : Server logs:\n" [AStr contextStr] in
      let* _ := emit (EvStdCopy reader) in
      log_Printf "============== %s : END LOGS ==============\n\n\n" [AStr contextStr]
  end.

(** The function deferred for every homeserver that was constructed:
    kill the container if it is still running. *)
Definition deferredKill (r : result) : M W unit :=
  let* info := docker_ContainerInspect (containerID r) in
  match info with
  | Err _ =>
      log "%s : Can't get status of %s" [AStr (contextStr r); AStr (containerID r)]
  | Ok containerInfo =>
      if negb (container.Running containerInfo) then ret tt
      else
        let* killErr := docker_ContainerKill (containerID r) "KILL" in
        match killErr with
        | Some e =>
            log "%s : Failed to kill container %s: %s\n"
              [AStr (contextStr r); AStr (containerID r); AErr e]
        | None => ret tt
        end
  end.

(** The deferred calls of [construct], most recently deferred first: they
    run in that order when the function returns. *)
Fixpoint runDeferred (deferred : list result) : M W unit :=
  match deferred with
  | [] => ret tt
  | r :: rest => let* _ := deferredKill r in runDeferred rest
  end.

(** The local state of [construct]: the named result [errs], the slice
    [results] and the stack of deferred calls. *)
Record frame := mkFrame
  { errs : list error; results : list result; deferred : list result }.

(** How a loop of [construct] is left: by [return], or at its end. *)
Inductive flow := Returned | Completed.

(** The first loop of [construct], from index [i] on. *)
Fixpoint construct_homeservers (blueprintName networkName : string) (i : nat)
    (homeservers : list b.Homeserver) (fr : frame) : M W (flow * frame) :=
  match homeservers with
  | [] => ret (Completed, fr)
  | hs :: rest =>
      let* res := constructHomeserver blueprintName hs networkName in
      match err res with
      | Some e =>
          let fr := {| errs := errs fr ++ [e]; results := results fr;
                       deferred := deferred fr |} in
          let* _ :=
            if decide (containerID res ≠ "") then
              printLogs (containerID res) (contextStr res)
            else ret tt in
          let* delErr := docker_ContainerRemove (containerID res) true in
          let* _ :=
            match delErr with
            | Some delErr =>
                log "%s: failed to remove container which failed to deploy: %s"
                  [AStr (contextStr res); AErr delErr]
            | None => ret tt
            end in
          ret (Returned, fr)
      | None =>
          let fr := {| errs := errs fr;
                       results := <[i := res]> (results fr);
                       deferred := res :: deferred fr |} in
          construct_homeservers blueprintName networkName (S i) rest fr
      end
  end.

(** The labels of the access tokens: those of [KeepAccessTokensForUsers]
    when that list is not empty, all of them otherwise. *)
Fixpoint keepTokens (users : list string) (accessTokens labels : gmap string string)
    : gmap string string :=
  match users with
  | [] => labels
  | userID :: rest =>
      match accessTokens !! userID with
      | Some tok => keepTokens rest accessTokens (<["access_token_" +:+ userID := tok]> labels)
      | None => keepTokens rest accessTokens labels
      end
  end.

(** [for k, v := range m { labels[prefix+k] = v }]. *)
Definition addAll (prefix : string) (m labels : gmap string string)
    : gmap string string :=
  map_fold (λ k v acc, <[prefix +:+ k := v]> acc) labels m.

Definition tokenLabels (bprint : b.Blueprint) (accessTokens : gmap string string)
    : gmap string string :=
  if decide (0 < length (b.KeepAccessTokensForUsers bprint))%nat then
    keepTokens (b.KeepAccessTokensForUsers bprint) accessTokens ∅
  else addAll "access_token_" accessTokens ∅.

Definition commitLabels (bprint : b.Blueprint)
    (accessTokens deviceIDs asLabels : gmap string string) : gmap string string :=
  addAll "" asLabels
    (addAll "device_id" deviceIDs (tokenLabels bprint accessTokens)).

(** [strings.Replace(s, old, new, 1)]. *)
Fixpoint Replace1 (s old new : string) : string :=
  if String.prefix old s then
    new +:+ String.substring (String.length old)
              (String.length s - String.length old) s
  else
    match s with
    | EmptyString => EmptyString
    | String c s' => String c (Replace1 s' old new)
    end.

(** The second loop of [construct]: commit the containers. *)
Fixpoint construct_commit (bprint : b.Blueprint) (results : list result)
    (errs : list error) : M W (list error) :=
  match results with
  | [] => ret errs
  | res :: rest =>
      match err res with
      | Some _ => construct_commit bprint rest errs
      | None =>
          let* accessTokens := runner_AccessTokens (b.Name (homeserver res)) in
          let* deviceIDs := runner_DeviceIDs (b.Name (homeserver res)) in
          let labels :=
            commitLabels bprint accessTokens deviceIDs
              (labelsForApplicationServices (homeserver res)) in
          let* _ := log "%s: Stopping container: %s"
                      [AStr (contextStr res); AStr (containerID res)] in
          let tenSeconds := 10 in
          let* _ := docker_ContainerStop (containerID res) tenSeconds in
          let* _ := log "%s: Stopped container: %s"
                      [AStr (contextStr res); AStr (containerID res)] in
          let* commit := docker_ContainerCommit (containerID res)
            {| container.Author := "Complement";
               container.Pause := true;
               container.Reference := "localhost/complement:" +:+ contextStr res;
               container.Changes := toChanges labels;
               container.Config := true |} in
          match commit with
          | Err e =>
              let* _ := log "%s : failed to ContainerCommit: %s\n"
                          [AStr (contextStr res); AErr e] in
              construct_commit bprint rest
                (errs ++ [Errorf "%s : failed to ContainerCommit: %w"
                            [AStr (contextStr res); AErr e]])
          | Ok commitID =>
              let imageID := Replace1 commitID "sha256:" "" in
              let* _ := log "%s: Created docker image %s\n"
                          [AStr (contextStr res); AStr imageID] in
              construct_commit bprint rest errs
          end
      end
  end.

(** The body of [construct], up to its [return]: the network, all
    homeservers in sequence, then the commits.  It leaves the named result
    [errs] and the stack of deferred calls. *)
Definition construct_main (bprint : b.Blueprint) : M W frame :=
  let* _ := log "Constructing blueprint '%s'" [AStr (b.bp_Name bprint)] in
  let* nw := createNetworkIfNotExists (config.PackageNamespace Config)
               (b.bp_Name bprint) in
  match nw with
  | Err e => ret {| errs := [e]; results := []; deferred := [] |}
  | Ok networkName =>
      let* _ := instruction_NewRunner (b.bp_Name bprint)
                  (config.BestEffort Config) (config.DebugLoggingEnabled Config) in
      let fr := {| errs := [];
                   results := replicate (length (b.Homeservers bprint)) zeroResult;
                   deferred := [] |} in
      let* out := construct_homeservers (b.bp_Name bprint) networkName 0
                    (b.Homeservers bprint) fr in
      match out.1 with
      | Returned => ret out.2
      | Completed =>
          let* errs := construct_commit bprint (results out.2) (errs out.2) in
          ret {| errs := errs; results := results out.2; deferred := deferred out.2 |}
      end
  end.

(** [construct]: the deferred calls run when the body returns, the most
    recently deferred first; [errs] is returned as the body left it. *)
Definition construct (bprint : b.Blueprint) : M W (list error) :=
  let* fr := construct_main bprint in
  let* _ := runDeferred (deferred fr) in
  ret (errs fr).

(** The homeservers [homeservers] constructed one after the other, whatever
    their outcome: the runs that the first loop of [construct] makes as long
    as none fails. *)
Fixpoint constructAll (blueprintName networkName : string)
    (homeservers : list b.Homeserver) : M W (list result) :=
  match homeservers with
  | [] => ret []
  | hs :: rest =>
      let* res := constructHomeserver blueprintName hs networkName in
      let* rs := constructAll blueprintName networkName rest in
      ret (res :: rs)
  end.

(** *** Building a blueprint *)

Definition second : Z := 1000000000.
Definition millisecond : Z := 1000000.
Definition waitTime : Z := 5 * second.

(** [Time.Sub], as [time.Since] uses it: the difference of two readings of
    the clock, in nanoseconds, kept within the range of a [Duration]. *)
Definition maxDuration : Z := 2 ^ 63 - 1.
Definition minDuration : Z := - 2 ^ 63.
Definition Sub (t u : Z) : Z :=
  let d := t - u in
  if decide (maxDuration < d) then maxDuration
  else if decide (d < minDuration) then minDuration
  else d.

Definition time_Since (t : Z) : M W Z :=
  let* now := time_Now in ret (Sub now t).

(** How the polling loop of [ConstructBlueprint] ends. *)
Inductive pollEnd :=
| PollReturn (err : error)
| PollLeft (foundImages : bool) (images : list image.Summary).

Definition blueprintFilter (bprint : b.Blueprint) : Filters :=
  label [complementLabel;
         "complement_blueprint=" +:+ b.bp_Name bprint;
         "complement_pkg=" +:+ config.PackageNamespace Config].

(** The loop [for time.Since(startTime) < waitTime]; [fuel] bounds the
    number of its iterations, and [None] says that it was not enough. *)
Fixpoint pollImages (fuel : nat) (bprint : b.Blueprint) (startTime : Z)
    (images : list image.Summary) : M W (option pollEnd) :=
  match fuel with
  | O => ret None
  | S fuel =>
      let* elapsed := time_Since startTime in
      if decide (elapsed < waitTime) then
        let* r := docker_ImageList (blueprintFilter bprint) in
        match r with
        | Err e => ret (Some (PollReturn e))
        | Ok images =>
            if decide (length images < length (b.Homeservers bprint))%nat then
              let* _ := time_Sleep (100 * millisecond) in
              pollImages fuel bprint startTime images
            else ret (Some (PollLeft true images))
        end
      else ret (Some (PollLeft false images))
  end.

Fixpoint logEach (errs : list error) : M W unit :=
  match errs with
  | [] => ret tt
  | e :: rest =>
      let* _ := log "could not construct blueprint: %s" [AErr e] in logEach rest
  end.

(** [ConstructBlueprint]; the result is [None] when [fuel] did not suffice
    for the polling loop, and the returned error otherwise. *)
Definition ConstructBlueprint (fuel : nat) (bprint : b.Blueprint)
    : M W (option (option error)) :=
  let* errs := construct bprint in
  if decide (0 < length errs)%nat then
    let* _ := logEach errs in
    ret (Some (Some (Errorf "errors whilst constructing blueprint %s: %v"
                       [AStr (b.bp_Name bprint); AList (map AErr errs)])))
  else
    let* startTime := time_Now in
    let* p := pollImages fuel bprint startTime [] in
    match p with
    | None => ret None
    | Some (PollReturn e) => ret (Some (Some e))
    | Some (PollLeft foundImages images) =>
        let* _ := removeNetworks in
        if negb foundImages then
          ret (Some (Some (Errorf
            "failed to find built images via ImageList: did they all build ok?" [])))
        else
          let imgDatas :=
            map (λ img, ASprintf "%s=>%v"
                          [AStr (image.ID img); ALabels (image.Labels img)]) images in
          let* _ := log "Constructed blueprint '%s' : %v"
                      [AStr (b.bp_Name bprint); AList imgDatas] in
          ret (Some None)
    end.

Definition lookupFilter (bprint : b.Blueprint) : Filters :=
  label ["complement_blueprint=" +:+ b.bp_Name bprint;
         "complement_pkg=" +:+ config.PackageNamespace Config].

Definition ConstructBlueprintIfNotExist (fuel : nat) (bprint : b.Blueprint)
    : M W (option (option error)) :=
  let* r := docker_ImageList (lookupFilter bprint) in
  match r with
  | Err e =>
      ret (Some (Some (Errorf "ConstructBlueprintIfNotExist(%s): failed to ImageList: %w"
                         [AStr (b.bp_Name bprint); AErr e])))
  | Ok images =>
      if decide (length images = 0)%nat then
        let* r := ConstructBlueprint fuel bprint in
        match r with
        | None => ret None
        | Some (Some e) =>
            ret (Some (Some (Errorf
              "ConstructBlueprintIfNotExist(%s): failed to ConstructBlueprint: %w"
              [AStr (b.bp_Name bprint); AErr e])))
        | Some None => ret (Some None)
        end
      else ret (Some None)
  end.
End Builder.

(** ** A simulated runtime

    An executable instance of the interface, used to run the builder on
    concrete scenarios: an in-memory daemon with networks, containers and
    images selected by exact-match labels, a clock that every call advances,
    a delay before a committed image is listed, and faults to inject. *)

Module Sim.
Inductive fault : Type :=
| FailNetworkList | FailNetworkCreate | FailNetworkRemove (id : string)
| FailImageList | FailImageRemove (id : string)
| FailContainerList | FailContainerRemove (id : string)
| FailInspect (id : string) | FailKill (id : string)
| FailStop (id : string) | FailCommit (id : string) | FailLogs (id : string)
| FailDeploy (hsName : string) (withContainer : bool)
| FailRun (hsName : string).

#[global] Instance fault_eq_dec : EqDecision fault.
Proof. solve_decision. Defined.

Record Container := mkContainer
  { c_ID : string; c_running : bool; c_labels : gmap string string }.

Record World := mkWorld
  { faults : list fault;
    clock : Z;                 (* nanoseconds *)
    opTime : N;                (* what a call takes *)
    lag : Z;                   (* delay before a committed image is listed *)
    networks : list (network.Summary * gmap string string);
    containers : list Container;
    images : list (image.Summary * Z);      (* with the time it is listed from *)
    captured : gmap string (gmap string string);   (* access tokens, per homeserver *)
    devices : gmap string (gmap string string) }.

Definition withClock (w : World) (c : Z) : World :=
  mkWorld (faults w) c (opTime w) (lag w) (networks w) (containers w)
    (images w) (captured w) (devices w).
Definition withNetworks (w : World) (n : list (network.Summary * gmap string string)) : World :=
  mkWorld (faults w) (clock w) (opTime w) (lag w) n (containers w)
    (images w) (captured w) (devices w).
Definition withContainers (w : World) (c : list Container) : World :=
  mkWorld (faults w) (clock w) (opTime w) (lag w) (networks w) c
    (images w) (captured w) (devices w).
Definition withImages (w : World) (i : list (image.Summary * Z)) : World :=
  mkWorld (faults w) (clock w) (opTime w) (lag w) (networks w) (containers w)
    i (captured w) (devices w).

Definition tick (w : World) : World := withClock w (clock w + Z.of_N (opTime w)).

Definition failing (f : fault) (w : World) : bool := bool_decide (f ∈ faults w).

(** A tag of a filter: [key] or [key=value]. *)
Fixpoint splitEq (s : string) : string * option string :=
  match s with
  | EmptyString => (EmptyString, None)
  | String c s' =>
      if Ascii.eqb c (Ascii.ascii_of_nat 61) then (EmptyString, Some s')
      else let '(k, v) := splitEq s' in (String c k, v)
  end.

Definition matchesTag (labels : gmap string string) (tag : string) : bool :=
  match splitEq tag with
  | (k, None) => bool_decide (is_Some (labels !! k))
  | (k, Some v) => bool_decide (labels !! k = Some v)
  end.

Definition matchesAll (labels : gmap string string) (f : Filters) : bool :=
  forallb (matchesTag labels) f.

Definition NetworkList (f : Filters) (w : World) : res (list network.Summary) * World :=
  if failing FailNetworkList w then (Err (RuntimeError "cannot list networks"), tick w)
  else (Ok (map fst (filter (λ n, matchesAll n.2 f = true) (networks w))), tick w).

Definition NetworkCreate (name : string) (labels : gmap string string) (w : World)
    : res network.CreateResponse * World :=
  if failing FailNetworkCreate w then (Err (RuntimeError "cannot create network"), tick w)
  else (Ok (network.mkCreateResponse ("net-" +:+ name) ""),
        tick (withNetworks w (networks w ++ [(network.mkSummary ("net-" +:+ name) name, labels)]))).

Definition NetworkRemove (id : string) (w : World) : option error * World :=
  if failing (FailNetworkRemove id) w then
    (Some (RuntimeError "network has active endpoints"), tick w)
  else (None, tick (withNetworks w (filter (λ n, network.ID n.1 ≠ id) (networks w)))).

Definition ImageList (f : Filters) (w : World) : res (list image.Summary) * World :=
  if failing FailImageList w then (Err (RuntimeError "cannot list images"), tick w)
  else (Ok (map fst (filter (λ i, matchesAll (image.Labels i.1) f = true ∧ i.2 ≤ clock w)
                       (images w))), tick w).

Definition ImageRemove (id : string) (force : bool) (w : World) : option error * World :=
  if failing (FailImageRemove id) w then (Some (RuntimeError "image is in use"), tick w)
  else (None, tick (withImages w (filter (λ i, image.ID i.1 ≠ id) (images w)))).

Definition ContainerList (all : bool) (f : Filters) (w : World)
    : res (list container.Summary) * World :=
  if failing FailContainerList w then (Err (RuntimeError "cannot list containers"), tick w)
  else (Ok (map (λ c, container.mkSummary (c_ID c) [])
              (filter (λ c, matchesAll (c_labels c) f = true ∧ (all = true ∨ c_running c = true))
                 (containers w))), tick w).

Definition known (id : string) (w : World) : bool :=
  bool_decide (id ∈ map c_ID (containers w)).

Definition ContainerRemove (id : string) (force : bool) (w : World) : option error * World :=
  if failing (FailContainerRemove id) w then
    (Some (RuntimeError "cannot remove container"), tick w)
  else if negb (known id w) then (Some (RuntimeError "No such container"), tick w)
  else (None, tick (withContainers w (filter (λ c, c_ID c ≠ id) (containers w)))).

Definition ContainerInspect (id : string) (w : World)
    : res container.InspectResponse * World :=
  if failing (FailInspect id) w then (Err (RuntimeError "cannot inspect container"), tick w)
  else
    match List.find (λ c, bool_decide (c_ID c = id)) (containers w) with
    | Some c => (Ok (container.mkInspect (c_running c)), tick w)
    | None => (Err (RuntimeError "No such container"), tick w)
    end.

Definition halt (id : string) (w : World) : World :=
  withContainers w
    (map (λ c, if decide (c_ID c = id) then mkContainer (c_ID c) false (c_labels c) else c)
       (containers w)).

Definition ContainerKill (id signal : string) (w : World) : option error * World :=
  if failing (FailKill id) w then (Some (RuntimeError "cannot kill container"), tick w)
  else (None, tick (halt id w)).

Definition ContainerStop (id : string) (timeout : Z) (w : World) : option error * World :=
  if failing (FailStop id) w then (Some (RuntimeError "cannot stop container"), tick w)
  else (None, tick (halt id w)).

Definition ContainerCommit (id : string) (o : container.CommitOptions) (w : World)
    : res string * World :=
  if failing (FailCommit id) w then (Err (RuntimeError "cannot commit container"), tick w)
  else
    match List.find (λ c, bool_decide (c_ID c = id)) (containers w) with
    | Some c =>
        (Ok ("sha256:" +:+ id),
         tick (withImages w
                 (images w ++
                  [(image.mkSummary ("sha256:" +:+ id) [container.Reference o] (c_labels c),
                    clock w + lag w)])))
    | None => (Err (RuntimeError "No such container"), tick w)
    end.

Definition ContainerLogs (id : string) (w : World) : res string * World :=
  if failing (FailLogs id) w then (Err (RuntimeError "cannot read logs"), tick w)
  else (Ok ("logs of " +:+ id), tick w).

Definition deployed (a : DeployArgs) : Container :=
  mkContainer ("cid-" +:+ da_contextStr a) true
    (<[complementLabel := da_contextStr a]>
       (<["complement_blueprint" := da_blueprintName a]>
          (<["complement_pkg" := da_pkgNamespace a]>
             (<["complement_hs_name" := da_hsName a]> ∅)))).

Definition DeployImage (a : DeployArgs) (w : World) : deployResult * World :=
  let dep := mkDeployment ("http://localhost/" +:+ da_hsName a) (c_ID (deployed a)) in
  if failing (FailDeploy (da_hsName a) false) w then
    (DeployFailed None (RuntimeError "cannot create container"), tick w)
  else if failing (FailDeploy (da_hsName a) true) w then
    (DeployFailed (Some dep) (RuntimeError "homeserver did not come up"),
     tick (withContainers w (containers w ++ [deployed a])))
  else (Deployed dep, tick (withContainers w (containers w ++ [deployed a]))).

Definition RunnerRun (hs : b.Homeserver) (baseURL : string) (w : World)
    : option error * World :=
  if failing (FailRun (b.Name hs)) w then
    (Some (RuntimeError "instruction failed"), tick w)
  else (None, tick w).

#[global] Instance runtime : Runtime World :=
  {| rtNetworkList := NetworkList;
     rtNetworkCreate := NetworkCreate;
     rtNetworkRemove := NetworkRemove;
     rtImageList := ImageList;
     rtImageRemove := ImageRemove;
     rtContainerList := ContainerList;
     rtContainerRemove := ContainerRemove;
     rtContainerInspect := ContainerInspect;
     rtContainerKill := ContainerKill;
     rtContainerStop := ContainerStop;
     rtContainerCommit := ContainerCommit;
     rtContainerLogs := ContainerLogs;
     rtDeployImage := DeployImage;
     rtNewRunner := λ _ _ _ w, w;
     rtRunnerRun := RunnerRun;
     rtAccessTokens := λ hsName w, default ∅ (captured w !! hsName);
     rtDeviceIDs := λ hsName w, default ∅ (devices w !! hsName);
     rtNow := λ w, (clock w, tick w);
     rtSleep := λ d w, withClock w (clock w + Z.max d 0) |}.

(** A fresh daemon: nothing deployed, calls take 1 ms, images are listed
    as soon as they are committed. *)
Definition empty : World :=
  mkWorld [] 0 1000000 0 [] [] [] ∅ ∅.

Definition withFaults (w : World) (f : list fault) : World :=
  mkWorld f (clock w) (opTime w) (lag w) (networks w) (containers w)
    (images w) (captured w) (devices w).
Definition withLag (w : World) (l : Z) : World :=
  mkWorld (faults w) (clock w) (opTime w) l (networks w) (containers w)
    (images w) (captured w) (devices w).
Definition withCaptured (w : World) (c : gmap string (gmap string string)) : World :=
  mkWorld (faults w) (clock w) (opTime w) (lag w) (networks w) (containers w)
    (images w) c (devices w).
End Sim.

(** The configuration and the blueprints of the scenarios. *)
Definition cfgDebug : config.Complement :=
  config.mkComplement "pkg" true false ["keep"] "base:latest" ∅.
Definition cfgQuiet : config.Complement :=
  config.mkComplement "pkg" false false ["keep"] "base:latest" ∅.

Definition hs1 : b.Homeserver := b.mkHomeserver "hs1" None [].
Definition hs2 : b.Homeserver := b.mkHomeserver "hs2" None [].
Definition hs3 : b.Homeserver := b.mkHomeserver "hs3" None [].

Definition bpThree : b.Blueprint := b.mkBlueprint "three" [hs1; hs2; hs3] [].
Definition bpTwo : b.Blueprint := b.mkBlueprint "two" [hs1; hs2] [].
Definition bpEmpty : b.Blueprint := b.mkBlueprint "none" [] [].
Definition bpAlice : b.Blueprint := b.mkBlueprint "alice" [hs1] ["@alice:x"].

(** No application service in the scenarios. *)
Definition noASLabels (hs : b.Homeserver) : gmap string string := ∅.
Definition noRegistrations (labels : gmap string string) : gmap string string := ∅.

(** Scenarios of garbage collection. *)
Definition ownedLabels : gmap string string :=
  <[complementLabel := "pkg.two.hs1"]> (<["complement_pkg" := "pkg"]> ∅).

(** Two owned containers; the removal of the first one fails. *)
Definition twoContainers : Sim.World :=
  Sim.withFaults
    (Sim.withContainers Sim.empty
       [Sim.mkContainer "c1" false ownedLabels; Sim.mkContainer "c2" false ownedLabels])
    [Sim.FailContainerRemove "c1"].

(** Three owned images: a local one, one that also has a pulled tag, and one
    of a kept blueprint. *)
Definition imgLocal : image.Summary :=
  image.mkSummary "sha256:1" ["localhost/complement:pkg.two.hs1"]
    (<["complement_blueprint" := "two"]> ownedLabels).
Definition imgPulled : image.Summary :=
  image.mkSummary "sha256:2"
    ["localhost/complement:pkg.two.hs2"; "docker.io/library/snapshot:latest"]
    (<["complement_blueprint" := "two"]> ownedLabels).
Definition imgKept : image.Summary :=
  image.mkSummary "sha256:3" ["localhost/complement:pkg.keep.hs1"]
    (<["complement_blueprint" := "keep"]> ownedLabels).
Definition threeImages : Sim.World :=
  Sim.withImages Sim.empty [(imgLocal, 0); (imgPulled, 0); (imgKept, 0)].

(** Scenarios of construction. *)

(** The instructions of the second homeserver fail. *)
Definition secondFails : Sim.World := Sim.withFaults Sim.empty [Sim.FailRun "hs2"].

(** The first container cannot be stopped. *)
Definition stopFails : Sim.World :=
  Sim.withFaults Sim.empty [Sim.FailStop "cid-pkg.two.hs1"].

(** The first container cannot be committed. *)
Definition commitFails : Sim.World :=
  Sim.withFaults Sim.empty [Sim.FailCommit "cid-pkg.two.hs1"].

(** The first container can be neither stopped nor killed. *)
Definition killFails : Sim.World :=
  Sim.withFaults Sim.empty
    [Sim.FailStop "cid-pkg.two.hs1"; Sim.FailKill "cid-pkg.two.hs1"].

(** The runner captured the access tokens of two users on [hs1]. *)
Definition twoTokens : Sim.World :=
  Sim.withCaptured Sim.empty
    {[ "hs1" := <["@alice:x" := "tokA"]> (<["@bob:x" := "tokB"]> ∅) ]}.

Definition bpAll : b.Blueprint := b.mkBlueprint "alice" [hs1] [].

(** Scenarios of a build. *)

(** Committed images are listed 10 seconds after their commit. *)
Definition lagging : Sim.World := Sim.withLag Sim.empty (10 * second).

(** The image list cannot be read. *)
Definition listFails : Sim.World := Sim.withFaults Sim.empty [Sim.FailImageList].

(** An image of the blueprint [two] in the namespace [pkg] that does not
    carry the ownership label. *)
Definition imgUnowned : image.Summary :=
  image.mkSummary "sha256:9" ["docker.io/library/other:latest"]
    (<["complement_blueprint" := "two"]> (<["complement_pkg" := "pkg"]> ∅)).
Definition unowned : Sim.World := Sim.withImages Sim.empty [(imgUnowned, 0)].

(** No network can be created. *)
Definition networkFails : Sim.World :=
  Sim.withFaults Sim.empty [Sim.FailNetworkCreate].

(** The runner captured a token and a device of [@alice:x] on [hs1], and
    the homeserver runs an application service. *)
Definition aliceDevice : Sim.World :=
  Sim.mkWorld [] 0 1000000 0 [] [] []
    {[ "hs1" := {[ "@alice:x" := "tokA" ]} ]}
    {[ "hs1" := {[ "@alice:x" := "DEVA" ]} ]}.
Definition bridgeLabels (hs : b.Homeserver) : gmap string string :=
  {[ "application_service_bridge" := "id: bridge" ]}.
Definition resultAlice : result := mkResult None "cid-pkg.alice.hs1" "pkg.alice.hs1" hs1.

(** The same for the world with a device, and with a third user for whom a
    token was captured. *)
Definition aliceDeviceContainer : Sim.World :=
  Sim.withContainers aliceDevice [Sim.mkContainer "cid-pkg.alice.hs1" true ∅].

(** The namespace has a network of another blueprint, which cannot be
    removed. *)
Definition otherNetwork : Sim.World :=
  Sim.withFaults
    (Sim.withNetworks Sim.empty
       [(network.mkSummary "net-other" "complement_pkg_other",
         <[complementLabel := "other"]>
           (<["complement_blueprint" := "other"]>
              (<["complement_pkg" := "pkg"]> ∅)))])
    [Sim.FailNetworkRemove "net-other"].

(** Every call takes 6 seconds, the reading of the clock included. *)
Definition stalled : Sim.World := Sim.mkWorld [] 0 6000000000 0 [] [] [] ∅ ∅.

(** The catalogue holds an image of the blueprint [none] in the namespace
    [pkg]. *)
Definition imgNone : image.Summary :=
  image.mkSummary "sha256:0" ["localhost/complement:pkg.none.hs1"]
    (<[complementLabel := "pkg.none.hs1"]>
       (<["complement_blueprint" := "none"]> (<["complement_pkg" := "pkg"]> ∅))).
Definition cachedNone : Sim.World := Sim.withImages Sim.empty [(imgNone, 0)].

(** The catalogue of [w] can be listed and holds no image with the labels
    [f], listed yet or not. *)
Definition Sim_imageless (f : Filters) (w : Sim.World) : Prop :=
  Sim.failing Sim.FailImageList w = false ∧
  Forall (λ i, Sim.matchesAll (image.Labels i.1) f = false) (Sim.images w).

(** ** Observations on traces *)

(** The kind of a call. *)
Inductive kind : Type :=
| KNetworkList | KNetworkCreate | KNetworkRemove | KImageList | KImageRemove
| KContainerList | KContainerRemove | KContainerInspect | KContainerKill
| KContainerStop | KContainerCommit | KContainerLogs | KStdCopy | KDeployImage
| KNewRunner | KRunnerRun | KAccessTokens | KDeviceIDs | KNow | KSleep | KPrintf.

#[global] Instance kind_eq_dec : EqDecision kind.
Proof. solve_decision. Defined.

Definition kindOf (e : Event) : kind :=
  match e with
  | EvNetworkList _ _ => KNetworkList
  | EvNetworkCreate _ _ _ => KNetworkCreate
  | EvNetworkRemove _ _ => KNetworkRemove
  | EvImageList _ _ => KImageList
  | EvImageRemove _ _ _ => KImageRemove
  | EvContainerList _ _ _ => KContainerList
  | EvContainerRemove _ _ _ => KContainerRemove
  | EvContainerInspect _ _ => KContainerInspect
  | EvContainerKill _ _ _ => KContainerKill
  | EvContainerStop _ _ _ => KContainerStop
  | EvContainerCommit _ _ _ => KContainerCommit
  | EvContainerLogs _ _ => KContainerLogs
  | EvStdCopy _ => KStdCopy
  | EvDeployImage _ _ => KDeployImage
  | EvNewRunner _ _ _ => KNewRunner
  | EvRunnerRun _ _ _ => KRunnerRun
  | EvAccessTokens _ _ => KAccessTokens
  | EvDeviceIDs _ _ => KDeviceIDs
  | EvNow _ => KNow
  | EvSleep _ => KSleep
  | EvPrintf _ _ => KPrintf
  end.

(** All the events of a trace are of the kinds [ks]. *)
Definition only (ks : list kind) (t : list Event) : Prop :=
  Forall (λ e, bool_decide (kindOf e ∈ ks) = true) t.

(** The events of the kinds [ks], in order. *)
Definition events (ks : list kind) (t : list Event) : list Event :=
  List.filter (λ e, bool_decide (kindOf e ∈ ks)) t.

(** The removals attempted, with their answers. *)
Definition containerRemoves (t : list Event) : list (string * bool * option error) :=
  omap (λ e, match e with EvContainerRemove id f r => Some (id, f, r) | _ => None end) t.
Definition imageRemoves (t : list Event) : list (string * bool * option error) :=
  omap (λ e, match e with EvImageRemove id f r => Some (id, f, r) | _ => None end) t.
Definition networkRemoves (t : list Event) : list (string * option error) :=
  omap (λ e, match e with EvNetworkRemove id r => Some (id, r) | _ => None end) t.

(** The homeservers handed to [deployImage]. *)
Definition deployedHomeservers (t : list Event) : list string :=
  omap (λ e, match e with EvDeployImage a _ => Some (da_hsName a) | _ => None end) t.

(** The containers inspected, stopped, committed. *)
Definition inspected (t : list Event) : list string :=
  omap (λ e, match e with EvContainerInspect id _ => Some id | _ => None end) t.

(** The lines printed. *)
Definition printed (t : list Event) : list (string * list arg) :=
  omap (λ e, match e with EvPrintf f a => Some (f, a) | _ => None end) t.

(** A removal pass over the resources [keys]: the attempts are made in the
    order of the list, each after the success of the one before; the pass
    ends with the first failure, which is its result, or when all are done. *)
Inductive pass {K : Type} : list K → list (K * option error) → option error → Prop :=
| pass_done : pass [] [] None
| pass_failed k keys e : pass (k :: keys) [(k, Some e)] (Some e)
| pass_next k keys attempts r :
    pass keys attempts r → pass (k :: keys) ((k, None) :: attempts) r.

(** An image that the garbage collector may remove: all its tags are local
    and its blueprint is not kept. *)
Definition localTag (tag : string) : Prop :=
  String.prefix "localhost/complement" tag = true.
Definition blueprintOf (img : image.Summary) : string :=
  default "" (image.Labels img !! "complement_blueprint").
Definition eligible (Config : config.Complement) (img : image.Summary) : Prop :=
  Forall localTag (image.RepoTags img) ∧
  blueprintOf img ∉ config.KeepBlueprints Config.

#[global] Instance localTag_dec tag : Decision (localTag tag).
Proof. unfold localTag. apply _. Defined.
#[global] Instance eligible_dec Config img : Decision (eligible Config img).
Proof. unfold eligible. apply _. Defined.

(** The error of a pass: that of its list call, or that of its removals. *)
Definition passError {A} (listed : res A) (removals : option error) : option error :=
  match listed with Err e => Some e | Ok _ => removals end.

Definition listedOr {A} (listed : res (list A)) : list A :=
  match listed with Ok l => l | Err _ => [] end.

Definition namespaceFilter (Config : config.Complement) : Filters :=
  label [complementLabel; "complement_pkg=" +:+ config.PackageNamespace Config].

(** The lines that [Cleanup] itself prints. *)
Definition cleanupLogs (t : list Event) : list (string * list arg) :=
  omap (λ e, match e with
             | EvPrintf f a => if String.prefix "Cleanup: " f then Some (f, a) else None
             | _ => None
             end) t.

(** What the builder's logger prints for the error of a pass. *)
Definition logged (Config : config.Complement) (format : string)
    (e : option error) : list (string * list arg) :=
  match e with
  | Some e => if config.DebugLoggingEnabled Config then [(format, [AErr e])] else []
  | None => []
  end.

(** The same, as events. *)
Definition loggedEvents (Config : config.Complement) (format : string)
    (e : option error) : list Event :=
  map (λ l, EvPrintf l.1 l.2) (logged Config format e).

(** The slice [results] after the assignments [results[i] = r], for the
    results [rs] from index [i] on. *)
Fixpoint fill (i : nat) (rs : list result) (results : list result) : list result :=
  match rs with
  | [] => results
  | r :: rs => fill (S i) rs (<[i := r]> results)
  end.

(** A homeserver that was constructed without error. *)
Definition succeeded (r : result) : Prop := err r = None.

#[global] Instance succeeded_dec r : Decision (succeeded r).
Proof. unfold succeeded. apply _. Defined.

(** What the builder's logger prints, as events. *)
Definition logEvents (Config : config.Complement) (format : string)
    (args : list arg) : list Event :=
  if config.DebugLoggingEnabled Config then [EvPrintf format args] else [].

(** The world in which the first homeserver is constructed: after the
    network was provided and the runner created. *)
Definition afterNetwork {W} {rt : Runtime W} (Config : config.Complement)
    (bprint : b.Blueprint) (w : W) : W :=
  rtNewRunner (b.bp_Name bprint) (config.BestEffort Config)
    (config.DebugLoggingEnabled Config)
    (wld (createNetworkIfNotExists (config.PackageNamespace Config)
            (b.bp_Name bprint) w)).

(** The frame of [construct] when its first loop starts. *)
Definition frame0 (bprint : b.Blueprint) : frame :=
  {| errs := [];
     results := replicate (length (b.Homeservers bprint)) zeroResult;
     deferred := [] |}.

(** The calls of the commit phase. *)
Inductive commitCall : Type :=
| CallStop (id : string) (timeout : Z)
| CallCommit (id : string).

Definition commitCalls (t : list Event) : list commitCall :=
  omap (λ e, match e with
             | EvContainerStop id timeout _ => Some (CallStop id timeout)
             | EvContainerCommit id _ _ => Some (CallCommit id)
             | _ => None
             end) t.

(** The answers to the commits and to the stops, in order. *)
Definition commitAnswers (t : list Event) : list (res string) :=
  omap (λ e, match e with EvContainerCommit _ _ r => Some r | _ => None end) t.
Definition stopAnswers (t : list Event) : list (option error) :=
  omap (λ e, match e with EvContainerStop _ _ r => Some r | _ => None end) t.

(** The errors recorded for the commits of [rs] that were answered by an
    error. *)
Definition commitErrors (rs : list result) (answers : list (res string)) : list error :=
  omap (λ ra, match ra.2 with
              | Err e => Some (Errorf "%s : failed to ContainerCommit: %w"
                                 [AStr (contextStr ra.1); AErr e])
              | Ok _ => None
              end) (zip rs answers).

(** The results up to the first one that failed. *)
Fixpoint successes (rs : list result) : list result :=
  match rs with
  | [] => []
  | r :: rs => if decide (succeeded r) then r :: successes rs else []
  end.

(** The events of one deferred call, for the answers [info] of the
    inspection and [killErr] of the kill: the kill is sent when the container
    was inspected and is running; a failure is handed to the logger. *)
Definition killEvents (Config : config.Complement) (r : result)
    (info : res container.InspectResponse) (killErr : option error) : list Event :=
  EvContainerInspect (containerID r) info ::
  match info with
  | Err _ =>
      logEvents Config "%s : Can't get status of %s"
        [AStr (contextStr r); AStr (containerID r)]
  | Ok containerInfo =>
      if container.Running containerInfo then
        EvContainerKill (containerID r) "KILL" killErr ::
        match killErr with
        | Some e =>
            logEvents Config "%s : Failed to kill container %s: %s\n"
              [AStr (contextStr r); AStr (containerID r); AErr e]
        | None => []
        end
      else []
  end.

(** The lines that one deferred call hands to the builder's logger: one
    when the inspection fails, one when the kill fails. *)
Definition killLines (r : result) (info : res container.InspectResponse)
    (killErr : option error) : list (string * list arg) :=
  match info with
  | Err _ =>
      [("%s : Can't get status of %s", [AStr (contextStr r); AStr (containerID r)])]
  | Ok containerInfo =>
      if container.Running containerInfo then
        match killErr with
        | Some e =>
            [("%s : Failed to kill container %s: %s\n",
              [AStr (contextStr r); AStr (containerID r); AErr e])]
        | None => []
        end
      else []
  end.

(** The kinds of the calls of the body of [construct]. *)
Definition bodyKinds : list kind :=
  [KPrintf; KNetworkList; KNetworkCreate; KNewRunner; KDeployImage; KRunnerRun;
   KContainerLogs; KStdCopy; KContainerRemove; KAccessTokens; KDeviceIDs;
   KContainerStop; KContainerCommit].

(** The access token of [userID] that the allow-list of the blueprint
    retains: with an empty list every captured token, otherwise those of the
    listed users only. *)
Definition retained (bprint : b.Blueprint) (accessTokens : gmap string string)
    (userID : string) : option string :=
  if decide (b.KeepAccessTokensForUsers bprint = []) then accessTokens !! userID
  else if decide (userID ∈ b.KeepAccessTokensForUsers bprint) then accessTokens !! userID
  else None.

(** The options of the commit of result [r], for the labels [labels]. *)
Definition commitOptions (r : result) (labels : gmap string string)
    : container.CommitOptions :=
  {| container.Author := "Complement";
     container.Pause := true;
     container.Reference := "localhost/complement:" +:+ contextStr r;
     container.Changes := toChanges labels;
     container.Config := true |}.

(** ** The clock and the catalogue of the runtime *)

(** A monotonic clock, as [time.Since] reads it: the time never goes back,
    and a sleep lasts at least as long as asked. *)
Class MonotonicClock {W : Type} (rt : Runtime W) := {
  clock : W → Z;
  clock_Now : ∀ w, clock w ≤ (rtNow w).1 ∧ (rtNow w).1 ≤ clock (rtNow w).2;
  clock_ImageList : ∀ f w, clock w ≤ clock (rtImageList f w).2;
  clock_Sleep : ∀ d w, clock w + d ≤ clock (rtSleep d w);
}.

(** A round of the polling loop that did not find the images: the reading
    of the clock and the images listed. *)
Definition roundEvents (f : Filters) (r : Z * list image.Summary) : list Event :=
  [EvNow r.1; EvImageList f (Ok r.2); EvSleep (100 * millisecond)].

(** The last round of the polling loop. *)
Inductive pollFinal : Type :=
| FoundImages (now : Z) (images : list image.Summary)
| TimedOut (now : Z)
| ListFailed (now : Z) (e : error).

Definition finalEvents (f : Filters) (final : pollFinal) : list Event :=
  match final with
  | FoundImages now images => [EvNow now; EvImageList f (Ok images)]
  | TimedOut now => [EvNow now]
  | ListFailed now e => [EvNow now; EvImageList f (Err e)]
  end.

(** The error of a build whose images did not show up. *)
Definition notFound : error :=
  Errorf "failed to find built images via ImageList: did they all build ok?" [].

(** The filter [f] lists at least one image in the world [w]. *)
Definition listed {W : Type} {rt : Runtime W} (f : Filters) (w : W) : Prop :=
  ∃ images, (rtImageList f w).1 = Ok images ∧ images ≠ [].

(** A catalogue that keeps its images: an image listed under some tags is
    listed under fewer tags, and stays listed when images or networks are
    listed and when networks are removed. *)
Class CatalogKeeps {W : Type} (rt : Runtime W) := {
  keeps_fewer_tags : ∀ f g (w : W), (∀ tag, tag ∈ f → tag ∈ g) → listed g w → listed f w;
  keeps_ImageList : ∀ f g (w : W), listed f w → listed f (rtImageList g w).2;
  keeps_NetworkList : ∀ f g (w : W), listed f w → listed f (rtNetworkList g w).2;
  keeps_NetworkRemove : ∀ f id (w : W), listed f w → listed f (rtNetworkRemove id w).2;
}.

(** A catalogue that gains images by commits only.  [imageless f w] says
    that the catalogue of [w] can be listed and holds no image with the
    labels [f]: a listing that asks for these labels, and possibly for
    more, succeeds and is empty; and this stays so through the calls of the
    builder that are no commit. *)
Class CatalogGrowsByCommit {W : Type} (rt : Runtime W) := {
  imageless : Filters → W → Prop;
  imageless_empty : ∀ f g (w : W),
    imageless f w → (∀ tag, tag ∈ f → tag ∈ g) → (rtImageList g w).1 = Ok [];
  imageless_ImageList : ∀ f g (w : W), imageless f w → imageless f (rtImageList g w).2;
  imageless_NetworkList : ∀ f g (w : W),
    imageless f w → imageless f (rtNetworkList g w).2;
  imageless_NetworkCreate : ∀ f name labels (w : W),
    imageless f w → imageless f (rtNetworkCreate name labels w).2;
  imageless_NetworkRemove : ∀ f id (w : W),
    imageless f w → imageless f (rtNetworkRemove id w).2;
  imageless_NewRunner : ∀ f name bestEffort debug (w : W),
    imageless f w → imageless f (rtNewRunner name bestEffort debug w);
  imageless_Now : ∀ f (w : W), imageless f w → imageless f (rtNow w).2;
}.

(** The events of a pass of [removeNetworks]: the networks of the
    namespace are listed, then removed in order up to the first failure. *)
Definition networksPass (Config : config.Complement) (t : list Event) : Prop :=
  ∃ r en removals,
    t = EvNetworkList (namespaceFilter Config) r :: removals ∧
    only [KNetworkRemove] removals ∧
    pass (map network.ID (listedOr r)) (networkRemoves removals) en.

(** The line logged for a blueprint that was built. *)
Definition constructedLine (Config : config.Complement) (bprint : b.Blueprint)
    (images : list image.Summary) : list Event :=
  logEvents Config "Constructed blueprint '%s' : %v"
    [AStr (b.bp_Name bprint);
     AList (map (λ img, ASprintf "%s=>%v"
                          [AStr (image.ID img); ALabels (image.Labels img)]) images)].

(** ** Characters of labels and directives *)

(** The character [c] occurs in [s]. *)
Fixpoint hasChar (c : Ascii.ascii) (s : string) : bool :=
  match s with
  | EmptyString => false
  | String x s' => Ascii.eqb x c || hasChar c s'
  end.

Definition lineFeed : Ascii.ascii := Ascii.ascii_of_nat 10.
Definition percent : Ascii.ascii := Ascii.ascii_of_nat 37.
Definition doubleQuote : Ascii.ascii := Ascii.ascii_of_nat 34.

(** The directive that [toChanges] writes for the label [k] with value [v]. *)
Definition directive (k v : string) : string :=
  "LABEL " +:+ dquote +:+ k +:+ dquote +:+ "=" +:+ dquote +:+ v +:+ dquote.
(** ** Port resolver: properties *)

Section PortResolverFacts.
Import natpkg.

Lemma findPortBinding_loop_Some ip pbs b :
  findPortBinding_loop ip pbs = Some b →
  ∃ pre pb post, pbs = pre ++ pb :: post ∧
    Forall (λ x, ¬ usable ip x) pre ∧
    ((exact ip pb ∧ b = pb) ∨
     (¬ exact ip pb ∧ (allInterfaces pb ∨ implicitLoopback ip pb) ∧
      b = rewritten ip pb)).
Proof.
  induction pbs as [|pb rest IH]; simpl; [done|].
  destruct (decide (HostIP pb = ip)) as [Hx|Hx].
  { intros [= <-]. exists [], pb, rest. split_and!; [done|constructor|left; done]. }
  destruct (decide (HostIP pb = "0.0.0.0")) as [Ha|Ha].
  { intros [= <-]. exists [], pb, rest.
    split_and!; [done|constructor|right; split_and!; [done|left; done|done]]. }
  destruct (decide (HostIP pb = "" ∧ ip = "127.0.0.1")) as [Hl|Hl].
  { intros [= <-]. exists [], pb, rest.
    split_and!; [done|constructor|right; split_and!; [done|right; done|done]]. }
  intros Hrest. destruct (IH Hrest) as (pre & pb' & post & -> & Hpre & Hpb).
  exists (pb :: pre), pb', post. split_and!; [done| |done].
  constructor; [|done]. unfold usable, exact, allInterfaces, implicitLoopback.
  tauto.
Qed.

Lemma findPortBinding_loop_None ip pbs :
  findPortBinding_loop ip pbs = None ↔ Forall (λ x, ¬ usable ip x) pbs.
Proof.
  induction pbs as [|pb rest IH]; simpl; [split; [constructor|done]|].
  unfold usable, exact, allInterfaces, implicitLoopback in *.
  destruct (decide (HostIP pb = ip)) as [Hx|Hx].
  { split; [done|]. intros H. inversion H; subst. tauto. }
  destruct (decide (HostIP pb = "0.0.0.0")) as [Ha|Ha].
  { split; [done|]. intros H. inversion H; subst. tauto. }
  destruct (decide (HostIP pb = "" ∧ ip = "127.0.0.1")) as [Hl|Hl].
  { split; [done|]. intros H. inversion H; subst. tauto. }
  rewrite IH. split.
  - intros H. constructor; [tauto|done].
  - intros H. by inversion H.
Qed.
End PortResolverFacts.

Section PortResolverClaims.
Import natpkg.

(** The example of the specification: an all-interfaces binding is
    rewritten to the bind address. *)
Example findPortBinding_all_interfaces :
  findPortBinding {[ "80/tcp" := [mkPortBinding "0.0.0.0" "8080"] ]} "127.0.0.1" 80
  = Ok (mkPortBinding "127.0.0.1" "8080").
Proof. vm_compute. reflexivity. Qed.

Example findPortBinding_podman_empty_ip :
  findPortBinding {[ "80/tcp" := [mkPortBinding "" "8080"] ]} "127.0.0.1" 80
  = Ok (mkPortBinding "127.0.0.1" "8080").
Proof. vm_compute. reflexivity. Qed.

Example findPortBinding_empty_ip_other_host :
  res_to_option
    (findPortBinding {[ "80/tcp" := [mkPortBinding "" "8080"] ]} "10.0.0.1" 80) = None.
Proof. vm_compute. reflexivity. Qed.

(** C5, counterexample: with an all-interfaces binding listed before an
    exactly matching one, the resolver answers from the all-interfaces
    binding (port 8080), not from the exact match (port 9090) that the
    rule-by-rule reading of the specification selects. *)
Lemma findPortBinding_not_rule_priority :
  mkPortBinding "127.0.0.1" "9090" ∈
    default [] (twoBindings !! portString 80) ∧
  exact "127.0.0.1" (mkPortBinding "127.0.0.1" "9090") ∧
  findPortBinding twoBindings "127.0.0.1" 80
    = Ok (mkPortBinding "127.0.0.1" "8080") ∧
  ResolvePort_spec twoBindings "127.0.0.1" 80
    = Some (mkPortBinding "127.0.0.1" "9090") ∧
  res_to_option (findPortBinding twoBindings "127.0.0.1" 80)
    ≠ ResolvePort_spec twoBindings "127.0.0.1" 80.
Proof.
  split_and!.
  - vm_compute. apply list_elem_of_In. right. left. reflexivity.
  - reflexivity.
  - vm_compute. reflexivity.
  - vm_compute. reflexivity.
  - vm_compute. discriminate.
Qed.

(** C5, as the code has it: the bindings of the port are scanned once, in
    order, and the answer comes from the first binding that satisfies any of
    the three rules; for that binding an exact match is returned verbatim,
    and otherwise an all-interfaces address, or an empty address when the
    bind address is 127.0.0.1, is rewritten to the bind address.  An error
    is returned exactly when the port is absent, has no bindings, or none of
    its bindings satisfies a rule. *)
Theorem findPortBinding_first_usable (p : PortMap) (ip : string) (port : Z) :
  match findPortBinding p ip port with
  | Ok b =>
      ∃ pre pb post,
        p !! portString port = Some (pre ++ pb :: post) ∧
        Forall (λ x, ¬ usable ip x) pre ∧
        ((exact ip pb ∧ b = pb) ∨
         (¬ exact ip pb ∧ (allInterfaces pb ∨ implicitLoopback ip pb) ∧
          b = rewritten ip pb))
  | Err _ =>
      p !! portString port = None ∨
      ∃ pbs, p !! portString port = Some pbs ∧ Forall (λ x, ¬ usable ip x) pbs
  end.
Proof.
  unfold findPortBinding.
  destruct (p !! portString port) as [pbs|] eqn:Hp; [|by left].
  destruct (decide (length pbs = 0%nat)) as [Hlen|Hlen].
  { right. exists pbs. split; [done|].
    destruct pbs; [constructor|discriminate]. }
  destruct (findPortBinding_loop ip pbs) as [b|] eqn:Hloop.
  - destruct (findPortBinding_loop_Some _ _ _ Hloop)
      as (pre & pb & post & -> & Hpre & Hpb).
    by exists pre, pb, post.
  - right. exists pbs. split; [done|]. by apply findPortBinding_loop_None.
Qed.

(** The failure cases are those of the specification: the resolver fails
    exactly when the rule-by-rule reading finds nothing either. *)
Lemma findPortBinding_fails_as_spec (p : PortMap) (ip : string) (port : Z) :
  res_to_option (findPortBinding p ip port) = None ↔
  ResolvePort_spec p ip port = None.
Proof.
  unfold findPortBinding, ResolvePort_spec.
  destruct (p !! portString port) as [pbs|]; [|done].
  destruct pbs as [|pb0 rest]; [done|].
  destruct (decide _) as [?|_]; [done|].
  remember (pb0 :: rest) as pbs eqn:Hpbs. clear Hpbs.
  assert (Hnone : ∀ (P : PortBinding → Prop) `{∀ x, Decision (P x)},
    List.find (λ pb, bool_decide (P pb)) pbs = None ↔ Forall (λ x, ¬ P x) pbs).
  { intros P ?. split.
    - intros Hf. apply Forall_forall. intros x Hx HP.
      apply list_elem_of_In in Hx.
      apply (find_none _ _ Hf) in Hx. by apply bool_decide_eq_false in Hx.
    - intros Hall. destruct (List.find _ pbs) as [x|] eqn:Hf; [|done].
      apply find_some in Hf as [Hin HP]. apply bool_decide_eq_true in HP.
      apply list_elem_of_In in Hin.
      rewrite Forall_forall in Hall. by destruct (Hall x Hin). }
  destruct (findPortBinding_loop ip pbs) as [b|] eqn:Hloop; simpl.
  - split; [done|]. intros Hspec. exfalso.
    destruct (findPortBinding_loop_Some _ _ _ Hloop)
      as (pre & pb & post & Heq & _ & Hpb).
    assert (Hin : pb ∈ pbs).
    { rewrite Heq. apply list_elem_of_In, in_elt. }
    destruct (List.find (λ pb, bool_decide (exact ip pb)) pbs) eqn:H1; [done|].
    destruct (List.find (λ pb, bool_decide (allInterfaces pb)) pbs) eqn:H2; [done|].
    destruct (List.find (λ pb, bool_decide (implicitLoopback ip pb)) pbs) eqn:H3; [done|].
    pose proof (proj1 (Hnone _ _) H1) as G1.
    pose proof (proj1 (Hnone _ _) H2) as G2.
    pose proof (proj1 (Hnone _ _) H3) as G3.
    rewrite Forall_forall in G1. rewrite Forall_forall in G2.
    rewrite Forall_forall in G3.
    specialize (G1 _ Hin). specialize (G2 _ Hin). specialize (G3 _ Hin).
    tauto.
  - split; [|done]. intros _.
    apply findPortBinding_loop_None in Hloop. rewrite Forall_forall in Hloop.
    assert (H1 : List.find (λ pb, bool_decide (exact ip pb)) pbs = None).
    { apply Hnone, Forall_forall. intros x Hx. specialize (Hloop x Hx).
      unfold usable in Hloop. tauto. }
    assert (H2 : List.find (λ pb, bool_decide (allInterfaces pb)) pbs = None).
    { apply Hnone, Forall_forall. intros x Hx. specialize (Hloop x Hx).
      unfold usable in Hloop. tauto. }
    assert (H3 : List.find (λ pb, bool_decide (implicitLoopback ip pb)) pbs = None).
    { apply Hnone, Forall_forall. intros x Hx. specialize (Hloop x Hx).
      unfold usable in Hloop. tauto. }
    by rewrite H1, H2, H3.
Qed.
End PortResolverClaims.


(** ** The monad and the traces: equations *)

Section MonadFacts.
Context {W : Type}.

Lemma val_bind {A B} (m : M W A) (f : A → M W B) (w : W) :
  val (bind m f w) = val (f (val (m w)) (wld (m w))).
Proof. reflexivity. Qed.

Lemma wld_bind {A B} (m : M W A) (f : A → M W B) (w : W) :
  wld (bind m f w) = wld (f (val (m w)) (wld (m w))).
Proof. reflexivity. Qed.

Lemma trc_bind {A B} (m : M W A) (f : A → M W B) (w : W) :
  trc (bind m f w) = trc (m w) ++ trc (f (val (m w)) (wld (m w))).
Proof. reflexivity. Qed.

Lemma log_out (Config : config.Complement) str args (w : W) :
  log Config str args w =
  mkOut tt w (if config.DebugLoggingEnabled Config then [EvPrintf str args] else []).
Proof. unfold log. by destruct (config.DebugLoggingEnabled Config). Qed.

Lemma wld_log (Config : config.Complement) str args (w : W) :
  wld (log Config str args w) = w.
Proof. by rewrite log_out. Qed.
End MonadFacts.

(** Closes [∀ e, bool_decide (kindOf e ∈ ks) = true → f e = None] and the
    like, by cases on the event. *)
Ltac by_kind :=
  let e := fresh "e" in let H := fresh "H" in
  intros e; destruct e; try reflexivity;
  intros H; vm_compute in H; try discriminate H; try reflexivity.

Section TraceFacts.
Lemma only_nil ks : only ks [].
Proof. constructor. Qed.

Lemma only_app ks t1 t2 : only ks t1 → only ks t2 → only ks (t1 ++ t2).
Proof. apply Forall_app_2. Qed.

Lemma only_cons ks e t :
  bool_decide (kindOf e ∈ ks) = true → only ks t → only ks (e :: t).
Proof. by constructor. Qed.

Lemma only_mono ks ks' t : ks ⊆ ks' → only ks t → only ks' t.
Proof.
  intros Hsub Ht. eapply Forall_impl; [exact Ht|]. intros e He.
  apply bool_decide_eq_true in He. apply bool_decide_eq_true. by apply Hsub.
Qed.

Lemma only_log {W} (Config : config.Complement) ks str args (w : W) :
  KPrintf ∈ ks → only ks (trc (log Config str args w)).
Proof.
  intros Hk. rewrite log_out. simpl.
  destruct (config.DebugLoggingEnabled Config); [|constructor].
  apply only_cons; [by apply bool_decide_eq_true|constructor].
Qed.

(** Events of other kinds contribute nothing to an observation. *)
Lemma omap_only {B} (f : Event → option B) ks t :
  only ks t → (∀ e, bool_decide (kindOf e ∈ ks) = true → f e = None) →
  omap f t = [].
Proof.
  intros Ht Hf. induction Ht as [|e t He _ IH]; [done|].
  change (omap f (e :: t)) with
    (match f e with Some y => y :: omap f t | None => omap f t end).
  by rewrite (Hf e He), IH.
Qed.

Lemma events_only ks ks' t :
  only ks t → forallb (λ k, negb (bool_decide (k ∈ ks'))) ks = true →
  events ks' t = [].
Proof.
  intros Ht Hd. rewrite forallb_forall in Hd.
  induction Ht as [|e t He _ IH]; [done|].
  unfold events in *. simpl. rewrite IH.
  apply bool_decide_eq_true in He. apply list_elem_of_In in He.
  specialize (Hd _ He). apply negb_true_iff in Hd. by rewrite Hd.
Qed.

Lemma not_in_only ks t e :
  only ks t → bool_decide (kindOf e ∈ ks) = false → e ∉ t.
Proof.
  intros Ht He Hin. unfold only in Ht. rewrite Forall_forall in Ht.
  specialize (Ht e Hin). congruence.
Qed.

Lemma only_loggedEvents Config format e ks :
  KPrintf ∈ ks → only ks (loggedEvents Config format e).
Proof.
  intros Hk. unfold loggedEvents, logged. destruct e as [e|]; [|constructor].
  destruct (config.DebugLoggingEnabled Config); [|constructor].
  apply only_cons; [by apply bool_decide_eq_true|constructor].
Qed.

Lemma events_cons_in ks e t :
  bool_decide (kindOf e ∈ ks) = true → events ks (e :: t) = e :: events ks t.
Proof. intros He. unfold events. simpl. by rewrite He. Qed.

Lemma events_cons_out ks e t :
  bool_decide (kindOf e ∈ ks) = false → events ks (e :: t) = events ks t.
Proof. intros He. unfold events. simpl. by rewrite He. Qed.

Lemma events_app ks t1 t2 : events ks (t1 ++ t2) = events ks t1 ++ events ks t2.
Proof. apply List.filter_app. Qed.

Lemma pass_keys {K} (keys : list K) attempts r :
  pass keys attempts r → (attempts.*1) `prefix_of` keys.
Proof.
  induction 1 as [|k keys e|k keys attempts r _ IH].
  - done.
  - apply prefix_cons, prefix_nil.
  - rewrite fmap_cons. by apply prefix_cons.
Qed.

Lemma pass_complete {K} (keys : list K) attempts :
  pass keys attempts None → attempts.*1 = keys ∧ Forall (λ a, a.2 = None) attempts.
Proof.
  remember None as r eqn:Hr. induction 1 as [|k keys e|k keys attempts r _ IH].
  - done.
  - done.
  - destruct (IH Hr) as [IH1 IH2].
    split; [by rewrite fmap_cons, IH1|by constructor].
Qed.

Lemma pass_stops {K} (keys : list K) attempts e :
  pass keys attempts (Some e) →
  ∃ done_ k, attempts = done_ ++ [(k, Some e)] ∧ Forall (λ a, a.2 = None) done_.
Proof.
  remember (Some e) as r eqn:Hr. induction 1 as [|k keys e'|k keys attempts r _ IH]; simpl.
  - done.
  - injection Hr as ->. by exists [], k.
  - destruct (IH Hr) as (d & k' & -> & Hd).
    exists ((k, None) :: d), k'. split; [done|by constructor].
Qed.
End TraceFacts.

(** ** Garbage collection: properties *)

Section CleanupFacts.
Context {W : Type} {rt : Runtime W}.
Variable Config : config.Complement.

Lemma trc_call {A} (op : W → A * W) (ev : A → Event) (w : W) :
  trc (call op ev w) = [ev (val (call op ev w))].
Proof. reflexivity. Qed.

Lemma isLocalhost_spec tags : isLocalhost tags = true ↔ Forall localTag tags.
Proof.
  induction tags as [|tag tags IH]; simpl; [split; [constructor|done]|].
  unfold localTag at 1.
  destruct (String.prefix "localhost/complement" tag) eqn:Hp; simpl.
  - rewrite IH. split; [by constructor|by inversion 1].
  - split; [done|]. inversion 1 as [|?? Htag]. unfold localTag in Htag. congruence.
Qed.

Lemma keepBlueprint_spec name names : keepBlueprint name names = true ↔ name ∈ names.
Proof.
  induction names as [|n names IH]; simpl.
  - split; [done|]. by intros ?%not_elem_of_nil.
  - destruct (decide (name = n)) as [->|Hne].
    + split; [intros _; apply list_elem_of_here|done].
    + rewrite IH. split; [apply list_elem_of_further|].
      intros Hin. apply elem_of_cons in Hin as [?|?]; [done|done].
Qed.

Lemma eligible_spec img :
  eligible Config img ↔
  isLocalhost (image.RepoTags img) = true ∧
  keepBlueprint (blueprintOf img) (config.KeepBlueprints Config) = false.
Proof.
  unfold eligible. rewrite isLocalhost_spec.
  destruct (keepBlueprint _ _) eqn:Hk.
  - apply keepBlueprint_spec in Hk. split; [tauto|]. intros [_ ?]. done.
  - split; [tauto|]. intros [? _]. split; [done|].
    intros Hin%keepBlueprint_spec. congruence.
Qed.

(** The containers pass: removals in the order of the list, forced, up to
    the first failure. *)
Lemma removeContainers_loop_pass cs (w : W) :
  trc (removeContainers_loop cs w) =
    map (λ a, EvContainerRemove a.1.1 a.1.2 a.2)
        (containerRemoves (trc (removeContainers_loop cs w))) ∧
  pass (map (λ c, (container.ID c, true)) cs)
       (containerRemoves (trc (removeContainers_loop cs w)))
       (val (removeContainers_loop cs w)).
Proof.
  revert w. induction cs as [|c cs IH]; intros w.
  - split; [done|constructor].
  - cbn [removeContainers_loop]. rewrite trc_bind, val_bind.
    unfold docker_ContainerRemove, call. cbn [val wld trc].
    destruct (rtContainerRemove (container.ID c) true w) as [[e|] w'] eqn:Hop; cbn [fst snd].
    + split; [done|]. simpl. constructor.
    + destruct (IH w') as [IH1 IH2]. split.
      * simpl. f_equal. exact IH1.
      * simpl. by constructor.
Qed.

Lemma removeNetworks_loop_pass nws (w : W) :
  trc (removeNetworks_loop nws w) =
    map (λ a, EvNetworkRemove a.1 a.2)
        (networkRemoves (trc (removeNetworks_loop nws w))) ∧
  pass (map network.ID nws)
       (networkRemoves (trc (removeNetworks_loop nws w)))
       (val (removeNetworks_loop nws w)).
Proof.
  revert w. induction nws as [|nw nws IH]; intros w.
  - split; [done|constructor].
  - cbn [removeNetworks_loop]. rewrite trc_bind, val_bind.
    unfold docker_NetworkRemove, call. cbn [val wld trc].
    destruct (rtNetworkRemove (network.ID nw) w) as [[e|] w'] eqn:Hop; cbn [fst snd].
    + split; [done|]. simpl. constructor.
    + destruct (IH w') as [IH1 IH2]. split.
      * simpl. f_equal. exact IH1.
      * simpl. by constructor.
Qed.

(** The images pass: only the eligible images are removed, in the order of
    the list, forced, up to the first failure. *)
Lemma removeImages_loop_pass imgs (w : W) :
  only [KImageRemove; KPrintf] (trc (removeImages_loop Config imgs w)) ∧
  cleanupLogs (trc (removeImages_loop Config imgs w)) = [] ∧
  pass (map (λ i, (image.ID i, true)) (filter (eligible Config) imgs))
       (imageRemoves (trc (removeImages_loop Config imgs w)))
       (val (removeImages_loop Config imgs w)).
Proof.
  revert w. induction imgs as [|img imgs IH]; intros w.
  - split_and!; [constructor|done|constructor].
  - cbn [removeImages_loop].
    destruct (isLocalhost (image.RepoTags img)) eqn:Hloc; cbn [negb].
    2:{ rewrite trc_bind, val_bind, wld_log, log_out. simpl trc.
        rewrite filter_cons_False.
        2:{ rewrite eligible_spec. intros [? _]. congruence. }
        destruct (IH w) as (IH1 & IH3 & IH2). split_and!.
        - apply only_app; [|done].
          destruct (config.DebugLoggingEnabled Config); [|constructor].
          by apply only_cons; [|constructor].
        - unfold cleanupLogs in *. rewrite omap_app, IH3.
          by destruct (config.DebugLoggingEnabled Config).
        - unfold imageRemoves in *. rewrite omap_app.
          by destruct (config.DebugLoggingEnabled Config). }
    fold (blueprintOf img).
    destruct (keepBlueprint (blueprintOf img) (config.KeepBlueprints Config)) eqn:Hk.
    { rewrite trc_bind, val_bind, wld_log, log_out. simpl trc.
      rewrite filter_cons_False.
      2:{ rewrite eligible_spec. intros [_ ?]. congruence. }
      destruct (IH w) as (IH1 & IH3 & IH2). split_and!.
      - apply only_app; [|done].
        destruct (config.DebugLoggingEnabled Config); [|constructor].
        by apply only_cons; [|constructor].
      - unfold cleanupLogs in *. rewrite omap_app, IH3.
        by destruct (config.DebugLoggingEnabled Config).
      - unfold imageRemoves in *. rewrite omap_app.
        by destruct (config.DebugLoggingEnabled Config). }
    rewrite filter_cons_True by (by apply eligible_spec).
    rewrite trc_bind, val_bind.
    unfold docker_ImageRemove, call. cbn [val wld trc].
    destruct (rtImageRemove (image.ID img) true w) as [[e|] w'] eqn:Hop; cbn [fst snd].
    + split_and!; [by apply only_cons; [|constructor]|done|]. simpl. constructor.
    + destruct (IH w') as (IH1 & IH3 & IH2). split_and!.
      * by apply only_cons.
      * exact IH3.
      * simpl. by constructor.
Qed.

Lemma only_removeContainers_loop cs (w : W) :
  only [KContainerRemove] (trc (removeContainers_loop cs w)).
Proof.
  destruct (removeContainers_loop_pass cs w) as [-> _].
  unfold only. apply Forall_forall. intros e [a [-> _]]%list_elem_of_fmap. done.
Qed.

Lemma only_removeNetworks_loop nws (w : W) :
  only [KNetworkRemove] (trc (removeNetworks_loop nws w)).
Proof.
  destruct (removeNetworks_loop_pass nws w) as [-> _].
  unfold only. apply Forall_forall. intros e [a [-> _]]%list_elem_of_fmap. done.
Qed.

(** Each pass: its list call, then its removals. *)
Lemma removeContainers_pass (w : W) :
  ∃ r ec t,
    trc (removeContainers Config w) =
      EvContainerList true (namespaceFilter Config) r :: t ∧
    only [KContainerRemove] t ∧
    pass (map (λ c, (container.ID c, true)) (listedOr r)) (containerRemoves t) ec ∧
    val (removeContainers Config w) = passError r ec.
Proof.
  unfold removeContainers. rewrite trc_bind, val_bind.
  unfold docker_ContainerList, call. cbn [val wld trc].
  destruct (rtContainerList true _ w) as [[cs|e] w'] eqn:Hop; cbn [fst snd].
  - exists (Ok cs), (val (removeContainers_loop cs w')), (trc (removeContainers_loop cs w')).
    split_and!; [done|apply only_removeContainers_loop| |done].
    apply removeContainers_loop_pass.
  - exists (Err e), None, []. split_and!; [done|constructor|constructor|done].
Qed.

Lemma removeNetworks_pass (w : W) :
  ∃ r en t,
    trc (removeNetworks Config w) =
      EvNetworkList (namespaceFilter Config) r :: t ∧
    only [KNetworkRemove] t ∧
    pass (map network.ID (listedOr r)) (networkRemoves t) en ∧
    val (removeNetworks Config w) = passError r en.
Proof.
  unfold removeNetworks. rewrite trc_bind, val_bind.
  unfold docker_NetworkList, call. cbn [val wld trc].
  destruct (rtNetworkList _ w) as [[nws|e] w'] eqn:Hop; cbn [fst snd].
  - exists (Ok nws), (val (removeNetworks_loop nws w')), (trc (removeNetworks_loop nws w')).
    split_and!; [done|apply only_removeNetworks_loop| |done].
    apply removeNetworks_loop_pass.
  - exists (Err e), None, []. split_and!; [done|constructor|constructor|done].
Qed.

Lemma removeImages_pass (w : W) :
  ∃ r ei t,
    trc (removeImages Config w) =
      EvImageList (namespaceFilter Config) r :: t ∧
    only [KImageRemove; KPrintf] t ∧ cleanupLogs t = [] ∧
    pass (map (λ i, (image.ID i, true)) (filter (eligible Config) (listedOr r)))
         (imageRemoves t) ei ∧
    val (removeImages Config w) = passError r ei.
Proof.
  unfold removeImages. rewrite trc_bind, val_bind.
  unfold docker_ImageList, call. cbn [val wld trc].
  destruct (rtImageList _ w) as [[imgs|e] w'] eqn:Hop; cbn [fst snd].
  - exists (Ok imgs), (val (removeImages_loop Config imgs w')),
      (trc (removeImages_loop Config imgs w')).
    destruct (removeImages_loop_pass imgs w') as (? & ? & ?). by split_and!.
  - exists (Err e), None, []. split_and!; [done|constructor|done|constructor|done].
Qed.
End CleanupFacts.

Section CleanupTheorems.
Context {W : Type} {rt : Runtime W}.
Variable Config : config.Complement.

Lemma trc_log_error format (e : option error) (w : W) :
  trc (match e with
       | Some e => log Config format [AErr e]
       | None => ret tt
       end w) = loggedEvents Config format e ∧
  wld (match e with
       | Some e => log Config format [AErr e]
       | None => ret tt
       end w) = w.
Proof.
  destruct e as [e|]; [|done]. rewrite log_out. unfold loggedEvents, logged.
  by destruct (config.DebugLoggingEnabled Config).
Qed.

(** The trace of [Cleanup]: three passes, each followed by the line logged
    for its error. *)
Lemma Cleanup_trace (w : W) :
  ∃ rc ec tc ri ei ti rn en tn,
    trc (Cleanup Config w) =
      (EvContainerList true (namespaceFilter Config) rc :: tc) ++
      loggedEvents Config "Cleanup: Failed to remove containers: %s" (passError rc ec) ++
      (EvImageList (namespaceFilter Config) ri :: ti) ++
      loggedEvents Config "Cleanup: Failed to remove images: %s" (passError ri ei) ++
      (EvNetworkList (namespaceFilter Config) rn :: tn) ++
      loggedEvents Config "Cleanup: Failed to remove networks: %s" (passError rn en) ∧
    only [KContainerRemove] tc ∧
    pass (map (λ c, (container.ID c, true)) (listedOr rc)) (containerRemoves tc) ec ∧
    only [KImageRemove; KPrintf] ti ∧ cleanupLogs ti = [] ∧
    pass (map (λ i, (image.ID i, true)) (filter (eligible Config) (listedOr ri)))
         (imageRemoves ti) ei ∧
    only [KNetworkRemove] tn ∧
    pass (map network.ID (listedOr rn)) (networkRemoves tn) en.
Proof.
  unfold Cleanup. rewrite !trc_bind.
  destruct (removeContainers_pass Config w) as (rc & ec & tc & Htc & Hoc & Hpc & Hvc).
  rewrite Htc, Hvc.
  destruct (trc_log_error "Cleanup: Failed to remove containers: %s"
              (passError rc ec) (wld (removeContainers Config w))) as [-> ->].
  set (w1 := wld (removeContainers Config w)).
  destruct (removeImages_pass Config w1) as (ri & ei & ti & Hti & Hoi & Hli & Hpi & Hvi).
  rewrite Hti, Hvi.
  destruct (trc_log_error "Cleanup: Failed to remove images: %s"
              (passError ri ei) (wld (removeImages Config w1))) as [-> ->].
  set (w2 := wld (removeImages Config w1)).
  destruct (removeNetworks_pass Config w2) as (rn & en & tn & Htn & Hon & Hpn & Hvn).
  rewrite Htn, Hvn.
  destruct (trc_log_error "Cleanup: Failed to remove networks: %s"
              (passError rn en) (wld (removeNetworks Config w2))) as [-> _].
  exists rc, ec, tc, ri, ei, ti, rn, en, tn. by split_and!.
Qed.

(** C8, as the code has it: [Cleanup] makes its three passes, containers,
    then images, then networks, whatever the outcome of the others: the
    three list calls are always made.  Within a pass the removals follow the
    order of the list and stop at the first one that fails, so that the
    resources listed after it are not attempted.  No error is returned; the
    error of each pass is handed to the builder's logger, which prints it
    when debug logging is enabled. *)
Theorem Cleanup_passes (w : W) :
  let t := trc (Cleanup Config w) in
  ∃ rc ri rn ec ei en,
    events [KContainerList; KImageList; KNetworkList] t =
      [EvContainerList true (namespaceFilter Config) rc;
       EvImageList (namespaceFilter Config) ri;
       EvNetworkList (namespaceFilter Config) rn] ∧
    pass (map (λ c, (container.ID c, true)) (listedOr rc)) (containerRemoves t) ec ∧
    pass (map (λ i, (image.ID i, true)) (filter (eligible Config) (listedOr ri)))
         (imageRemoves t) ei ∧
    pass (map network.ID (listedOr rn)) (networkRemoves t) en ∧
    cleanupLogs t =
      logged Config "Cleanup: Failed to remove containers: %s" (passError rc ec) ++
      logged Config "Cleanup: Failed to remove images: %s" (passError ri ei) ++
      logged Config "Cleanup: Failed to remove networks: %s" (passError rn en).
Proof.
  intros t. subst t.
  destruct (Cleanup_trace w)
    as (rc & ec & tc & ri & ei & ti & rn & en & tn & -> &
        Hoc & Hpc & Hoi & Hli & Hpi & Hon & Hpn).
  exists rc, ri, rn, ec, ei, en.
  assert (Hlog : ∀ f e, only [KPrintf] (loggedEvents Config f e))
    by (intros; apply only_loggedEvents, list_elem_of_here).
  split_and!.
  - rewrite !events_app, !events_cons_in by reflexivity.
    rewrite !(events_only [KPrintf] _ (loggedEvents _ _ _)) by (try apply Hlog; reflexivity).
    rewrite (events_only [KContainerRemove] _ tc) by done.
    rewrite (events_only [KImageRemove; KPrintf] _ ti) by done.
    rewrite (events_only [KNetworkRemove] _ tn) by done.
    reflexivity.
  - unfold containerRemoves in *. rewrite !omap_app. cbn [omap list_omap].
    rewrite !(omap_only _ [KPrintf] (loggedEvents _ _ _)) by (try apply Hlog; by_kind).
    rewrite (omap_only _ [KImageRemove; KPrintf] ti) by (try done; by_kind).
    rewrite (omap_only _ [KNetworkRemove] tn) by (try done; by_kind).
    by rewrite ?app_nil_r.
  - unfold imageRemoves in *. rewrite !omap_app. cbn [omap list_omap].
    rewrite !(omap_only _ [KPrintf] (loggedEvents _ _ _)) by (try apply Hlog; by_kind).
    rewrite (omap_only _ [KContainerRemove] tc) by (try done; by_kind).
    rewrite (omap_only _ [KNetworkRemove] tn) by (try done; by_kind).
    by rewrite ?app_nil_r.
  - unfold networkRemoves in *. rewrite !omap_app. cbn [omap list_omap].
    rewrite !(omap_only _ [KPrintf] (loggedEvents _ _ _)) by (try apply Hlog; by_kind).
    rewrite (omap_only _ [KContainerRemove] tc) by (try done; by_kind).
    rewrite (omap_only _ [KImageRemove; KPrintf] ti) by (try done; by_kind).
    by rewrite ?app_nil_r.
  - assert (Hl : ∀ f e, String.prefix "Cleanup: " f = true →
      cleanupLogs (loggedEvents Config f e) = logged Config f e).
    { intros f e Hf. unfold cleanupLogs, loggedEvents, logged.
      destruct e as [e|]; [|done].
      destruct (config.DebugLoggingEnabled Config); [|done].
      simpl. by rewrite Hf. }
    unfold cleanupLogs in *. rewrite !omap_app. cbn [omap list_omap].
    rewrite !Hl by reflexivity. rewrite Hli.
    rewrite (omap_only _ [KContainerRemove] tc) by (try done; by_kind).
    rewrite (omap_only _ [KNetworkRemove] tn) by (try done; by_kind).
    by rewrite ?app_nil_r.
Qed.

Lemma NoDup_map_inj {A B} (f : A → B) (l : list A) x y :
  NoDup (map f l) → x ∈ l → y ∈ l → f x = f y → x = y.
Proof.
  induction l as [|a l IH]; simpl; [by intros _ ?%not_elem_of_nil|].
  intros Hnd Hx Hy Hf. apply NoDup_cons in Hnd as [Ha Hnd].
  apply elem_of_cons in Hx as [->|Hx]; apply elem_of_cons in Hy as [->|Hy].
  - done.
  - destruct Ha. rewrite Hf. by apply (list_elem_of_fmap_2 f).
  - destruct Ha. rewrite <- Hf. by apply (list_elem_of_fmap_2 f).
  - by apply IH.
Qed.

(** C3: an image that [Cleanup] removes is one of the images that its list
    call enumerated, all of whose tags begin with [localhost/complement] and
    whose blueprint is not in [KeepBlueprints]; the removal is forced.  With
    distinct identifiers in the enumeration, every enumerated image of that
    identifier is such an image: one with a foreign tag, or of a kept
    blueprint, is not removed. *)
Theorem Cleanup_removes_only_eligible (w : W) id force r :
  EvImageRemove id force r ∈ trc (Cleanup Config w) →
  ∃ images,
    events [KImageList] (trc (Cleanup Config w)) =
      [EvImageList (namespaceFilter Config) (Ok images)] ∧
    force = true ∧
    (∃ img, img ∈ images ∧ image.ID img = id ∧
       Forall localTag (image.RepoTags img) ∧
       blueprintOf img ∉ config.KeepBlueprints Config) ∧
    (NoDup (map image.ID images) →
     ∀ img, img ∈ images → image.ID img = id →
       Forall localTag (image.RepoTags img) ∧
       blueprintOf img ∉ config.KeepBlueprints Config).
Proof.
  intros Hin.
  destruct (Cleanup_trace w)
    as (rc & ec & tc & ri & ei & ti & rn & en & tn & Ht &
        Hoc & Hpc & Hoi & Hli & Hpi & Hon & Hpn).
  assert (Hlog : ∀ f e, only [KPrintf] (loggedEvents Config f e))
    by (intros; apply only_loggedEvents, list_elem_of_here).
  assert (Hev : events [KImageList] (trc (Cleanup Config w)) =
                [EvImageList (namespaceFilter Config) ri]).
  { rewrite Ht, !events_app.
    rewrite events_cons_out, (events_cons_in _ (EvImageList _ _)),
      events_cons_out by reflexivity.
    rewrite !(events_only [KPrintf] _ (loggedEvents _ _ _)) by (try apply Hlog; reflexivity).
    rewrite (events_only [KContainerRemove] _ tc) by done.
    rewrite (events_only [KImageRemove; KPrintf] _ ti) by done.
    rewrite (events_only [KNetworkRemove] _ tn) by done.
    reflexivity. }
  assert (Hti : (id, force, r) ∈ imageRemoves ti).
  { rewrite Ht in Hin. apply list_elem_of_omap. exists (EvImageRemove id force r).
    split; [|done].
    repeat (apply elem_of_app in Hin as [Hin|Hin] || apply elem_of_cons in Hin as [Hin|Hin]);
      try discriminate Hin; try done;
      exfalso; revert Hin;
      (eapply not_in_only; [first [apply Hlog|eassumption]|reflexivity]). }
  apply pass_keys in Hpi. destruct Hpi as [k Hk].
  assert (Hkey : (id, force) ∈ map (λ i, (image.ID i, true))
                   (filter (eligible Config) (listedOr ri))).
  { rewrite Hk. apply elem_of_app. left.
    by apply (list_elem_of_fmap_2 fst) in Hti. }
  apply list_elem_of_fmap in Hkey as (img & [= -> ->] & Himg).
  apply list_elem_of_filter in Himg as [[Hloc Hkeep] Himg].
  destruct ri as [images|e]; [|by apply not_elem_of_nil in Himg].
  exists images. split_and!; [done|done|by exists img|].
  intros Hnd img' Himg' Hid.
  by rewrite (NoDup_map_inj image.ID images img' img Hnd Himg' Himg Hid).
Qed.
End CleanupTheorems.

(** C3 on the simulated runtime: of a local image, an image with a pulled
    tag and an image of a kept blueprint, only the first is removed. *)
Example Cleanup_three_images :
  imageRemoves (trc (Cleanup cfgDebug threeImages)) = [("sha256:1", true, None)].
Proof. vm_compute. reflexivity. Qed.

Lemma Cleanup_removes_only_eligible_witness :
  ∃ images,
    events [KImageList] (trc (Cleanup cfgDebug threeImages)) =
      [EvImageList (namespaceFilter cfgDebug) (Ok images)] ∧
    true = true ∧
    (∃ img, img ∈ images ∧ image.ID img = "sha256:1" ∧
       Forall localTag (image.RepoTags img) ∧
       blueprintOf img ∉ config.KeepBlueprints cfgDebug) ∧
    (NoDup (map image.ID images) →
     ∀ img, img ∈ images → image.ID img = "sha256:1" →
       Forall localTag (image.RepoTags img) ∧
       blueprintOf img ∉ config.KeepBlueprints cfgDebug).
Proof.
  apply (Cleanup_removes_only_eligible cfgDebug threeImages "sha256:1" true None).
  apply list_elem_of_In. vm_compute.
  repeat (first [left; reflexivity | right]).
Defined.

(** C8, counterexample: two containers are listed and the removal of the
    first one fails; the second one is then not attempted, although the
    claim has every removal made independently of the others.  With debug
    logging off, the failure is not logged either. *)
Lemma Cleanup_stops_pass_at_first_failure :
  events [KContainerList] (trc (Cleanup cfgDebug twoContainers)) =
    [EvContainerList true (namespaceFilter cfgDebug)
       (Ok [container.mkSummary "c1" []; container.mkSummary "c2" []])] ∧
  containerRemoves (trc (Cleanup cfgDebug twoContainers)) =
    [("c1", true, Some (RuntimeError "cannot remove container"))] ∧
  Forall (λ a, a.1.1 ≠ "c2") (containerRemoves (trc (Cleanup cfgDebug twoContainers))) ∧
  containerRemoves (trc (Cleanup cfgQuiet twoContainers)) =
    [("c1", true, Some (RuntimeError "cannot remove container"))] ∧
  printed (trc (Cleanup cfgQuiet twoContainers)) = [].
Proof.
  split_and!; try (vm_compute; reflexivity).
  vm_compute. repeat constructor. discriminate.
Qed.

(** ** Construction: the kinds of calls of each function *)

Ltac in_list := repeat first [apply list_elem_of_here | apply list_elem_of_further].

(** Closes [ks ⊆ ks'] on lists of kinds. *)
Ltac sub_kinds :=
  let k := fresh "k" in let Hk := fresh "Hk" in
  intros k Hk; unfold bodyKinds;
  repeat (apply elem_of_cons in Hk as [->|Hk]; [in_list|]);
  by apply not_elem_of_nil in Hk.

Ltac only_step :=
  lazymatch goal with
  | |- only _ (trc (bind _ _ _)) => rewrite trc_bind; apply only_app
  | |- only _ (trc (log _ _ _ _)) => apply only_log; in_list
  | |- only _ (trc (log_Printf _ _ _)) => apply only_cons; [reflexivity|apply only_nil]
  | |- only _ (trc (ret _ _)) => apply only_nil
  | |- only _ (trc (call _ _ _)) => apply only_cons; [reflexivity|apply only_nil]
  | |- only _ (trc (emit _ _)) => apply only_cons; [reflexivity|apply only_nil]
  | |- only _ (trc (match ?x with _ => _ end _)) => destruct x
  end.

Ltac only_tac := cbv beta; repeat (only_step; cbv beta).

Section ConstructKinds.
Context {W : Type} {rt : Runtime W}.
Variable Config : config.Complement.
Variable labelsForApplicationServices : b.Homeserver → gmap string string.
Variable asIDToRegistrationFromLabels : gmap string string → gmap string string.

Lemma only_createNetworkIfNotExists pkg name (w : W) :
  only [KNetworkList; KNetworkCreate; KPrintf]
    (trc (createNetworkIfNotExists pkg name w)).
Proof.
  unfold createNetworkIfNotExists, docker_NetworkList, docker_NetworkCreate.
  only_tac.
Qed.

Lemma only_constructHomeserver name hs nw (w : W) :
  only [KDeployImage; KRunnerRun; KPrintf]
    (trc (constructHomeserver Config labelsForApplicationServices
            asIDToRegistrationFromLabels name hs nw w)).
Proof.
  unfold constructHomeserver, deployBaseImage, deployImage, runner_Run.
  only_tac.
Qed.

Lemma only_printLogs cid ctx (w : W) :
  only [KContainerLogs; KStdCopy; KPrintf] (trc (printLogs cid ctx w)).
Proof. unfold printLogs, docker_ContainerLogs. only_tac. Qed.

Lemma only_deferredKill r (w : W) :
  only [KContainerInspect; KContainerKill; KPrintf] (trc (deferredKill Config r w)).
Proof.
  unfold deferredKill, docker_ContainerInspect, docker_ContainerKill. only_tac.
Qed.

Lemma only_runDeferred rs (w : W) :
  only [KContainerInspect; KContainerKill; KPrintf] (trc (runDeferred Config rs w)).
Proof.
  revert w. induction rs as [|r rs IH]; intros w; [constructor|].
  cbn [runDeferred]. rewrite trc_bind.
  apply only_app; [apply only_deferredKill|apply IH].
Qed.

Lemma only_constructAll name nw hss (w : W) :
  only [KDeployImage; KRunnerRun; KPrintf]
    (trc (constructAll Config labelsForApplicationServices
            asIDToRegistrationFromLabels name nw hss w)).
Proof.
  revert w. induction hss as [|hs hss IH]; intros w; [constructor|].
  cbn [constructAll]. rewrite !trc_bind.
  apply only_app; [apply only_constructHomeserver|].
  apply only_app; [apply IH|constructor].
Qed.

Lemma only_construct_commit bprint rs errs0 (w : W) :
  only [KAccessTokens; KDeviceIDs; KContainerStop; KContainerCommit; KPrintf]
    (trc (construct_commit Config labelsForApplicationServices bprint rs errs0 w)).
Proof.
  revert errs0 w. induction rs as [|r rs IH]; intros errs0 w; [constructor|].
  cbn [construct_commit]. destruct (err r); [apply IH|].
  unfold runner_AccessTokens, runner_DeviceIDs, docker_ContainerStop,
    docker_ContainerCommit.
  rewrite !trc_bind.
  repeat (apply only_app; [first [apply only_log; in_list
                                  |by apply only_cons; [|constructor]]|]).
  cbv beta. match goal with |- only _ (trc (match ?x with _ => _ end _)) => destruct x end.
  - rewrite trc_bind. apply only_app; [apply only_log; in_list|apply IH].
  - rewrite trc_bind. apply only_app; [apply only_log; in_list|apply IH].
Qed.
End ConstructKinds.

(** ** Construction: the loops *)

Section ConstructLoops.
Context {W : Type} {rt : Runtime W}.
Variable Config : config.Complement.
Variable labelsForApplicationServices : b.Homeserver → gmap string string.
Variable asIDToRegistrationFromLabels : gmap string string → gmap string string.

Local Abbreviation constructHS :=
  (constructHomeserver Config labelsForApplicationServices asIDToRegistrationFromLabels).
Local Abbreviation constructAll' :=
  (constructAll Config labelsForApplicationServices asIDToRegistrationFromLabels).
Local Abbreviation construct_homeservers' :=
  (construct_homeservers Config labelsForApplicationServices asIDToRegistrationFromLabels).

Lemma trc_log format args (w : W) :
  trc (log Config format args w) = logEvents Config format args.
Proof. by rewrite log_out. Qed.

Lemma fill_spec rs : ∀ i results,
  (i + length rs ≤ length results)%nat →
  fill i rs results = take i results ++ rs ++ drop (i + length rs) results.
Proof.
  induction rs as [|r rs IH]; intros i results Hlen; simpl in *.
  - rewrite Nat.add_0_r. by rewrite take_drop.
  - rewrite IH by (rewrite length_insert; lia).
    rewrite (take_S_r _ i r) by (apply list_lookup_insert_eq; lia).
    rewrite take_insert_ge by lia. rewrite <- app_assoc. simpl.
    rewrite drop_insert_lt by lia.
    by replace (S (i + length rs))%nat with (i + S (length rs))%nat by lia.
Qed.

Lemma fill_all rs z : fill 0 rs (replicate (length rs) z) = rs.
Proof.
  rewrite fill_spec by (rewrite length_replicate; lia).
  rewrite take_0, drop_ge by (rewrite length_replicate; lia).
  by rewrite app_nil_r.
Qed.

Lemma length_constructAll name nw hss (w : W) :
  length (val (constructAll' name nw hss w)) = length hss.
Proof.
  revert w. induction hss as [|hs hss IH]; intros w; [done|].
  cbn [constructAll]. rewrite !val_bind. simpl. by rewrite IH.
Qed.

Lemma constructAll_cons name nw hs hss (w : W) :
  val (constructAll' name nw (hs :: hss) w) =
    val (constructHS name hs nw w) ::
    val (constructAll' name nw hss (wld (constructHS name hs nw w))) ∧
  wld (constructAll' name nw (hs :: hss) w) =
    wld (constructAll' name nw hss (wld (constructHS name hs nw w))) ∧
  trc (constructAll' name nw (hs :: hss) w) =
    trc (constructHS name hs nw w) ++
    trc (constructAll' name nw hss (wld (constructHS name hs nw w))).
Proof.
  cbn [constructAll]. rewrite !val_bind, !wld_bind, !trc_bind. simpl.
  by rewrite app_nil_r.
Qed.

(** The first loop when every homeserver is constructed without error. *)
Lemma construct_homeservers_completed name nw hss : ∀ i fr (w : W),
  Forall succeeded (val (constructAll' name nw hss w)) →
  let rs := val (constructAll' name nw hss w) in
  let o := construct_homeservers' name nw i hss fr w in
  val o = (Completed, {| errs := errs fr; results := fill i rs (results fr);
                         deferred := rev rs ++ deferred fr |}) ∧
  wld o = wld (constructAll' name nw hss w) ∧
  trc o = trc (constructAll' name nw hss w).
Proof.
  induction hss as [|hs hss IH]; intros i fr w Hok; cbv zeta.
  - by destruct fr.
  - destruct (constructAll_cons name nw hs hss w) as (Hv & Hw & Ht).
    rewrite Hv in Hok |- *. rewrite Hw, Ht. clear Hv Hw Ht.
    apply Forall_cons in Hok as [Hhs Hok]. unfold succeeded in Hhs.
    cbn [construct_homeservers]. rewrite val_bind, wld_bind, trc_bind.
    rewrite Hhs.
    edestruct (IH (S i)) as (Hv & Hw & Ht); [exact Hok|].
    rewrite Hv, Hw, Ht. cbn [errs results deferred fill rev].
    by rewrite <- app_assoc.
Qed.

(** The first loop when a homeserver fails after [pre] were constructed:
    the loop returns, after the logs of the failed container, if it has an
    identifier, and its forced removal. *)
Lemma construct_homeservers_returned name nw pre hs post : ∀ i fr (w : W),
  Forall succeeded (val (constructAll' name nw pre w)) →
  let rs := val (constructAll' name nw pre w) in
  let wk := wld (constructAll' name nw pre w) in
  let res := val (constructHS name hs nw wk) in
  ∀ e, err res = Some e →
  let o := construct_homeservers' name nw i (pre ++ hs :: post) fr w in
  ∃ tlogs delErr,
    val o = (Returned, {| errs := errs fr ++ [e]; results := fill i rs (results fr);
                          deferred := rev rs ++ deferred fr |}) ∧
    trc o = trc (constructAll' name nw pre w) ++ trc (constructHS name hs nw wk) ++
            tlogs ++ [EvContainerRemove (containerID res) true delErr] ++
            match delErr with
            | Some delErr =>
                logEvents Config "%s: failed to remove container which failed to deploy: %s"
                  [AStr (contextStr res); AErr delErr]
            | None => []
            end ∧
    tlogs = (if decide (containerID res ≠ "")
             then trc (printLogs (containerID res) (contextStr res)
                         (wld (constructHS name hs nw wk)))
             else []).
Proof.
  induction pre as [|p pre IH]; intros i fr w Hok; cbv zeta.
  - cbn [constructAll ret val wld trc app]. intros e He.
    cbn [construct_homeservers]. rewrite val_bind, trc_bind.
    rewrite He. rewrite !val_bind, !trc_bind, ?wld_bind.
    unfold docker_ContainerRemove, call. cbn [val wld trc].
    set (res := val (constructHS name hs nw w)) in *.
    set (w1 := wld (constructHS name hs nw w)).
    set (lg := if decide (containerID res ≠ "") then _ else _).
    destruct (rtContainerRemove (containerID res) true (wld (lg w1)))
      as [delErr w2] eqn:Hop; cbn [fst snd].
    exists (trc (lg w1)), delErr. split_and!.
    + reflexivity.
    + cbn [ret trc]. rewrite app_nil_r. do 3 f_equal.
      destruct delErr; [by rewrite trc_log|done].
    + subst lg. by destruct (decide (containerID res ≠ "")).
  - destruct (constructAll_cons name nw p pre w) as (Hv & Hw & Ht).
    rewrite Hv in Hok |- *. rewrite Hw, Ht. clear Hv Hw Ht.
    apply Forall_cons in Hok as [Hp Hok]. unfold succeeded in Hp.
    intros e He. rewrite <- app_comm_cons.
    cbn [construct_homeservers]. rewrite val_bind, trc_bind. rewrite Hp.
    edestruct (IH (S i)) as (tlogs & delErr & Hv & Ht & Hl); [exact Hok|exact He|].
    exists tlogs, delErr. rewrite Hv, Ht. cbn [errs results deferred fill rev].
    split_and!; [by rewrite <- app_assoc|by rewrite <- !app_assoc|done].
Qed.
End ConstructLoops.

(** ** Construction: the body of [construct] *)

Section ConstructMain.
Context {W : Type} {rt : Runtime W}.
Variable Config : config.Complement.
Variable labelsForApplicationServices : b.Homeserver → gmap string string.
Variable asIDToRegistrationFromLabels : gmap string string → gmap string string.

Local Abbreviation constructHS :=
  (constructHomeserver Config labelsForApplicationServices asIDToRegistrationFromLabels).
Local Abbreviation constructAll' :=
  (constructAll Config labelsForApplicationServices asIDToRegistrationFromLabels).
Local Abbreviation construct_homeservers' :=
  (construct_homeservers Config labelsForApplicationServices asIDToRegistrationFromLabels).
Local Abbreviation construct_main' :=
  (construct_main Config labelsForApplicationServices asIDToRegistrationFromLabels).
Local Abbreviation construct' :=
  (construct Config labelsForApplicationServices asIDToRegistrationFromLabels).
Local Abbreviation construct_commit' :=
  (construct_commit Config labelsForApplicationServices).
Local Abbreviation network bprint :=
  (createNetworkIfNotExists (config.PackageNamespace Config) (b.bp_Name bprint)).

(** [construct] when the network cannot be provided. *)
Lemma construct_main_no_network bprint (w : W) e :
  val (network bprint w) = Err e →
  val (construct_main' bprint w) = {| errs := [e]; results := []; deferred := [] |} ∧
  trc (construct_main' bprint w) =
    logEvents Config "Constructing blueprint '%s'" [AStr (b.bp_Name bprint)] ++
    trc (network bprint w).
Proof.
  intros Hnet. unfold construct_main.
  rewrite !val_bind, !trc_bind, !wld_log, Hnet, trc_log.
  cbn [ret val trc]. by rewrite app_nil_r.
Qed.

(** [construct] once the network is there: the first loop, then, if it
    completed, the commits. *)
Lemma construct_main_with_network bprint (w : W) networkName :
  val (network bprint w) = Ok networkName →
  let o := construct_homeservers' (b.bp_Name bprint) networkName 0
             (b.Homeservers bprint) (frame0 bprint) (afterNetwork Config bprint w) in
  let c := construct_commit' bprint (results (val o).2) (errs (val o).2) (wld o) in
  val (construct_main' bprint w) =
    match (val o).1 with
    | Returned => (val o).2
    | Completed => {| errs := val c; results := results (val o).2;
                      deferred := deferred (val o).2 |}
    end ∧
  wld (construct_main' bprint w) =
    match (val o).1 with Returned => wld o | Completed => wld c end ∧
  trc (construct_main' bprint w) =
    logEvents Config "Constructing blueprint '%s'" [AStr (b.bp_Name bprint)] ++
    trc (network bprint w) ++
    [EvNewRunner (b.bp_Name bprint) (config.BestEffort Config)
       (config.DebugLoggingEnabled Config)] ++
    trc o ++
    match (val o).1 with Returned => [] | Completed => trc c end.
Proof.
  intros Hnet. cbv zeta. unfold afterNetwork, construct_main.
  rewrite !val_bind, !wld_bind, !trc_bind, !wld_log, Hnet, trc_log.
  rewrite !val_bind, !wld_bind, !trc_bind.
  change (wld (instruction_NewRunner ?n ?x ?d ?w0)) with (rtNewRunner n x d w0).
  change (trc (instruction_NewRunner ?n ?x ?d ?w0)) with [EvNewRunner n x d].
  fold (frame0 bprint).
  set (o := construct_homeservers' _ _ _ _ _ _).
  destruct ((val o).1).
  - cbn [ret val wld trc]. by rewrite app_nil_r.
  - rewrite !val_bind, !wld_bind, !trc_bind.
    cbn [ret val wld trc]. by rewrite app_nil_r.
Qed.

Lemma deployed_constructHomeserver name hs nw (w : W) :
  deployedHomeservers (trc (constructHS name hs nw w)) = [b.Name hs].
Proof.
  unfold constructHomeserver, deployBaseImage, deployImage.
  rewrite !trc_bind, trc_log. unfold deployedHomeservers. rewrite !omap_app.
  rewrite (omap_only _ [KPrintf] (logEvents _ _ _)).
  2:{ unfold logEvents. destruct (config.DebugLoggingEnabled Config);
        [by apply only_cons; [|constructor]|constructor]. }
  2:{ by_kind. }
  rewrite trc_call. cbn [omap list_omap da_hsName app].
  f_equal. apply (omap_only _ [KRunnerRun; KPrintf]); [|by_kind].
  unfold runner_Run. only_tac.
Qed.

Lemma deployed_constructAll name nw hss (w : W) :
  deployedHomeservers (trc (constructAll' name nw hss w)) = map b.Name hss.
Proof.
  revert w. induction hss as [|hs hss IH]; intros w; [done|].
  destruct (constructAll_cons Config labelsForApplicationServices
              asIDToRegistrationFromLabels name nw hs hss w) as (_ & _ & ->).
  pose proof (deployed_constructHomeserver name hs nw w) as Hhs.
  unfold deployedHomeservers in *. by rewrite omap_app, IH, Hhs.
Qed.

Lemma logs_printLogs cid ctx (w : W) :
  events [KContainerLogs; KStdCopy] (trc (printLogs cid ctx w)) =
    EvContainerLogs cid (val (docker_ContainerLogs cid w)) ::
    match val (docker_ContainerLogs cid w) with
    | Ok content => [EvStdCopy content]
    | Err _ => []
    end.
Proof.
  unfold printLogs, docker_ContainerLogs, call, bind, log_Printf, emit.
  cbn [val wld trc].
  by destruct (rtContainerLogs cid w) as [[c|e] w'].
Qed.

(** C1: when a homeserver fails to be constructed, after those before it
    were constructed without error, [construct] returns that one error;
    [deployImage] was called for the homeservers up to the failed one and
    for none after it; no container was stopped or committed; the only
    removal of a container is the forced removal of the failed one; and the
    logs of that container were fetched, and copied to the log when they
    could be read, exactly when it has an identifier. *)
Theorem construct_aborts_at_first_failure bprint (w : W) networkName pre hs post e :
  val (network bprint w) = Ok networkName →
  b.Homeservers bprint = pre ++ hs :: post →
  Forall succeeded
    (val (constructAll' (b.bp_Name bprint) networkName pre (afterNetwork Config bprint w))) →
  let wk := wld (constructAll' (b.bp_Name bprint) networkName pre
                   (afterNetwork Config bprint w)) in
  let res := val (constructHS (b.bp_Name bprint) hs networkName wk) in
  err res = Some e →
  let t := trc (construct' bprint w) in
  val (construct' bprint w) = [e] ∧
  deployedHomeservers t = map b.Name (pre ++ [hs]) ∧
  events [KContainerStop; KContainerCommit] t = [] ∧
  (∃ delErr, containerRemoves t = [(containerID res, true, delErr)]) ∧
  (∃ logs, events [KContainerLogs; KStdCopy] t =
     if decide (containerID res ≠ "") then
       EvContainerLogs (containerID res) logs ::
       match logs with Ok content => [EvStdCopy content] | Err _ => [] end
     else []).
Proof.
  intros Hnet Hhss Hpre wk res Hres t.
  destruct (construct_main_with_network bprint w networkName Hnet) as (Hv & _ & Ht).
  cbv zeta in Hv, Ht. rewrite Hhss in Hv, Ht.
  edestruct (construct_homeservers_returned Config labelsForApplicationServices
               asIDToRegistrationFromLabels (b.bp_Name bprint) networkName pre hs post
               0%nat (frame0 bprint) (afterNetwork Config bprint w) Hpre e Hres)
    as (tlogs & delErr & Hov & Hot & Hl).
  rewrite Hov in Hv, Ht. cbn [fst snd] in Hv, Ht. rewrite Hot in Ht.
  fold wk in Ht, Hl. fold res in Ht, Hl.
  subst t. unfold construct. rewrite !val_bind, !trc_bind, Hv, Ht.
  cbn [ret val trc errs deferred frame0]. rewrite !app_nil_r.
  set (tk := trc (runDeferred _ _ _)).
  assert (Hk : only [KContainerInspect; KContainerKill; KPrintf] tk)
    by apply only_runDeferred.
  pose proof (only_createNetworkIfNotExists (config.PackageNamespace Config)
                (b.bp_Name bprint) w) as Hn.
  pose proof (only_constructAll Config labelsForApplicationServices
                asIDToRegistrationFromLabels (b.bp_Name bprint) networkName pre
                (afterNetwork Config bprint w)) as Ha.
  pose proof (only_constructHomeserver Config labelsForApplicationServices
                asIDToRegistrationFromLabels (b.bp_Name bprint) hs networkName wk) as Hh.
  assert (Hlg : ∀ f a, only [KPrintf] (logEvents Config f a)).
  { intros. unfold logEvents. destruct (config.DebugLoggingEnabled Config);
      [by apply only_cons; [|constructor]|constructor]. }
  set (tl := match delErr with Some _ => _ | None => [] end).
  assert (Htl : only [KPrintf] tl).
  { subst tl. destruct delErr; [apply Hlg|constructor]. }
  assert (Hlogs : only [KContainerLogs; KStdCopy; KPrintf] tlogs).
  { rewrite Hl. destruct (decide _); [apply only_printLogs|constructor]. }
  split_and!.
  - done.
  - unfold deployedHomeservers in *. rewrite !omap_app.
    rewrite (omap_only _ _ _ (Hlg _ _)) by by_kind.
    rewrite (omap_only _ _ _ Hn) by by_kind.
    rewrite (omap_only _ _ _ Hlogs) by by_kind.
    rewrite (omap_only _ _ _ Htl) by by_kind.
    rewrite (omap_only _ _ _ Hk) by by_kind.
    pose proof (deployed_constructAll (b.bp_Name bprint) networkName pre
                  (afterNetwork Config bprint w)) as Hd.
    pose proof (deployed_constructHomeserver (b.bp_Name bprint) hs networkName wk) as Hd'.
    unfold deployedHomeservers in Hd, Hd'. rewrite Hd, Hd'.
    cbn [omap list_omap app]. by rewrite map_app, app_nil_r.
  - rewrite !events_app.
    rewrite (events_only _ _ _ (Hlg _ _)) by reflexivity.
    rewrite (events_only _ _ _ Hn) by reflexivity.
    rewrite (events_only _ _ _ Ha) by reflexivity.
    rewrite (events_only _ _ _ Hh) by reflexivity.
    rewrite (events_only _ _ _ Hlogs) by reflexivity.
    rewrite (events_only _ _ _ Htl) by reflexivity.
    rewrite (events_only _ _ _ Hk) by reflexivity.
    reflexivity.
  - exists delErr. unfold containerRemoves. rewrite !omap_app.
    rewrite (omap_only _ _ _ (Hlg _ _)) by by_kind.
    rewrite (omap_only _ _ _ Hn) by by_kind.
    rewrite (omap_only _ _ _ Ha) by by_kind.
    rewrite (omap_only _ _ _ Hh) by by_kind.
    rewrite (omap_only _ _ _ Hlogs) by by_kind.
    rewrite (omap_only _ _ _ Htl) by by_kind.
    rewrite (omap_only _ _ _ Hk) by by_kind.
    reflexivity.
  - exists (val (docker_ContainerLogs (containerID res)
                   (wld (constructHS (b.bp_Name bprint) hs networkName wk)))).
    rewrite !events_app.
    rewrite (events_only _ _ _ (Hlg _ _)) by reflexivity.
    rewrite (events_only _ _ _ Hn) by reflexivity.
    rewrite (events_only _ _ _ Ha) by reflexivity.
    rewrite (events_only _ _ _ Hh) by reflexivity.
    rewrite (events_only _ _ _ Htl) by reflexivity.
    rewrite (events_only _ _ _ Hk) by reflexivity.
    rewrite !events_cons_out by reflexivity.
    change (events _ []) with (@nil Event). cbn [app]. rewrite !app_nil_r, Hl.
    destruct (decide _); [apply logs_printLogs|done].
Qed.
End ConstructMain.

(** ** Construction: the commits *)

Section Commit.
Context {W : Type} {rt : Runtime W}.
Variable Config : config.Complement.
Variable labelsForApplicationServices : b.Homeserver → gmap string string.
Variable asIDToRegistrationFromLabels : gmap string string → gmap string string.

Local Abbreviation construct_commit' :=
  (construct_commit Config labelsForApplicationServices).

Lemma omap_logEvents {B} (g : Event → option B) format args :
  (∀ f a, g (EvPrintf f a) = None) → omap g (logEvents Config format args) = [].
Proof.
  intros Hg. unfold logEvents. destruct (config.DebugLoggingEnabled Config); [|done].
  cbn. by rewrite Hg.
Qed.

(** The second loop: for every result in turn, a stop with a timeout of 10
    seconds and then the commit; an error of the commit is recorded and the
    loop goes on; the answer of the stop is dropped. *)
Lemma construct_commit_calls bprint rs : ∀ errs0 (w : W),
  Forall succeeded rs →
  let c := construct_commit' bprint rs errs0 w in
  commitCalls (trc c) =
    flat_map (λ r, [CallStop (containerID r) 10; CallCommit (containerID r)]) rs ∧
  length (commitAnswers (trc c)) = length rs ∧
  val c = errs0 ++ commitErrors rs (commitAnswers (trc c)).
Proof.
  induction rs as [|r rs IH]; intros errs0 w Hok; cbv zeta.
  - cbn. by rewrite app_nil_r.
  - apply Forall_cons in Hok as [Hr Hok]. unfold succeeded in Hr.
    cbn [construct_commit]. rewrite Hr.
    unfold runner_AccessTokens, runner_DeviceIDs, docker_ContainerStop,
      docker_ContainerCommit.
    rewrite !val_bind, !trc_bind, ?wld_bind, ?wld_log, ?trc_log.
    cbn [val wld trc call].
    set (opts := container.mkCommitOptions _ _ _ _ _).
    destruct (rtContainerStop (containerID r) 10 w) as [sr w1]. cbn [fst snd].
    destruct (rtContainerCommit (containerID r) opts w1) as [[id|e] w2]; cbn [fst snd];
      rewrite !val_bind, !trc_bind, ?wld_log, ?trc_log;
      unfold commitCalls, commitAnswers in *; rewrite !omap_app, !omap_logEvents by done;
      cbn [omap list_omap app].
    + destruct (IH errs0 w2 Hok) as (IH1 & IH2 & IH3). cbv zeta in IH1, IH2, IH3.
      rewrite IH1, IH3. cbn [length flat_map app]. rewrite IH2.
      split_and!; [done|done|]. unfold commitErrors. by cbn.
    + destruct (IH (errs0 ++ [Errorf "%s : failed to ContainerCommit: %w"
                                [AStr (contextStr r); AErr e]]) w2 Hok)
        as (IH1 & IH2 & IH3). cbv zeta in IH1, IH2, IH3.
      rewrite IH1, IH3. cbn [length flat_map app]. rewrite IH2.
      split_and!; [done|done|]. unfold commitErrors. cbn.
      by rewrite <- app_assoc.
Qed.
End Commit.

(** ** Construction: the commit phase and the deferred calls *)

Section ConstructTheorems.
Context {W : Type} {rt : Runtime W}.
Variable Config : config.Complement.
Variable labelsForApplicationServices : b.Homeserver → gmap string string.
Variable asIDToRegistrationFromLabels : gmap string string → gmap string string.

Local Abbreviation constructAll' :=
  (constructAll Config labelsForApplicationServices asIDToRegistrationFromLabels).
Local Abbreviation construct_main' :=
  (construct_main Config labelsForApplicationServices asIDToRegistrationFromLabels).
Local Abbreviation construct' :=
  (construct Config labelsForApplicationServices asIDToRegistrationFromLabels).
Local Abbreviation construct_commit' :=
  (construct_commit Config labelsForApplicationServices).
Local Abbreviation network bprint :=
  (createNetworkIfNotExists (config.PackageNamespace Config) (b.bp_Name bprint)).
Local Abbreviation constructed bprint networkName w :=
  (constructAll' (b.bp_Name bprint) networkName (b.Homeservers bprint)
     (afterNetwork Config bprint w)).

(** The body of [construct] when every homeserver is constructed without
    error: the commits follow, over all the results. *)
Lemma construct_main_completed bprint (w : W) networkName :
  val (network bprint w) = Ok networkName →
  Forall succeeded (val (constructed bprint networkName w)) →
  let rs := val (constructed bprint networkName w) in
  let c := construct_commit' bprint rs [] (wld (constructed bprint networkName w)) in
  val (construct_main' bprint w) =
    {| errs := val c; results := rs; deferred := rev rs |} ∧
  wld (construct_main' bprint w) = wld c ∧
  trc (construct_main' bprint w) =
    logEvents Config "Constructing blueprint '%s'" [AStr (b.bp_Name bprint)] ++
    trc (network bprint w) ++
    [EvNewRunner (b.bp_Name bprint) (config.BestEffort Config)
       (config.DebugLoggingEnabled Config)] ++
    trc (constructed bprint networkName w) ++ trc c.
Proof.
  intros Hnet Hok. cbv zeta.
  destruct (construct_main_with_network Config labelsForApplicationServices
              asIDToRegistrationFromLabels bprint w networkName Hnet) as (Hv & Hw & Ht).
  cbv zeta in Hv, Hw, Ht.
  destruct (construct_homeservers_completed Config labelsForApplicationServices
              asIDToRegistrationFromLabels (b.bp_Name bprint) networkName
              (b.Homeservers bprint) 0%nat (frame0 bprint)
              (afterNetwork Config bprint w) Hok) as (Hov & How & Hot).
  rewrite Hov in Hv, Hw, Ht. rewrite How in Hv, Hw, Ht. rewrite Hot in Ht.
  cbn [fst snd errs results deferred frame0] in Hv, Hw, Ht.
  rewrite <- (length_constructAll Config labelsForApplicationServices
                asIDToRegistrationFromLabels (b.bp_Name bprint) networkName
                (b.Homeservers bprint) (afterNetwork Config bprint w)) in Hv, Hw, Ht.
  rewrite fill_all in Hv, Hw, Ht. rewrite app_nil_r in Hv. done.
Qed.

(** C7, as the code has it: when every homeserver was constructed, each of
    them, in turn, has its container stopped with a timeout of 10 seconds
    and then committed; all of them are committed, whatever the answers;
    the errors returned are those of the commits that failed, one for each,
    in order.  They depend on no answer of a stop: a stop that fails is not
    recorded. *)
Theorem construct_stops_then_commits bprint (w : W) networkName :
  val (network bprint w) = Ok networkName →
  Forall succeeded (val (constructed bprint networkName w)) →
  let rs := val (constructed bprint networkName w) in
  let t := trc (construct' bprint w) in
  commitCalls t =
    flat_map (λ r, [CallStop (containerID r) 10; CallCommit (containerID r)]) rs ∧
  length (commitAnswers t) = length (b.Homeservers bprint) ∧
  val (construct' bprint w) = commitErrors rs (commitAnswers t).
Proof.
  intros Hnet Hok rs t.
  destruct (construct_main_completed bprint w networkName Hnet Hok) as (Hv & Hw & Ht).
  cbv zeta in Hv, Hw, Ht. fold rs in Hv, Hw, Ht.
  set (c := construct_commit' bprint rs [] _) in Hv, Hw, Ht.
  destruct (construct_commit_calls Config labelsForApplicationServices bprint rs []
              (wld (constructed bprint networkName w)) Hok) as (Hc1 & Hc2 & Hc3).
  cbv zeta in Hc1, Hc2, Hc3. fold c in Hc1, Hc2, Hc3.
  subst t. unfold construct. rewrite !val_bind, !trc_bind, Hv, Ht.
  cbn [ret val trc errs deferred]. rewrite !app_nil_r.
  set (tk := trc (runDeferred _ _ _)).
  assert (Hk : only [KContainerInspect; KContainerKill; KPrintf] tk)
    by apply only_runDeferred.
  pose proof (only_createNetworkIfNotExists (config.PackageNamespace Config)
                (b.bp_Name bprint) w) as Hn.
  pose proof (only_constructAll Config labelsForApplicationServices
                asIDToRegistrationFromLabels (b.bp_Name bprint) networkName
                (b.Homeservers bprint) (afterNetwork Config bprint w)) as Ha.
  assert (Hobs : ∀ {B} (g : Event → option B),
    (∀ e, bool_decide (kindOf e ∈ [KNetworkList; KNetworkCreate; KPrintf; KNewRunner;
                                   KDeployImage; KRunnerRun; KContainerInspect;
                                   KContainerKill]) = true → g e = None) →
    omap g (logEvents Config "Constructing blueprint '%s'" [AStr (b.bp_Name bprint)] ++
            trc (network bprint w) ++
            [EvNewRunner (b.bp_Name bprint) (config.BestEffort Config)
               (config.DebugLoggingEnabled Config)] ++
            trc (constructed bprint networkName w) ++ trc c ++ tk) = omap g (trc c)).
  { intros B g Hg. rewrite !omap_app.
    rewrite omap_logEvents by (intros; by apply Hg).
    rewrite (omap_only g _ _ Hn) by (intros e He; apply Hg; revert e He; by_kind).
    rewrite (omap_only g _ _ Ha) by (intros e He; apply Hg; revert e He; by_kind).
    rewrite (omap_only g _ _ Hk) by (intros e He; apply Hg; revert e He; by_kind).
    cbn [omap list_omap]. rewrite Hg by reflexivity. by rewrite app_nil_r. }
  rewrite <- !app_assoc.
  unfold commitCalls, commitAnswers in *.
  rewrite !Hobs by by_kind. rewrite Hc1, Hc2, Hc3.
  split_and!; [done| |done]. subst rs. apply length_constructAll.
Qed.

Local Abbreviation construct_homeservers' :=
  (construct_homeservers Config labelsForApplicationServices asIDToRegistrationFromLabels).
Local Abbreviation constructHS :=
  (constructHomeserver Config labelsForApplicationServices asIDToRegistrationFromLabels).

(** The deferred calls, one after the other. *)
Lemma runDeferred_trace rs : ∀ (w : W),
  ∃ answers, length answers = length rs ∧
    trc (runDeferred Config rs w) =
      concat (zip_with (λ r a, killEvents Config r a.1 a.2) rs answers).
Proof.
  induction rs as [|r rs IH]; intros w; [by exists []|].
  cbn [runDeferred]. rewrite trc_bind.
  destruct (IH (wld (deferredKill Config r w))) as (answers & Hlen & ->).
  assert (∃ a, trc (deferredKill Config r w) = killEvents Config r a.1 a.2) as [a ->].
  { unfold deferredKill, docker_ContainerInspect, docker_ContainerKill, call, bind.
    cbn [val wld trc].
    destruct (rtContainerInspect (containerID r) w) as [[info|e] w1]; cbn [fst snd].
    - destruct (container.Running info) eqn:Hrun; cbn [negb].
      + destruct (rtContainerKill (containerID r) "KILL" w1) as [[e|] w2] eqn:Hk;
          cbn [fst snd].
        * exists (Ok info, Some e). unfold killEvents. cbn [fst snd].
          by rewrite Hrun, trc_log.
        * exists (Ok info, None). unfold killEvents. cbn [fst snd].
          by rewrite Hrun.
      + exists (Ok info, None). unfold killEvents. cbn [fst snd]. by rewrite Hrun.
    - exists (Err e, None). unfold killEvents. cbn [fst snd]. by rewrite trc_log. }
  exists (a :: answers). split; [by rewrite !length_cons, Hlen|done].
Qed.

(** The first loop defers a call for every homeserver constructed without
    error, the last one on top. *)
Lemma construct_homeservers_deferred name nw hss : ∀ i fr (w : W),
  deferred (val (construct_homeservers' name nw i hss fr w)).2 =
    rev (successes (val (constructAll' name nw hss w))) ++ deferred fr.
Proof.
  induction hss as [|hs hss IH]; intros i fr w; [done|].
  destruct (constructAll_cons Config labelsForApplicationServices
              asIDToRegistrationFromLabels name nw hs hss w) as (-> & _ & _).
  cbn [construct_homeservers successes]. rewrite val_bind.
  destruct (decide (succeeded (val (constructHS name hs nw w)))) as [Hs|Hs];
    unfold succeeded in Hs.
  - rewrite Hs, IH. cbn [deferred rev]. by rewrite <- app_assoc.
  - destruct (err (val (constructHS name hs nw w))) as [e|]; [|done].
    by rewrite !val_bind.
Qed.

Lemma only_construct_homeservers name nw hss : ∀ i fr (w : W),
  only bodyKinds (trc (construct_homeservers' name nw i hss fr w)).
Proof.
  induction hss as [|hs hss IH]; intros i fr w; [constructor|].
  cbn [construct_homeservers]. rewrite trc_bind. apply only_app.
  { eapply only_mono; [|apply only_constructHomeserver]. sub_kinds. }
  destruct (err _); [|apply IH].
  rewrite !trc_bind. apply only_app.
  { destruct (decide _); [|constructor].
    eapply only_mono; [|apply only_printLogs]. sub_kinds. }
  apply only_app; [by apply only_cons; [|constructor]|].
  apply only_app; [|constructor].
  destruct (val _); [apply only_log; in_list|constructor].
Qed.

Lemma only_construct_main bprint (w : W) :
  only bodyKinds (trc (construct_main' bprint w)).
Proof.
  unfold construct_main. rewrite !trc_bind.
  apply only_app; [apply only_log; in_list|]. apply only_app.
  { eapply only_mono; [|apply only_createNetworkIfNotExists]. sub_kinds. }
  destruct (val _); [|constructor].
  rewrite !trc_bind. apply only_app; [by apply only_cons; [|constructor]|].
  apply only_app; [apply only_construct_homeservers|].
  destruct ((val _).1); [constructor|].
  rewrite trc_bind. apply only_app; [|constructor].
  eapply only_mono; [|apply only_construct_commit]. sub_kinds.
Qed.

Lemma construct_main_deferred bprint (w : W) :
  deferred (val (construct_main' bprint w)) =
    rev (match val (network bprint w) with
         | Ok networkName => successes (val (constructed bprint networkName w))
         | Err _ => []
         end).
Proof.
  destruct (val (network bprint w)) as [networkName|e] eqn:Hnet.
  - destruct (construct_main_with_network Config labelsForApplicationServices
                asIDToRegistrationFromLabels bprint w networkName Hnet) as (Hv & _ & _).
    cbv zeta in Hv. rewrite Hv.
    pose proof (construct_homeservers_deferred (b.bp_Name bprint) networkName
                  (b.Homeservers bprint) 0%nat (frame0 bprint)
                  (afterNetwork Config bprint w)) as Hd.
    cbn [deferred frame0] in Hd. rewrite app_nil_r in Hd.
    by destruct ((val _).1).
  - destruct (construct_main_no_network Config labelsForApplicationServices
                asIDToRegistrationFromLabels bprint w e Hnet) as (Hv & _).
    by rewrite Hv.
Qed.

Lemma printed_killEvents r info killErr :
  printed (killEvents Config r info killErr) =
    if config.DebugLoggingEnabled Config then killLines r info killErr else [].
Proof.
  unfold killEvents, killLines, printed, logEvents.
  destruct info as [info|e]; [destruct (container.Running info); [destruct killErr|]|];
    by destruct (config.DebugLoggingEnabled Config).
Qed.

Lemma printed_deferred rs : ∀ answers,
  printed (concat (zip_with (λ r a, killEvents Config r a.1 a.2) rs answers)) =
    if config.DebugLoggingEnabled Config
    then concat (zip_with (λ r a, killLines r a.1 a.2) rs answers)
    else [].
Proof.
  induction rs as [|r rs IH]; intros [|a answers];
    try (by destruct (config.DebugLoggingEnabled Config)).
  cbn [zip_with concat]. unfold printed in *. rewrite omap_app, IH.
  fold (printed (killEvents Config r a.1 a.2)). rewrite printed_killEvents.
  destruct (config.DebugLoggingEnabled Config); [done|done].
Qed.

(** C9, as the code has it: a call is deferred for every homeserver that was
    constructed without error, and for no other.  The deferred calls run
    when the body of [construct] has returned, whichever way it returned:
    their events come after all the events of the body, which has all the
    stops and commits and no inspection or kill.  They run in the reverse of
    the order in which the homeservers were constructed.  Each inspects its
    container and kills it if it is running.  A failure of the inspection or
    of the kill is handed to the builder's logger: its line is printed when
    debug logging is enabled, and nothing is printed when it is not.  The
    errors returned are those that the body left. *)
Theorem construct_deferred_kills bprint (w : W) :
  let fr := val (construct_main' bprint w) in
  ∃ answers,
    length answers = length (deferred fr) ∧
    trc (construct' bprint w) =
      trc (construct_main' bprint w) ++
      concat (zip_with (λ r a, killEvents Config r a.1 a.2) (deferred fr) answers) ∧
    printed (concat (zip_with (λ r a, killEvents Config r a.1 a.2) (deferred fr) answers)) =
      (if config.DebugLoggingEnabled Config
       then concat (zip_with (λ r a, killLines r a.1 a.2) (deferred fr) answers)
       else []) ∧
    only bodyKinds (trc (construct_main' bprint w)) ∧
    events [KContainerInspect; KContainerKill] (trc (construct_main' bprint w)) = [] ∧
    val (construct' bprint w) = errs fr ∧
    deferred fr =
      rev (match val (network bprint w) with
           | Ok networkName => successes (val (constructed bprint networkName w))
           | Err _ => []
           end).
Proof.
  intros fr.
  destruct (runDeferred_trace (deferred fr) (wld (construct_main' bprint w)))
    as (answers & Hlen & Ht).
  exists answers. split_and!.
  - done.
  - unfold construct. rewrite !trc_bind. fold fr. rewrite Ht.
    cbn [ret trc]. by rewrite app_nil_r.
  - apply printed_deferred.
  - apply only_construct_main.
  - apply (events_only bodyKinds); [apply only_construct_main|reflexivity].
  - unfold construct. by rewrite !val_bind.
  - apply construct_main_deferred.
Qed.
End ConstructTheorems.

(** C1 on the simulated runtime: of three homeservers the second fails. *)
Lemma construct_aborts_at_first_failure_witness :
  let t := trc (construct cfgDebug noASLabels noRegistrations bpThree secondFails) in
  val (construct cfgDebug noASLabels noRegistrations bpThree secondFails)
    = [RuntimeError "instruction failed"] ∧
  deployedHomeservers t = ["hs1"; "hs2"] ∧
  events [KContainerStop; KContainerCommit] t = [] ∧
  (∃ delErr, containerRemoves t = [("cid-pkg.three.hs2", true, delErr)]) ∧
  (∃ logs, events [KContainerLogs; KStdCopy] t =
     EvContainerLogs "cid-pkg.three.hs2" logs ::
     match logs with Ok content => [EvStdCopy content] | Err _ => [] end).
Proof.
  pose proof (construct_aborts_at_first_failure cfgDebug noASLabels noRegistrations
                bpThree secondFails "complement_pkg_three" [hs1] hs2 [hs3]
                (RuntimeError "instruction failed")) as H.
  lapply H; [clear H; intros H|vm_compute; reflexivity].
  lapply H; [clear H; intros H|reflexivity].
  lapply H; [clear H; intros H|vm_compute; repeat constructor].
  lapply H; [clear H; intros H|vm_compute; reflexivity].
  destruct H as (H1 & H2 & H3 & H4 & H5).
  split_and!; [exact H1|exact H2|exact H3|exact H4|].
  destruct H5 as [logs H5]. exists logs. exact H5.
Defined.

(** C7, counterexample: the stop of the first container fails, and
    [construct] returns no error, although the claim has a failure of the stop
    recorded in the returned errors. *)
Lemma construct_drops_stop_failure :
  stopAnswers (trc (construct cfgDebug noASLabels noRegistrations bpTwo stopFails))
    = [Some (RuntimeError "cannot stop container"); None] ∧
  commitCalls (trc (construct cfgDebug noASLabels noRegistrations bpTwo stopFails))
    = [CallStop "cid-pkg.two.hs1" 10; CallCommit "cid-pkg.two.hs1";
       CallStop "cid-pkg.two.hs2" 10; CallCommit "cid-pkg.two.hs2"] ∧
  val (construct cfgDebug noASLabels noRegistrations bpTwo stopFails) = [].
Proof. split_and!; vm_compute; reflexivity. Qed.

(** A commit that fails is recorded, and the next homeserver is committed. *)
Example construct_records_commit_failure :
  commitCalls (trc (construct cfgDebug noASLabels noRegistrations bpTwo commitFails))
    = [CallStop "cid-pkg.two.hs1" 10; CallCommit "cid-pkg.two.hs1";
       CallStop "cid-pkg.two.hs2" 10; CallCommit "cid-pkg.two.hs2"] ∧
  val (construct cfgDebug noASLabels noRegistrations bpTwo commitFails)
    = [Errorf "%s : failed to ContainerCommit: %w"
         [AStr "pkg.two.hs1"; AErr (RuntimeError "cannot commit container")]].
Proof. split_and!; vm_compute; reflexivity. Qed.

Lemma construct_stops_then_commits_witness :
  let rs := val (constructAll cfgDebug noASLabels noRegistrations "two"
                   "complement_pkg_two" [hs1; hs2] (afterNetwork cfgDebug bpTwo commitFails)) in
  let t := trc (construct cfgDebug noASLabels noRegistrations bpTwo commitFails) in
  commitCalls t =
    flat_map (λ r, [CallStop (containerID r) 10; CallCommit (containerID r)]) rs ∧
  length (commitAnswers t) = 2%nat ∧
  val (construct cfgDebug noASLabels noRegistrations bpTwo commitFails)
    = commitErrors rs (commitAnswers t).
Proof.
  apply (construct_stops_then_commits cfgDebug noASLabels noRegistrations bpTwo
           commitFails "complement_pkg_two").
  - vm_compute. reflexivity.
  - vm_compute. repeat constructor.
Defined.

(** C9 on the simulated runtime: the first container is still running when
    the deferred calls run, and its kill fails; the failure is printed and no
    error is returned.  The containers are inspected in the reverse order. *)
Example construct_kill_failure :
  events [KContainerInspect; KContainerKill]
    (trc (construct cfgDebug noASLabels noRegistrations bpTwo killFails))
    = [EvContainerInspect "cid-pkg.two.hs2" (Ok (container.mkInspect false));
       EvContainerInspect "cid-pkg.two.hs1" (Ok (container.mkInspect true));
       EvContainerKill "cid-pkg.two.hs1" "KILL"
         (Some (RuntimeError "cannot kill container"))] ∧
  last (trc (construct cfgDebug noASLabels noRegistrations bpTwo killFails))
    = Some (EvPrintf "%s : Failed to kill container %s: %s\n"
              [AStr "pkg.two.hs1"; AStr "cid-pkg.two.hs1";
               AErr (RuntimeError "cannot kill container")]) ∧
  val (construct cfgDebug noASLabels noRegistrations bpTwo killFails) = [].
Proof. split_and!; vm_compute; reflexivity. Qed.

(** C9, counterexample: debug logging is disabled, the first container is
    still running when the deferred calls run and its kill fails; nothing is
    printed, although the claim has the failure logged.  No error is
    returned. *)
Lemma construct_kill_failure_not_printed :
  events [KContainerKill]
    (trc (construct cfgQuiet noASLabels noRegistrations bpTwo killFails))
    = [EvContainerKill "cid-pkg.two.hs1" "KILL"
         (Some (RuntimeError "cannot kill container"))] ∧
  printed (trc (construct cfgQuiet noASLabels noRegistrations bpTwo killFails)) = [] ∧
  val (construct cfgQuiet noASLabels noRegistrations bpTwo killFails) = [].
Proof. split_and!; vm_compute; reflexivity. Qed.

(** ** The labels of a committed image *)

Section Labels.
Lemma append_inj (p a c : string) : p +:+ a = p +:+ c → a = c.
Proof. induction p as [|x p IH]; simpl; [done|]. intros [= H]. by apply IH. Qed.

Lemma addAll_empty p labels : addAll p ∅ labels = labels.
Proof. unfold addAll. apply map_fold_empty. Qed.

Lemma addAll_insert p (m : gmap string string) labels k v :
  m !! k = None →
  addAll p (<[k := v]> m) labels = <[p +:+ k := v]> (addAll p m labels).
Proof.
  intros Hk. unfold addAll. apply (map_fold_insert_L (λ k v acc, <[p +:+ k := v]> acc)).
  - intros j1 j2 z1 z2 y Hne _ _. apply insert_insert_ne.
    intros Heq. by apply append_inj in Heq.
  - done.
Qed.

(** [for k, v := range m { labels[p+k] = v }]: the labels under [p] are
    those of [m]; the others are untouched. *)
Lemma addAll_lookup p (m labels : gmap string string) k :
  addAll p m labels !! (p +:+ k) =
    match m !! k with Some v => Some v | None => labels !! (p +:+ k) end.
Proof.
  induction m as [|j x m Hj IH] using map_ind.
  - by rewrite addAll_empty, lookup_empty.
  - rewrite addAll_insert by done. destruct (decide (j = k)) as [->|Hne].
    + by rewrite !lookup_insert_eq.
    + rewrite !lookup_insert_ne; [done|done|].
      intros Heq. by apply append_inj in Heq.
Qed.


Lemma addAll_lookup_Some p (m labels : gmap string string) k v :
  addAll p m labels !! k = Some v →
  labels !! k = Some v ∨ ∃ j, k = p +:+ j ∧ m !! j = Some v.
Proof.
  induction m as [|j x m Hj IH] using map_ind.
  - rewrite addAll_empty. by left.
  - rewrite addAll_insert by done. destruct (decide (p +:+ j = k)) as [<-|Hne].
    + rewrite lookup_insert_eq. intros [= ->]. right. exists j.
      by rewrite lookup_insert_eq.
    + rewrite lookup_insert_ne by done. intros [?|(j' & -> & Hj')]%IH; [by left|].
      right. exists j'. split; [done|].
      rewrite lookup_insert_ne; [done|]. by intros ->.
Qed.

Lemma keepTokens_lookup users (toks : gmap string string) : ∀ labels u,
  keepTokens users toks labels !! ("access_token_" +:+ u) =
    match (if decide (u ∈ users) then toks !! u else None) with
    | Some v => Some v
    | None => labels !! ("access_token_" +:+ u)
    end.
Proof.
  induction users as [|x users IH]; intros labels u.
  - cbn [keepTokens]. by rewrite decide_False by apply not_elem_of_nil.
  - cbn [keepTokens].
    destruct (decide (u = x)) as [->|Hne].
    + rewrite (decide_True (P := x ∈ x :: users)) by apply list_elem_of_here.
      destruct (toks !! x) as [tok|] eqn:Hx.
      * rewrite IH. destruct (decide (x ∈ users)); [by rewrite Hx|].
        by rewrite lookup_insert_eq.
      * rewrite IH. destruct (decide (x ∈ users)); by rewrite ?Hx.
    + assert (Hiff : u ∈ x :: users ↔ u ∈ users).
      { rewrite elem_of_cons. tauto. }
      assert (Hl : ∀ tok, <["access_token_" +:+ x := tok]> labels
                   !! ("access_token_" +:+ u) = labels !! ("access_token_" +:+ u)).
      { intros tok. apply lookup_insert_ne. intros Heq.
        apply (append_inj "access_token_") in Heq. congruence. }
      destruct (toks !! x) as [tok|]; rewrite IH, ?Hl;
        destruct (decide (u ∈ users)) as [Hin|Hin];
        [rewrite decide_True by tauto|rewrite decide_False by tauto
        |rewrite decide_True by tauto|rewrite decide_False by tauto]; done.
Qed.

Lemma keepTokens_lookup_Some users (toks : gmap string string) : ∀ labels k v,
  keepTokens users toks labels !! k = Some v →
  labels !! k = Some v ∨ ∃ u, k = "access_token_" +:+ u.
Proof.
  induction users as [|x users IH]; intros labels k v; cbn [keepTokens]; [by left|].
  destruct (toks !! x) as [tok|]; [|apply IH].
  intros [Hk|?]%IH; [|by right].
  destruct (decide ("access_token_" +:+ x = k)) as [<-|Hne]; [right; by exists x|].
  rewrite lookup_insert_ne in Hk by done. by left.
Qed.

Lemma tokenLabels_lookup bprint (toks : gmap string string) u :
  tokenLabels bprint toks !! ("access_token_" +:+ u) = retained bprint toks u.
Proof.
  unfold tokenLabels, retained.
  destruct (b.KeepAccessTokensForUsers bprint) as [|x users] eqn:Hk.
  - cbn [length]. rewrite decide_False by lia. rewrite decide_True by done.
    rewrite addAll_lookup, lookup_empty. by destruct (toks !! u).
  - cbn [length]. rewrite decide_True by lia. rewrite decide_False by done.
    rewrite keepTokens_lookup, lookup_empty.
    destruct (decide (u ∈ x :: users)); [by destruct (toks !! u)|done].
Qed.

Lemma tokenLabels_keys bprint (toks : gmap string string) k v :
  tokenLabels bprint toks !! k = Some v → ∃ u, k = "access_token_" +:+ u.
Proof.
  unfold tokenLabels. destruct (decide _).
  - intros [Hk|?]%keepTokens_lookup_Some; [|done]. by rewrite lookup_empty in Hk.
  - intros [Hk|(j & -> & _)]%addAll_lookup_Some; [|by exists j].
    by rewrite lookup_empty in Hk.
Qed.

End Labels.

Section CommitLabels.
Context {W : Type} {rt : Runtime W}.
Variable Config : config.Complement.
Variable labelsForApplicationServices : b.Homeserver → gmap string string.

Local Abbreviation construct_commit' :=
  (construct_commit Config labelsForApplicationServices).

(** Every commit of the second loop is that of one of the results, with
    the labels computed from the tokens and the device identifiers that the
    runner answered for its homeserver. *)
Lemma construct_commit_options bprint rs : ∀ errs0 (w : W) id o resp,
  EvContainerCommit id o resp ∈ trc (construct_commit' bprint rs errs0 w) →
  ∃ r toks devs,
    r ∈ rs ∧ succeeded r ∧ id = containerID r ∧
    EvAccessTokens (b.Name (homeserver r)) toks
      ∈ trc (construct_commit' bprint rs errs0 w) ∧
    EvDeviceIDs (b.Name (homeserver r)) devs
      ∈ trc (construct_commit' bprint rs errs0 w) ∧
    o = commitOptions r
          (commitLabels bprint toks devs (labelsForApplicationServices (homeserver r))).
Proof.
  induction rs as [|r rs IH]; intros errs0 w id o resp.
  - by intros ?%not_elem_of_nil.
  - cbn [construct_commit]. destruct (err r) as [e|] eqn:Hr.
    { intros (r' & toks & devs & Hin & ?)%IH. exists r', toks, devs.
      split; [by apply list_elem_of_further|done]. }
    unfold runner_AccessTokens, runner_DeviceIDs, docker_ContainerStop,
      docker_ContainerCommit.
    rewrite !trc_bind, ?wld_bind, ?wld_log, ?trc_log.
    cbn [val wld trc call].
    set (toks := rtAccessTokens (b.Name (homeserver r)) w).
    set (devs := rtDeviceIDs (b.Name (homeserver r)) w).
    set (opts := container.mkCommitOptions _ _ _ _ _).
    destruct (rtContainerStop (containerID r) 10 w) as [sr w1]. cbn [fst snd].
    assert (Hnolog : ∀ f a, EvContainerCommit id o resp ∉ logEvents Config f a).
    { intros f a. unfold logEvents. destruct (config.DebugLoggingEnabled Config);
        [|apply not_elem_of_nil].
      intros [?|?%not_elem_of_nil]%elem_of_cons; done. }
    destruct (rtContainerCommit (containerID r) opts w1) as [[cid|e] w2]; cbn [fst snd];
      rewrite trc_bind, wld_log, trc_log; intros Hin;
      repeat (apply elem_of_app in Hin as [Hin|Hin]);
      try (by apply Hnolog in Hin);
      try (apply list_elem_of_singleton in Hin; try discriminate Hin).
    all: try (injection Hin as -> -> ->; exists r, toks, devs;
              split_and!; [apply list_elem_of_here|done|done| | |done];
              [apply elem_of_app; left; apply list_elem_of_here
              |apply elem_of_app; right; apply elem_of_app; left;
               apply list_elem_of_here]).
    all: apply IH in Hin as (r' & toks' & devs' & Hr' & Hs & Hid & Ht & Hd & Ho);
      exists r', toks', devs';
      (split_and!; [by apply list_elem_of_further|done|done| | |done]);
      repeat (apply elem_of_app; right); done.
Qed.

(** The directives of [toChanges]: those of the labels, one for each. *)
Lemma toChanges_labels (labels : gmap string string) :
  (∀ c, c ∈ toChanges labels ↔ ∃ k v, labels !! k = Some v ∧ c = directive k v) ∧
  length (toChanges labels) = size labels.
Proof.
  unfold toChanges. split.
  - intros c. split.
    + intros ([k v] & -> & Hkv%elem_of_map_to_list)%list_elem_of_fmap.
      by exists k, v.
    + intros (k & v & Hkv & ->). apply list_elem_of_fmap. exists (k, v).
      split; [done|]. by apply elem_of_map_to_list.
  - by rewrite length_map, length_map_to_list.
Qed.

End CommitLabels.

(** The example of the specification: tokens captured for [@alice:x] and
    [@bob:x]; with the allow-list [["@alice:x"]] the image is labelled with
    the token of [@alice:x] only, with an empty allow-list with both. *)
Example commit_alice_only :
  omap (λ e, match e with EvContainerCommit _ o _ => Some (container.Changes o) | _ => None end)
    (trc (construct cfgQuiet noASLabels noRegistrations bpAlice twoTokens))
  = [["LABEL " +:+ dquote +:+ "access_token_@alice:x" +:+ dquote +:+ "=" +:+
      dquote +:+ "tokA" +:+ dquote]].
Proof. vm_compute. reflexivity. Qed.

Example commit_all_tokens :
  omap (λ e, match e with EvContainerCommit _ o _ => Some (length (container.Changes o)) | _ => None end)
    (trc (construct cfgQuiet noASLabels noRegistrations bpAll twoTokens))
  = [2%nat] ∧
  commitLabels bpAll (<["@alice:x" := "tokA"]> (<["@bob:x" := "tokB"]> ∅)) ∅ ∅
  = <["access_token_@alice:x" := "tokA"]> (<["access_token_@bob:x" := "tokB"]> ∅).
Proof. split; vm_compute; reflexivity. Qed.


(** ** Building a blueprint: the polling loop *)

Section Poll.
Context {W : Type} {rt : Runtime W}.
Variable Config : config.Complement.

Lemma Sub_window now start :
  Sub now start < waitTime ↔ now - start < waitTime.
Proof.
  unfold Sub, waitTime, maxDuration, minDuration, second.
  repeat case_decide; lia.
Qed.

(** One iteration of the loop. *)
Lemma pollImages_step fuel bprint start images (w : W) :
  pollImages Config (S fuel) bprint start images w =
    let now := (rtNow w).1 in
    let w1 := (rtNow w).2 in
    let f := blueprintFilter Config bprint in
    if decide (Sub now start < waitTime) then
      match (rtImageList f w1).1 with
      | Err e =>
          mkOut (Some (PollReturn e)) (rtImageList f w1).2
            [EvNow now; EvImageList f (Err e)]
      | Ok imgs =>
          if decide (length imgs < length (b.Homeservers bprint))%nat then
            let o := pollImages Config fuel bprint start imgs
                       (rtSleep (100 * millisecond) (rtImageList f w1).2) in
            mkOut (val o) (wld o)
              ([EvNow now; EvImageList f (Ok imgs); EvSleep (100 * millisecond)] ++ trc o)
          else
            mkOut (Some (PollLeft true imgs)) (rtImageList f w1).2
              [EvNow now; EvImageList f (Ok imgs)]
      end
    else mkOut (Some (PollLeft false images)) w1 [EvNow now].
Proof.
  cbn [pollImages]. unfold bind, time_Since, bind, time_Now, docker_ImageList,
    time_Sleep, call, ret. cbn [val wld trc].
  destruct (decide (Sub (rtNow w).1 start < waitTime)); [|done].
  cbn [val wld trc].
  destruct ((rtImageList (blueprintFilter Config bprint) (rtNow w).2).1); [|done].
  destruct (decide _); done.
Qed.

(** The loop ends: with a monotonic clock, [k] further sleeps of 100 ms
    bring the clock past the window, and [k + 1] iterations suffice.  Its
    trace is made of rounds that did not find the images, each begun within
    the window and ended by a sleep of 100 ms, and of a last round. *)
Lemma pollImages_rounds `{!MonotonicClock rt} bprint start (k : nat) :
  ∀ (fuel : nat) images (w : W),
    start + waitTime ≤ clock w + Z.of_nat k * (100 * millisecond) →
    (k < fuel)%nat →
    let o := pollImages Config fuel bprint start images w in
    ∃ rounds final,
      (length rounds ≤ k)%nat ∧
      trc o = flat_map (roundEvents (blueprintFilter Config bprint)) rounds ++
              finalEvents (blueprintFilter Config bprint) final ∧
      Forall (λ r, Sub r.1 start < waitTime ∧
                   (length r.2 < length (b.Homeservers bprint))%nat) rounds ∧
      match final with
      | FoundImages now found =>
          Sub now start < waitTime ∧
          (length (b.Homeservers bprint) ≤ length found)%nat ∧
          val o = Some (PollLeft true found)
      | TimedOut now =>
          waitTime ≤ Sub now start ∧ ∃ last, val o = Some (PollLeft false last)
      | ListFailed now e =>
          Sub now start < waitTime ∧ val o = Some (PollReturn e)
      end.
Proof.
  induction k as [|k IH]; intros fuel images w Hk Hfuel;
    (destruct fuel as [|fuel]; [lia|]); cbv zeta; rewrite pollImages_step; cbv zeta;
    destruct (clock_Now w) as [Hn1 Hn2];
    set (now := (rtNow w).1) in *; set (w1 := (rtNow w).2) in *.
  - (* the window is over *)
    rewrite decide_False by (rewrite Sub_window; unfold waitTime in *; lia).
    exists [], (TimedOut now). cbn [val trc flat_map app finalEvents length].
    split_and!; [lia|done|constructor| |by eexists].
    pose proof (Sub_window now start). lia.
  - destruct (decide (Sub now start < waitTime)) as [Hin|Hout].
    2:{ exists [], (TimedOut now). cbn [val trc flat_map app finalEvents length].
        split_and!; [lia|done|constructor|lia|by eexists]. }
    pose proof (clock_ImageList (blueprintFilter Config bprint) w1) as Hl.
    set (w2 := (rtImageList (blueprintFilter Config bprint) w1).2) in *.
    destruct ((rtImageList (blueprintFilter Config bprint) w1).1) as [imgs|e].
    2:{ exists [], (ListFailed now e). cbn [val trc flat_map app finalEvents length].
        split_and!; [lia|done|constructor|done|done]. }
    destruct (decide (length imgs < length (b.Homeservers bprint))%nat) as [Hshort|Hfound].
    2:{ exists [], (FoundImages now imgs).
        cbn [val trc flat_map app finalEvents length].
        split_and!; [lia|done|constructor|done|lia|done]. }
    pose proof (clock_Sleep (100 * millisecond) w2) as Hs.
    destruct (IH fuel imgs (rtSleep (100 * millisecond) w2))
      as (rounds & final & Hlen & Ht & Hr & Hf); [lia|lia|].
    cbv zeta in Ht, Hf. cbn [val trc].
    exists ((now, imgs) :: rounds), final. rewrite Ht.
    split_and!; [cbn [length]; lia|done|by constructor|done].
Qed.
End Poll.

(** ** Building a blueprint *)

Section Blueprint.
Context {W : Type} {rt : Runtime W}.
Variable Config : config.Complement.
Variable labelsForApplicationServices : b.Homeserver → gmap string string.
Variable asIDToRegistrationFromLabels : gmap string string → gmap string string.

Local Abbreviation construct' :=
  (construct Config labelsForApplicationServices asIDToRegistrationFromLabels).
Local Abbreviation ConstructBlueprint' :=
  (ConstructBlueprint Config labelsForApplicationServices asIDToRegistrationFromLabels).
Local Abbreviation ConstructBlueprintIfNotExist' :=
  (ConstructBlueprintIfNotExist Config labelsForApplicationServices
     asIDToRegistrationFromLabels).

Lemma removeNetworks_networksPass (w : W) :
  networksPass Config (trc (removeNetworks Config w)).
Proof.
  destruct (removeNetworks_pass Config w) as (r & en & t & Ht & Ho & Hp & _).
  by exists r, en, t.
Qed.

(** [ConstructBlueprint] after a construction without error: the start
    time is read, the polling loop runs, and what follows depends on how the
    loop was left. *)
Lemma ConstructBlueprint_after_construct fuel bprint (w : W) :
  val (construct' bprint w) = [] →
  let w1 := wld (construct' bprint w) in
  let start := (rtNow w1).1 in
  let p := pollImages Config fuel bprint start [] (rtNow w1).2 in
  let o := ConstructBlueprint' fuel bprint w in
  match val p with
  | None => val o = None
  | Some (PollReturn e) =>
      val o = Some (Some e) ∧
      trc o = trc (construct' bprint w) ++ [EvNow start] ++ trc p
  | Some (PollLeft foundImages images) =>
      val o = Some (if foundImages then None else Some notFound) ∧
      trc o = trc (construct' bprint w) ++ [EvNow start] ++ trc p ++
              trc (removeNetworks Config (wld p)) ++
              (if foundImages then constructedLine Config bprint images else []) ∧
      wld o = wld (removeNetworks Config (wld p))
  end.
Proof.
  intros Herrs. cbv zeta. unfold ConstructBlueprint.
  rewrite !val_bind, !trc_bind, ?wld_bind, Herrs. cbn [length].
  rewrite decide_False by lia.
  rewrite !val_bind, !trc_bind, ?wld_bind.
  change (val (time_Now ?x)) with (rtNow x).1.
  change (wld (time_Now ?x)) with (rtNow x).2.
  change (trc (time_Now ?x)) with [EvNow (rtNow x).1].
  set (p := pollImages _ _ _ _ _ _).
  destruct (val p) as [[e|found images]|]; [by rewrite app_nil_r| |done].
  rewrite !val_bind, !trc_bind, ?wld_bind.
  destruct found; cbn [negb].
  - rewrite !val_bind, !trc_bind, ?wld_bind, wld_log, trc_log.
    cbn [ret val trc wld]. by rewrite app_nil_r.
  - cbn [ret val trc wld]. by rewrite !app_nil_r.
Qed.

(** The polling loop of [ConstructBlueprint] and what follows it. *)
Lemma ConstructBlueprint_poll_rounds `{!MonotonicClock rt} fuel bprint (w : W) :
  val (construct' bprint w) = [] →
  (51 ≤ fuel)%nat →
  let start := (rtNow (wld (construct' bprint w))).1 in
  let f := blueprintFilter Config bprint in
  let o := ConstructBlueprint' fuel bprint w in
  ∃ rounds final tail,
    (length rounds ≤ 50)%nat ∧
    trc o = trc (construct' bprint w) ++ [EvNow start] ++
            flat_map (roundEvents f) rounds ++ finalEvents f final ++ tail ∧
    Forall (λ r, Sub r.1 start < waitTime ∧
                 (length r.2 < length (b.Homeservers bprint))%nat) rounds ∧
    match final with
    | FoundImages now found =>
        Sub now start < waitTime ∧
        (length (b.Homeservers bprint) ≤ length found)%nat ∧
        val o = Some None ∧
        ∃ removal, networksPass Config removal ∧
                   tail = removal ++ constructedLine Config bprint found
    | TimedOut now =>
        waitTime ≤ Sub now start ∧
        val o = Some (Some notFound) ∧
        networksPass Config tail
    | ListFailed now e =>
        Sub now start < waitTime ∧ val o = Some (Some e) ∧ tail = []
    end.
Proof.
  intros Herrs Hfuel start f o.
  pose proof (ConstructBlueprint_after_construct fuel bprint w Herrs) as Hc.
  cbv zeta in Hc. fold start in Hc. fold o in Hc.
  set (w1 := wld (construct' bprint w)) in *.
  destruct (clock_Now w1) as [Hn1 Hn2].
  destruct (pollImages_rounds Config bprint start 50 fuel [] (rtNow w1).2)
    as (rounds & final & Hlen & Ht & Hr & Hf).
  { fold start in Hn2. unfold waitTime, second, millisecond. lia. }
  { lia. }
  cbv zeta in Ht, Hf. set (p := pollImages _ _ _ _ _ _) in *. fold f in Ht.
  destruct final as [now found|now|now e].
  - destruct Hf as (Hw & Hn & Hv). rewrite Hv in Hc. destruct Hc as (Hv' & Ht' & _).
    exists rounds, (FoundImages now found),
      (trc (removeNetworks Config (wld p)) ++ constructedLine Config bprint found).
    split_and!; [done|by rewrite Ht', Ht, <- ?app_assoc|done|done|done|done|].
    eexists. split; [apply removeNetworks_networksPass|done].
  - destruct Hf as (Hw & last & Hv). rewrite Hv in Hc. destruct Hc as (Hv' & Ht' & _).
    exists rounds, (TimedOut now), (trc (removeNetworks Config (wld p))).
    split_and!; [done|by rewrite Ht', Ht, ?app_nil_r, <- ?app_assoc|done|done|done|].
    apply removeNetworks_networksPass.
  - destruct Hf as (Hw & Hv). rewrite Hv in Hc. destruct Hc as (Hv' & Ht').
    exists rounds, (ListFailed now e), [].
    split_and!; [done|by rewrite Ht', Ht, ?app_nil_r, <- ?app_assoc|done|done|done|done].
Qed.

(** C6, as the code has it: after a construction without error,
    [ConstructBlueprint] reads the clock and polls the image list; every
    round is begun less than 5 seconds (5 000 000 000 ns) after the start,
    asks for the images that carry the three labels of the blueprint, and,
    when fewer images than homeservers are listed, sleeps 100 ms
    (100 000 000 ns); there are at most 50 such rounds, and, the clock being
    monotonic, the loop ends.  When it ends because the window is over, the
    result is the error [notFound], whatever the commits answered; when the
    images were found, the result is success.  In both cases the poll is
    followed by the removal pass of [removeNetworks]: the networks that carry
    the ownership label and the namespace are listed, whatever their
    blueprint, and removed in the order of the list up to the first removal
    that fails; the outcome of the pass has no part in the result.  (When a
    poll fails, its error is returned at once, and no network is removed.) *)
Theorem ConstructBlueprint_polls `{!MonotonicClock rt} fuel bprint (w : W) :
  val (construct' bprint w) = [] →
  (51 ≤ fuel)%nat →
  let start := (rtNow (wld (construct' bprint w))).1 in
  let f := [complementLabel;
            "complement_blueprint=" +:+ b.bp_Name bprint;
            "complement_pkg=" +:+ config.PackageNamespace Config] in
  let o := ConstructBlueprint' fuel bprint w in
  ∃ rounds final tail,
    (length rounds ≤ 50)%nat ∧
    trc o = trc (construct' bprint w) ++ [EvNow start] ++
            flat_map (λ r, [EvNow r.1; EvImageList f (Ok r.2); EvSleep 100000000])
              rounds ++
            finalEvents f final ++ tail ∧
    Forall (λ r, Sub r.1 start < 5000000000 ∧
                 (length r.2 < length (b.Homeservers bprint))%nat) rounds ∧
    match final with
    | FoundImages now found =>
        Sub now start < 5000000000 ∧
        (length (b.Homeservers bprint) ≤ length found)%nat ∧
        val o = Some None ∧
        ∃ removal, networksPass Config removal ∧
                   tail = removal ++ constructedLine Config bprint found
    | TimedOut now =>
        5000000000 ≤ Sub now start ∧
        val o = Some (Some notFound) ∧
        networksPass Config tail
    | ListFailed now e =>
        Sub now start < 5000000000 ∧ val o = Some (Some e) ∧ tail = []
    end.
Proof.
  intros Herrs Hfuel.
  exact (ConstructBlueprint_poll_rounds fuel bprint w Herrs Hfuel).
Qed.

(** The lookup of [ConstructBlueprintIfNotExist] and what follows it. *)
Lemma ConstructBlueprintIfNotExist_cases fuel bprint (w : W) :
  let f := lookupFilter Config bprint in
  let o := ConstructBlueprintIfNotExist' fuel bprint w in
  match (rtImageList f w).1 with
  | Err e =>
      val o = Some (Some (Errorf "ConstructBlueprintIfNotExist(%s): failed to ImageList: %w"
                            [AStr (b.bp_Name bprint); AErr e])) ∧
      trc o = [EvImageList f (Err e)] ∧ wld o = (rtImageList f w).2
  | Ok [] =>
      let c := ConstructBlueprint' fuel bprint (rtImageList f w).2 in
      val o = match val c with
              | None => None
              | Some None => Some None
              | Some (Some e) =>
                  Some (Some (Errorf
                    "ConstructBlueprintIfNotExist(%s): failed to ConstructBlueprint: %w"
                    [AStr (b.bp_Name bprint); AErr e]))
              end ∧
      trc o = EvImageList f (Ok []) :: trc c ∧ wld o = wld c
  | Ok (img :: images) =>
      val o = Some None ∧ trc o = [EvImageList f (Ok (img :: images))] ∧
      wld o = (rtImageList f w).2
  end.
Proof.
  cbv zeta. unfold ConstructBlueprintIfNotExist.
  rewrite !val_bind, !trc_bind, !wld_bind.
  unfold docker_ImageList, call. cbn [val wld trc].
  destruct ((rtImageList (lookupFilter Config bprint) w).1) as [[|img images]|e].
  - cbn [length]. rewrite decide_True by done.
    rewrite !val_bind, !trc_bind, !wld_bind.
    destruct (val (ConstructBlueprint' fuel bprint _)) as [[e|]|];
      cbn [ret val wld trc]; by rewrite app_nil_r.
  - cbn [length]. by rewrite decide_False by done.
  - done.
Qed.

Section Keeps.
Context `{!CatalogKeeps rt}.

Lemma removeNetworks_loop_keeps f nws : ∀ (w : W),
  listed f w → listed f (wld (removeNetworks_loop nws w)).
Proof.
  induction nws as [|nw nws IH]; intros w Hl; [done|].
  cbn [removeNetworks_loop]. rewrite wld_bind.
  unfold docker_NetworkRemove, call. cbn [val wld].
  pose proof (keeps_NetworkRemove f (network.ID nw) w Hl) as Hl'.
  destruct ((rtNetworkRemove (network.ID nw) w).1); [done|by apply IH].
Qed.

Lemma removeNetworks_keeps f (w : W) :
  listed f w → listed f (wld (removeNetworks Config w)).
Proof.
  intros Hl. unfold removeNetworks. rewrite wld_bind.
  unfold docker_NetworkList, call. cbn [val wld].
  pose proof (keeps_NetworkList f (namespaceFilter Config) w Hl) as Hl'.
  unfold namespaceFilter in Hl'.
  destruct ((rtNetworkList _ w).1); [by apply removeNetworks_loop_keeps|done].
Qed.

Lemma pollImages_found_listed bprint start fuel : ∀ images found (w : W),
  b.Homeservers bprint ≠ [] →
  val (pollImages Config fuel bprint start images w) = Some (PollLeft true found) →
  listed (blueprintFilter Config bprint)
    (wld (pollImages Config fuel bprint start images w)).
Proof.
  induction fuel as [|fuel IH]; intros images found w Hne; [done|].
  rewrite pollImages_step. cbv zeta.
  destruct (decide _); [|done].
  destruct ((rtImageList _ _).1) as [imgs|e] eqn:Hlist; [|done].
  destruct (decide _) as [Hshort|Hlong]; cbn [val wld].
  - by apply IH.
  - intros _. apply keeps_ImageList. exists imgs. split; [done|].
    intros ->. destruct (b.Homeservers bprint); [done|]. cbn in Hlong. lia.
Qed.

Lemma ConstructBlueprint_built_listed fuel bprint (w : W) :
  b.Homeservers bprint ≠ [] →
  val (ConstructBlueprint' fuel bprint w) = Some None →
  listed (blueprintFilter Config bprint) (wld (ConstructBlueprint' fuel bprint w)).
Proof.
  intros Hne Hv.
  destruct (val (construct' bprint w)) as [|e errs0] eqn:Herrs.
  2:{ revert Hv. unfold ConstructBlueprint. rewrite !val_bind, Herrs.
      cbn [length]. rewrite decide_True by lia. by rewrite !val_bind. }
  pose proof (ConstructBlueprint_after_construct fuel bprint w Herrs) as Hc.
  cbv zeta in Hc.
  set (p := pollImages _ _ _ _ _ _) in *.
  destruct (val p) as [[e|found images]|] eqn:Hp.
  - destruct Hc as [Hc _]. congruence.
  - destruct Hc as (Hc & _ & ->). destruct found; [|congruence].
    apply removeNetworks_keeps. by eapply pollImages_found_listed.
  - congruence.
Qed.

(** After a call that succeeded, for a blueprint with a homeserver, the
    next call finds an image and constructs nothing. *)
Lemma ConstructBlueprintIfNotExist_again fuel fuel' bprint (w : W) :
  b.Homeservers bprint ≠ [] →
  val (ConstructBlueprintIfNotExist' fuel bprint w) = Some None →
  let w' := wld (ConstructBlueprintIfNotExist' fuel bprint w) in
  val (ConstructBlueprintIfNotExist' fuel' bprint w') = Some None ∧
  ∃ images, images ≠ [] ∧
    trc (ConstructBlueprintIfNotExist' fuel' bprint w') =
      [EvImageList (lookupFilter Config bprint) (Ok images)].
Proof.
  intros Hne Hv w'.
  assert (Hl : listed (lookupFilter Config bprint) w').
  { subst w'. pose proof (ConstructBlueprintIfNotExist_cases fuel bprint w) as Hc.
    cbv zeta in Hc.
    destruct ((rtImageList (lookupFilter Config bprint) w).1)
      as [[|img images]|e] eqn:Hlist.
    - destruct Hc as (Hc & _ & ->). rewrite Hc in Hv.
      apply (keeps_fewer_tags _ (blueprintFilter Config bprint)).
      { intros tag Htag. unfold lookupFilter, blueprintFilter, label in *.
        by apply list_elem_of_further. }
      apply ConstructBlueprint_built_listed; [done|].
      by destruct (val (ConstructBlueprint' fuel bprint _)) as [[?|]|].
    - destruct Hc as (_ & _ & ->). apply keeps_ImageList.
      exists (img :: images). by rewrite Hlist.
    - destruct Hc as (Hc & _). congruence. }
  destruct Hl as (images & Hlist & Hne').
  pose proof (ConstructBlueprintIfNotExist_cases fuel' bprint w') as Hc.
  cbv zeta in Hc. rewrite Hlist in Hc.
  destruct images as [|img images]; [done|].
  destruct Hc as (? & ? & _). split; [done|]. by exists (img :: images).
Qed.
End Keeps.

(** C2, as the code has it: [ConstructBlueprintIfNotExist] lists the images
    that carry the tags of the blueprint name and of the namespace, and no
    other tag; a failure of that call is returned; when it lists no image,
    [ConstructBlueprint] is called and its error, if any, returned; when it
    lists an image, nothing is constructed and the call succeeds.  Hence,
    on a runtime whose catalogue keeps its images, the call that follows a
    successful call, for a blueprint with a homeserver, finds an image,
    constructs nothing and succeeds. *)
Theorem ConstructBlueprintIfNotExist_lookup fuel bprint (w : W) :
  let f := lookupFilter Config bprint in
  let o := ConstructBlueprintIfNotExist' fuel bprint w in
  f = ["complement_blueprint=" +:+ b.bp_Name bprint;
       "complement_pkg=" +:+ config.PackageNamespace Config] ∧
  match (rtImageList f w).1 with
  | Err e =>
      val o = Some (Some (Errorf "ConstructBlueprintIfNotExist(%s): failed to ImageList: %w"
                            [AStr (b.bp_Name bprint); AErr e])) ∧
      trc o = [EvImageList f (Err e)]
  | Ok [] =>
      let c := ConstructBlueprint' fuel bprint (rtImageList f w).2 in
      val o = match val c with
              | None => None
              | Some None => Some None
              | Some (Some e) =>
                  Some (Some (Errorf
                    "ConstructBlueprintIfNotExist(%s): failed to ConstructBlueprint: %w"
                    [AStr (b.bp_Name bprint); AErr e]))
              end ∧
      trc o = EvImageList f (Ok []) :: trc c
  | Ok (img :: images) =>
      val o = Some None ∧ trc o = [EvImageList f (Ok (img :: images))]
  end ∧
  (CatalogKeeps rt → b.Homeservers bprint ≠ [] → val o = Some None →
   ∀ fuel',
     val (ConstructBlueprintIfNotExist' fuel' bprint (wld o)) = Some None ∧
     ∃ images, images ≠ [] ∧
       trc (ConstructBlueprintIfNotExist' fuel' bprint (wld o)) =
         [EvImageList f (Ok images)]).
Proof.
  cbv zeta. split_and!.
  - reflexivity.
  - pose proof (ConstructBlueprintIfNotExist_cases fuel bprint w) as Hc.
    cbv zeta in Hc.
    destruct ((rtImageList (lookupFilter Config bprint) w).1) as [[|img images]|e];
      tauto.
  - intros Hk Hne Hv fuel'.
    by apply ConstructBlueprintIfNotExist_again.
Qed.
End Blueprint.

(** The clock of the simulated runtime is monotonic. *)
Lemma Sim_monotonic : MonotonicClock Sim.runtime.
Proof.
  refine {| clock := Sim.clock |}.
  - intros w. cbn. lia.
  - intros f w. cbn. unfold Sim.ImageList. destruct (Sim.failing _ _); cbn; lia.
  - intros d w. cbn. lia.
Qed.

(** C6 on the simulated runtime: both commits succeed, the images are not
    listed within the window, and the build fails after 50 polls; the
    networks are removed all the same. *)
Example ConstructBlueprint_times_out :
  let o := ConstructBlueprint cfgQuiet noASLabels noRegistrations 51 bpTwo lagging in
  val o = Some (Some notFound) ∧
  commitAnswers (trc o) = [Ok "sha256:cid-pkg.two.hs1"; Ok "sha256:cid-pkg.two.hs2"] ∧
  length (events [KImageList] (trc o)) = 50%nat ∧
  networkRemoves (trc o) = [("net-complement_pkg_two", None)].
Proof. vm_compute. done. Qed.

Example ConstructBlueprint_finds_images :
  let o := ConstructBlueprint cfgQuiet noASLabels noRegistrations 51 bpTwo Sim.empty in
  val o = Some None ∧
  length (events [KImageList] (trc o)) = 1%nat ∧
  networkRemoves (trc o) = [("net-complement_pkg_two", None)].
Proof. vm_compute. done. Qed.

Lemma ConstructBlueprint_polls_witness :
  let start :=
    (rtNow (wld (construct cfgQuiet noASLabels noRegistrations bpTwo lagging))).1 in
  let f := [complementLabel;
            "complement_blueprint=" +:+ b.bp_Name bpTwo;
            "complement_pkg=" +:+ config.PackageNamespace cfgQuiet] in
  let o := ConstructBlueprint cfgQuiet noASLabels noRegistrations 51 bpTwo lagging in
  ∃ rounds final tail,
    (length rounds ≤ 50)%nat ∧
    trc o = trc (construct cfgQuiet noASLabels noRegistrations bpTwo lagging) ++
            [EvNow start] ++
            flat_map (λ r, [EvNow r.1; EvImageList f (Ok r.2); EvSleep 100000000])
              rounds ++
            finalEvents f final ++ tail ∧
    Forall (λ r, Sub r.1 start < 5000000000 ∧
                 (length r.2 < length (b.Homeservers bpTwo))%nat) rounds ∧
    match final with
    | FoundImages now found =>
        Sub now start < 5000000000 ∧
        (length (b.Homeservers bpTwo) ≤ length found)%nat ∧
        val o = Some None ∧
        ∃ removal, networksPass cfgQuiet removal ∧
                   tail = removal ++ constructedLine cfgQuiet bpTwo found
    | TimedOut now =>
        5000000000 ≤ Sub now start ∧
        val o = Some (Some notFound) ∧
        networksPass cfgQuiet tail
    | ListFailed now e =>
        Sub now start < 5000000000 ∧ val o = Some (Some e) ∧ tail = []
    end.
Proof.
  apply (@ConstructBlueprint_polls _ Sim.runtime cfgQuiet noASLabels noRegistrations
           Sim_monotonic 51 bpTwo lagging).
  - vm_compute. reflexivity.
  - lia.
Defined.

(** C6, counterexample: the namespace has a network of another blueprint,
    listed first, whose removal fails.  The build of [two] succeeds; the
    removal pass stops at that network, and the network of the blueprint is
    neither attempted nor removed. *)
Lemma ConstructBlueprint_leaves_its_network :
  let o := ConstructBlueprint cfgQuiet noASLabels noRegistrations 51 bpTwo otherNetwork in
  val o = Some None ∧
  networkRemoves (trc o) = [("net-other", Some (RuntimeError "network has active endpoints"))] ∧
  map (λ n, network.Name n.1) (Sim.networks (wld o))
    = ["complement_pkg_other"; "complement_pkg_two"].
Proof. vm_compute. done. Qed.

(** What [listed] means on the simulated runtime. *)
Lemma Sim_listed f (w : Sim.World) :
  listed f w ↔
  Sim.failing Sim.FailImageList w = false ∧
  ∃ i, i ∈ Sim.images w ∧ Sim.matchesAll (image.Labels i.1) f = true ∧
       i.2 ≤ Sim.clock w.
Proof.
  unfold listed. cbn. unfold Sim.ImageList.
  destruct (Sim.failing Sim.FailImageList w); cbn.
  - split; [intros (? & ? & _); done|intros [? _]; done].
  - split.
    + intros (images & [= <-] & Hne). split; [done|].
      destruct (filter _ (Sim.images w)) as [|i l] eqn:Hf; [done|].
      assert (Hi : i ∈ filter (λ i, Sim.matchesAll (image.Labels i.1) f = true ∧
                                    i.2 ≤ Sim.clock w) (Sim.images w)).
      { rewrite Hf. apply list_elem_of_here. }
      apply list_elem_of_filter in Hi as [[? ?] ?]. by exists i.
    + intros (_ & i & Hi & Hm & Hc). eexists. split; [done|].
      intros Hnil. apply fmap_nil_inv in Hnil.
      assert (Hin : i ∈ filter (λ i, Sim.matchesAll (image.Labels i.1) f = true ∧
                                     i.2 ≤ Sim.clock w) (Sim.images w)).
      { by apply list_elem_of_filter. }
      rewrite Hnil in Hin. by apply not_elem_of_nil in Hin.
Qed.

(** The catalogue of the simulated runtime keeps its images. *)
Lemma Sim_keeps : CatalogKeeps Sim.runtime.
Proof.
  split.
  - intros f g w Hsub. rewrite !Sim_listed.
    intros (Hf & i & Hi & Hm & Hc). split; [done|]. exists i. split_and!; [done| |done].
    unfold Sim.matchesAll in *. rewrite forallb_forall in *.
    intros tag Htag. apply Hm. apply list_elem_of_In. apply Hsub.
    by apply list_elem_of_In.
  - intros f g w. rewrite !Sim_listed.
    intros (Hf & i & Hi & Hm & Hc). cbn. unfold Sim.ImageList.
    rewrite Hf. cbn. split; [done|]. exists i. split_and!; [done|done|lia].
  - intros f g w. rewrite !Sim_listed.
    intros (Hf & i & Hi & Hm & Hc). cbn. unfold Sim.NetworkList.
    destruct (Sim.failing Sim.FailNetworkList w); cbn;
      (split; [done|]; exists i; split_and!; [done|done|lia]).
  - intros f id w. rewrite !Sim_listed.
    intros (Hf & i & Hi & Hm & Hc). cbn. unfold Sim.NetworkRemove.
    destruct (Sim.failing (Sim.FailNetworkRemove id) w); cbn;
      (split; [done|]; exists i; split_and!; [done|done|lia]).
Qed.

(** Two builds in a row on the simulated runtime: the second call finds the
    images of the first one and constructs nothing. *)
Example ConstructBlueprintIfNotExist_twice :
  let o1 := ConstructBlueprintIfNotExist cfgQuiet noASLabels noRegistrations 51 bpTwo
              Sim.empty in
  let o2 := ConstructBlueprintIfNotExist cfgQuiet noASLabels noRegistrations 51 bpTwo
              (wld o1) in
  val o1 = Some None ∧ length (commitAnswers (trc o1)) = 2%nat ∧
  val o2 = Some None ∧ length (trc o2) = 1%nat.
Proof. vm_compute. done. Qed.

(** C2, the ownership label: the catalogue holds an image of the blueprint
    and of the namespace that does not carry the ownership label.  The
    images with the three labels are none, and yet
    [ConstructBlueprintIfNotExist] finds an image and constructs nothing. *)
Lemma ConstructBlueprintIfNotExist_without_ownership_label :
  let o := ConstructBlueprintIfNotExist cfgQuiet noASLabels noRegistrations 51 bpTwo
             unowned in
  (complementLabel ∉ lookupFilter cfgQuiet bpTwo) ∧
  (rtImageList (blueprintFilter cfgQuiet bpTwo) unowned).1 = Ok [] ∧
  val o = Some None ∧
  trc o = [EvImageList (lookupFilter cfgQuiet bpTwo) (Ok [imgUnowned])].
Proof.
  cbv zeta. split; [|vm_compute; done].
  intros H. vm_compute in H.
  repeat (apply elem_of_cons in H as [H|H]; [discriminate H|]).
  by apply not_elem_of_nil in H.
Qed.

(** ** A blueprint without homeservers *)

Section EmptyBlueprint.
Context {W : Type} {rt : Runtime W}.
Variable Config : config.Complement.
Variable labelsForApplicationServices : b.Homeserver → gmap string string.
Variable asIDToRegistrationFromLabels : gmap string string → gmap string string.

Local Abbreviation construct' :=
  (construct Config labelsForApplicationServices asIDToRegistrationFromLabels).
Local Abbreviation construct_main' :=
  (construct_main Config labelsForApplicationServices asIDToRegistrationFromLabels).
Local Abbreviation ConstructBlueprint' :=
  (ConstructBlueprint Config labelsForApplicationServices asIDToRegistrationFromLabels).
Local Abbreviation ConstructBlueprintIfNotExist' :=
  (ConstructBlueprintIfNotExist Config labelsForApplicationServices
     asIDToRegistrationFromLabels).
Local Abbreviation network bprint :=
  (createNetworkIfNotExists (config.PackageNamespace Config) (b.bp_Name bprint)).

(** [construct] of a blueprint without homeservers: once the network is
    there and the runner created, both loops are over at once. *)
Lemma construct_no_homeservers bprint (w : W) networkName :
  b.Homeservers bprint = [] →
  val (network bprint w) = Ok networkName →
  val (construct' bprint w) = [] ∧
  wld (construct' bprint w) = afterNetwork Config bprint w ∧
  trc (construct' bprint w) =
    logEvents Config "Constructing blueprint '%s'" [AStr (b.bp_Name bprint)] ++
    trc (network bprint w) ++
    [EvNewRunner (b.bp_Name bprint) (config.BestEffort Config)
       (config.DebugLoggingEnabled Config)].
Proof.
  intros Hhs Hnet.
  destruct (construct_main_with_network Config labelsForApplicationServices
              asIDToRegistrationFromLabels bprint w networkName Hnet)
    as (Hv & Hw & Ht).
  cbv zeta in Hv, Hw, Ht. unfold frame0 in Hv, Hw, Ht. rewrite Hhs in Hv, Hw, Ht.
  cbn [construct_homeservers construct_commit ret val wld trc fst snd length
       replicate results errs deferred] in Hv, Hw, Ht.
  unfold construct. rewrite !val_bind, !wld_bind, !trc_bind, Hv, Hw, Ht.
  cbn [runDeferred ret val wld trc errs deferred]. by rewrite !app_nil_r.
Qed.

Lemma only_logEvents ks format args :
  KPrintf ∈ ks → only ks (logEvents Config format args).
Proof.
  intros Hk. unfold logEvents. destruct (config.DebugLoggingEnabled Config);
    [|constructor].
  apply only_cons; [by apply bool_decide_eq_true|constructor].
Qed.

End EmptyBlueprint.

(** ** Characters of a string *)

Section Characters.
Lemma hasChar_app c s1 s2 : hasChar c (s1 +:+ s2) = hasChar c s1 || hasChar c s2.
Proof.
  induction s1 as [|x s1 IH]; [done|]. simpl.
  by rewrite IH, orb_assoc.
Qed.

Lemma append_nil_r (s : string) : s +:+ "" = s.
Proof.
  induction s as [|x s IH]; [done|].
  change (String x s +:+ "") with (String x (s +:+ "")). by rewrite IH.
Qed.
Lemma append_assoc (s1 s2 s3 : string) : (s1 +:+ s2) +:+ s3 = s1 +:+ (s2 +:+ s3).
Proof.
  induction s1 as [|x s1 IH]; [done|].
  change ((String x s1 +:+ s2) +:+ s3) with (String x ((s1 +:+ s2) +:+ s3)).
  change (String x s1 +:+ (s2 +:+ s3)) with (String x (s1 +:+ (s2 +:+ s3))).
  by rewrite IH.
Qed.
End Characters.

(** ** Port resolver: what the answer is made of *)

Section PortResolverMore.
Import natpkg.

Lemma findPortBinding_Ok (p : PortMap) (ip : string) (port : Z) b :
  findPortBinding p ip port = Ok b →
  ∃ pre pb post, p !! portString port = Some (pre ++ pb :: post) ∧
    ((exact ip pb ∧ b = pb) ∨ (¬ exact ip pb ∧ b = rewritten ip pb)).
Proof.
  unfold findPortBinding.
  destruct (p !! portString port) as [pbs|]; [|done].
  destruct (decide _); [done|].
  destruct (findPortBinding_loop ip pbs) as [b'|] eqn:Hloop; [|done].
  intros [= ->].
  destruct (findPortBinding_loop_Some _ _ _ Hloop) as (pre & pb & post & -> & _ & Hpb).
  exists pre, pb, post. split; [done|]. tauto.
Qed.

Lemma findPortBinding_host (p : PortMap) (ip : string) (port : Z) b :
  findPortBinding p ip port = Ok b → HostIP b = ip.
Proof.
  intros (pre & pb & post & _ & [[Hx ->]|[_ ->]])%findPortBinding_Ok; [exact Hx|done].
Qed.

(** X1: the binding that [findPortBinding] returns always has the bind address
    asked for as its host address, and the host port of one of the bindings
    published for the port: an all-interfaces or an empty address is never
    handed to the caller. *)
Theorem findPortBinding_answers_bind_address (p : PortMap) (ip : string) (port : Z) b :
  findPortBinding p ip port = Ok b →
  HostIP b = ip ∧
  ∃ pb, pb ∈ default [] (p !! portString port) ∧ HostPort b = HostPort pb.
Proof.
  intros Hb. split; [by eapply findPortBinding_host|].
  apply findPortBinding_Ok in Hb as (pre & pb & post & -> & Hpb).
  exists pb. split.
  - apply elem_of_app. right. apply list_elem_of_here.
  - by destruct Hpb as [[_ ->]|[_ ->]].
Qed.

Lemma findPortBinding_answers_bind_address_witness :
  HostIP (mkPortBinding "127.0.0.1" "8080") = "127.0.0.1" ∧
  ∃ pb, pb ∈ default [] (twoBindings !! portString 80) ∧
        HostPort (mkPortBinding "127.0.0.1" "8080") = HostPort pb.
Proof.
  apply (findPortBinding_answers_bind_address twoBindings "127.0.0.1" 80).
  vm_compute. reflexivity.
Defined.

(** A format without verb in its first part, then [%s]: the operand takes
    the place of the verb. *)
Lemma Sprintf_plain (pre operand : string) :
  hasChar percent pre = false →
  Sprintf (pre +:+ "%s") [operand] = Some (pre +:+ operand).
Proof.
  induction pre as [|c pre IH]; intros Hpre.
  - transitivity (Some (operand +:+ "")); [reflexivity|].
    by rewrite append_nil_r.
  - cbn in Hpre. apply orb_false_iff in Hpre as [Hc Hpre].
    change (String c pre +:+ "%s") with (String c (pre +:+ "%s")).
    change (String c pre +:+ operand) with (String c (pre +:+ operand)).
    cbn [Sprintf]. unfold percent in Hc. rewrite Hc.
    by rewrite (IH Hpre).
Qed.

(** X2: for a bind address without [%], [endpoints] fails when one of the
    two ports cannot be resolved, with the error of the client-server port
    when both fail; otherwise the two URLs are [http://<address>:<port>]
    and [https://<address>:<port>], with the bind address as their host,
    whatever the host addresses of the bindings published, and the host
    ports of the bindings resolved. *)
Theorem endpoints_bind_address (p : PortMap) (ip : string) (csPort ssPort : Z) :
  hasChar percent ip = false →
  endpoints p ip csPort ssPort =
    Some match findPortBinding p ip csPort, findPortBinding p ip ssPort with
         | Err e, _ => Err (Errorf "Problem finding CS API port: %s" [AErr e])
         | Ok _, Err e => Err (Errorf "Problem finding SS API port: %s" [AErr e])
         | Ok cs, Ok ss =>
             Ok ("http://" +:+ ip +:+ ":" +:+ HostPort cs,
                 "https://" +:+ ip +:+ ":" +:+ HostPort ss)
         end.
Proof.
  intros Hip. unfold endpoints.
  assert (Hfmt : ∀ scheme port, hasChar percent scheme = false →
    Sprintf (scheme +:+ ip +:+ ":%s") [port] = Some (scheme +:+ ip +:+ ":" +:+ port)).
  { intros scheme port Hs.
    assert (Hpre : hasChar percent (scheme +:+ ip +:+ ":") = false).
    { rewrite !hasChar_app, Hs, Hip. reflexivity. }
    pose proof (Sprintf_plain (scheme +:+ ip +:+ ":") port Hpre) as Hp.
    rewrite !append_assoc in Hp. exact Hp. }
  destruct (findPortBinding p ip csPort) as [cs|e] eqn:Hcs; [|done].
  apply findPortBinding_host in Hcs. rewrite Hcs, (Hfmt "http://") by reflexivity.
  destruct (findPortBinding p ip ssPort) as [ss|e] eqn:Hss; [|done].
  apply findPortBinding_host in Hss. by rewrite Hss, (Hfmt "https://") by reflexivity.
Qed.
End PortResolverMore.

Lemma endpoints_bind_address_witness :
  endpoints twoBindings "127.0.0.1" 80 80 =
    Some match findPortBinding twoBindings "127.0.0.1" 80,
               findPortBinding twoBindings "127.0.0.1" 80 with
         | Err e, _ => Err (Errorf "Problem finding CS API port: %s" [AErr e])
         | Ok _, Err e => Err (Errorf "Problem finding SS API port: %s" [AErr e])
         | Ok cs, Ok ss =>
             Ok ("http://" +:+ "127.0.0.1" +:+ ":" +:+ natpkg.HostPort cs,
                 "https://" +:+ "127.0.0.1" +:+ ":" +:+ natpkg.HostPort ss)
         end.
Proof. apply endpoints_bind_address. reflexivity. Defined.

(** The URLs of that port map, and a bind address with a verb in it, for
    which the format is not one of those modelled. *)
Example endpoints_urls :
  endpoints twoBindings "127.0.0.1" 80 80 =
    Some (Ok ("http://127.0.0.1:8080", "https://127.0.0.1:8080")) ∧
  endpoints {[ "80/tcp" := [natpkg.mkPortBinding "0.0.0.0" "8080"] ]} "fe80::1%eth0" 80 80
    = None.
Proof. split; vm_compute; reflexivity. Qed.

(** ** The network of a blueprint *)

Section NetworkMore.
Context {W : Type} {rt : Runtime W}.

Local Abbreviation listFilter pkg name :=
  (label ["complement_pkg=" +:+ pkg; "complement_blueprint=" +:+ name]).
Local Abbreviation createdName pkg name := ("complement_" +:+ pkg +:+ "_" +:+ name).
Local Abbreviation createdLabels pkg name :=
  (<[complementLabel := name]>
     (<["complement_blueprint" := name]>
        (<["complement_pkg" := pkg]> (∅ : gmap string string)))).

(** X3: [createNetworkIfNotExists] succeeds in two cases only: a network of the
    blueprint is listed, and its name is that of the first one listed; or
    none is listed, the creation is answered with an identifier that is not
    empty, and the name is [complement_<namespace>_<blueprint>].  A
    creation answered with an empty identifier is never taken for a
    success, with or without a warning. *)
Theorem createNetworkIfNotExists_success pkg name (w : W) n :
  let listing := rtNetworkList (listFilter pkg name) w in
  val (createNetworkIfNotExists pkg name w) = Ok n ↔
    (∃ nw nws, listing.1 = Ok (nw :: nws) ∧ n = network.Name nw) ∨
    (listing.1 = Ok [] ∧
     ∃ resp,
       (rtNetworkCreate (createdName pkg name) (createdLabels pkg name) listing.2).1
         = Ok resp ∧
       network.cr_ID resp ≠ "" ∧ n = createdName pkg name).
Proof.
  cbv zeta. unfold createNetworkIfNotExists.
  rewrite val_bind. unfold docker_NetworkList, call. cbn [val wld].
  destruct (rtNetworkList _ w) as [[[|nw nws]|e] w1]; cbn [fst snd].
  - rewrite val_bind. unfold docker_NetworkCreate, call. cbn [val wld].
    destruct (rtNetworkCreate _ _ w1) as [[resp|e] w2]; cbn [fst snd].
    + destruct (decide (network.Warning resp ≠ "")) as [Hw|Hw];
        destruct (decide (network.cr_ID resp = "")) as [Hid|Hid];
        rewrite ?val_bind; cbn [ret val].
      all: split;
        [intros [= <-]
        |intros [(? & ? & [=] & _)|(_ & resp' & [= <-] & Hne & ->)]; try done].
      all: right; split; [done|]; by exists resp.
    + cbn [ret val]. split; [done|].
      by intros [(? & ? & [=] & _)|(_ & ? & [=] & _)].
  - rewrite val_bind. cbn [ret val]. split.
    + intros [= <-]. left. by exists nw, nws.
    + intros [(nw' & nws' & [= <- <-] & ->)|([=] & _)]. done.
  - cbn [ret val]. split; [done|].
    by intros [(? & ? & [=] & _)|([=] & _)].
Qed.

(** X4: the networks are listed once; a network is created exactly when that
    listing succeeded and named none, and then once, under the name
    [complement_<namespace>_<blueprint>] and with the ownership label, the
    blueprint and the namespace as labels. *)
Theorem createNetworkIfNotExists_calls pkg name (w : W) :
  let listing := rtNetworkList (listFilter pkg name) w in
  events [KNetworkList; KNetworkCreate] (trc (createNetworkIfNotExists pkg name w)) =
    EvNetworkList (listFilter pkg name) listing.1 ::
    match listing.1 with
    | Ok [] =>
        [EvNetworkCreate (createdName pkg name) (createdLabels pkg name)
           (rtNetworkCreate (createdName pkg name) (createdLabels pkg name) listing.2).1]
    | _ => []
    end.
Proof.
  cbv zeta. unfold createNetworkIfNotExists.
  rewrite trc_bind. unfold docker_NetworkList, call. cbn [val wld trc].
  destruct (rtNetworkList _ w) as [[[|nw nws]|e] w1]; cbn [fst snd].
  - rewrite trc_bind. unfold docker_NetworkCreate, call. cbn [val wld trc].
    destruct (rtNetworkCreate _ _ w1) as [[resp|e] w2]; cbn [fst snd]; [|done].
    destruct (decide (network.Warning resp ≠ "")) as [Hw|Hw];
      destruct (decide (network.cr_ID resp = "")) as [Hid|Hid];
      rewrite ?trc_bind; cbn [ret trc log_Printf emit];
      rewrite ?decide_True by done; rewrite ?decide_False by done; done.
  - rewrite trc_bind. destruct (decide _); done.
  - done.
Qed.
End NetworkMore.

(** ** Construction: the ways out *)

Section ConstructMore.
Context {W : Type} {rt : Runtime W}.
Variable Config : config.Complement.
Variable labelsForApplicationServices : b.Homeserver → gmap string string.
Variable asIDToRegistrationFromLabels : gmap string string → gmap string string.

Local Abbreviation constructHS :=
  (constructHomeserver Config labelsForApplicationServices asIDToRegistrationFromLabels).
Local Abbreviation construct_main' :=
  (construct_main Config labelsForApplicationServices asIDToRegistrationFromLabels).
Local Abbreviation construct' :=
  (construct Config labelsForApplicationServices asIDToRegistrationFromLabels).
Local Abbreviation ConstructBlueprint' :=
  (ConstructBlueprint Config labelsForApplicationServices asIDToRegistrationFromLabels).
Local Abbreviation network bprint :=
  (createNetworkIfNotExists (config.PackageNamespace Config) (b.bp_Name bprint)).

(** The kinds of the calls of [construct]: those of its body and those of
    the deferred calls. *)
Lemma only_construct bprint (w : W) :
  only (bodyKinds ++ [KContainerInspect; KContainerKill]) (trc (construct' bprint w)).
Proof.
  unfold construct. rewrite !trc_bind.
  apply only_app.
  { eapply only_mono; [|apply only_construct_main]. sub_kinds. }
  apply only_app; [|constructor].
  eapply only_mono; [|apply only_runDeferred]. sub_kinds.
Qed.

(** X5: when the network of the blueprint cannot be provided, [construct]
    returns that one error and does nothing else: no runner is created, no
    homeserver deployed, no container touched, and nothing is deferred. *)
Theorem construct_without_network bprint (w : W) e :
  val (network bprint w) = Err e →
  val (construct' bprint w) = [e] ∧
  trc (construct' bprint w) =
    logEvents Config "Constructing blueprint '%s'" [AStr (b.bp_Name bprint)] ++
    trc (network bprint w) ∧
  only [KPrintf; KNetworkList; KNetworkCreate] (trc (construct' bprint w)).
Proof.
  intros Hnet.
  destruct (construct_main_no_network Config labelsForApplicationServices
              asIDToRegistrationFromLabels bprint w e Hnet) as [Hv Ht].
  assert (Htrc : trc (construct' bprint w) =
    logEvents Config "Constructing blueprint '%s'" [AStr (b.bp_Name bprint)] ++
    trc (network bprint w)).
  { unfold construct. rewrite !trc_bind, Hv, Ht.
    cbn [runDeferred ret trc deferred]. by rewrite !app_nil_r. }
  split_and!.
  - unfold construct. rewrite !val_bind, Hv. done.
  - exact Htrc.
  - rewrite Htrc. apply only_app; [apply only_logEvents; in_list|].
    eapply only_mono; [|apply only_createNetworkIfNotExists]. sub_kinds.
Qed.

Lemma logEach_out errs0 (w : W) :
  trc (logEach Config errs0 w) =
    flat_map (λ e, logEvents Config "could not construct blueprint: %s" [AErr e]) errs0 ∧
  wld (logEach Config errs0 w) = w.
Proof.
  induction errs0 as [|e errs0 [IHt IHw]]; [done|].
  cbn [logEach flat_map]. by rewrite trc_bind, wld_bind, wld_log, trc_log, IHt, IHw.
Qed.

(** X6: when [construct] reports errors, [ConstructBlueprint] hands each of
    them to the logger and returns one error made of all of them.  It stops
    there: it does not wait for images, and it does not remove the networks
    of the namespace, so the network of the blueprint is left behind. *)
Theorem ConstructBlueprint_construct_errors fuel bprint (w : W) :
  val (construct' bprint w) ≠ [] →
  let errs0 := val (construct' bprint w) in
  let o := ConstructBlueprint' fuel bprint w in
  val o = Some (Some (Errorf "errors whilst constructing blueprint %s: %v"
                        [AStr (b.bp_Name bprint); AList (map AErr errs0)])) ∧
  trc o = trc (construct' bprint w) ++
          flat_map (λ e, logEvents Config "could not construct blueprint: %s" [AErr e])
            errs0 ∧
  wld o = wld (construct' bprint w) ∧
  events [KNow; KSleep; KImageList; KNetworkRemove] (trc o) = [].
Proof.
  intros Hne errs0 o.
  destruct (logEach_out errs0 (wld (construct' bprint w))) as [Hlt Hlw].
  assert (Hlen : (0 < length errs0)%nat).
  { subst errs0. destruct (val (construct' bprint w)); [done|cbn; lia]. }
  assert (Ht : trc o = trc (construct' bprint w) ++
    flat_map (λ e, logEvents Config "could not construct blueprint: %s" [AErr e]) errs0).
  { subst o. unfold ConstructBlueprint. rewrite trc_bind. fold errs0.
    rewrite decide_True by done. rewrite trc_bind, Hlt.
    cbn [ret trc]. by rewrite app_nil_r. }
  split_and!.
  - subst o. unfold ConstructBlueprint. rewrite val_bind. fold errs0.
    rewrite decide_True by done. by rewrite val_bind.
  - exact Ht.
  - subst o. unfold ConstructBlueprint. rewrite wld_bind. fold errs0.
    rewrite decide_True by done. by rewrite wld_bind, Hlw.
  - rewrite Ht, events_app.
    rewrite (events_only _ _ _ (only_construct bprint w)) by reflexivity.
    apply (events_only [KPrintf]); [|reflexivity].
    clear. induction errs0 as [|e errs0 IH]; [constructor|].
    cbn [flat_map]. apply only_app; [apply only_logEvents; in_list|exact IH].
Qed.

(** X7: [constructHomeserver] deploys the base image once, under the context
    [<namespace>.<blueprint>.<homeserver>]; the image is that of the
    homeserver if it names one, else that configured for its name, else the
    default one.  When the deployment fails, the
    instructions of the homeserver are not run, the error is that of the
    deployment, the container is the one the deployment left, if any, and
    the failure is printed whether debug logging is enabled or not.  When it
    succeeds, the instructions are run once against the base URL of the
    deployment, and the error of the result is their answer. *)
Theorem constructHomeserver_outcome name hs nw (w : W) :
  let ctx := config.PackageNamespace Config +:+ "." +:+ name +:+ "." +:+ b.Name hs in
  let o := constructHS name hs nw w in
  contextStr (val o) = ctx ∧ homeserver (val o) = hs ∧
  ∃ a answer,
    events [KDeployImage] (trc o) = [EvDeployImage a answer] ∧
    da_contextStr a = ctx ∧ da_containerName a = "complement_" +:+ ctx ∧
    da_networkName a = nw ∧ da_hsName a = b.Name hs ∧
    da_blueprintName a = name ∧
    da_imageID a =
      match b.BaseImageURI hs, config.BaseImageURIs Config !! b.Name hs with
      | Some uri, _ => uri
      | None, Some uri => uri
      | None, None => config.BaseImageURI Config
      end ∧
    match answer with
    | DeployFailed dep e =>
        err (val o) = Some e ∧
        containerID (val o) =
          match dep with Some dep => ContainerID dep | None => "" end ∧
        events [KRunnerRun] (trc o) = [] ∧
        EvPrintf "%s : failed to deployBaseImage: %s\n" [AStr ctx; AErr e] ∈ trc o
    | Deployed dep =>
        containerID (val o) = ContainerID dep ∧
        ∃ r, events [KRunnerRun] (trc o) = [EvRunnerRun hs (BaseURL dep) r] ∧
             err (val o) = r
    end.
Proof.
  cbv zeta. unfold constructHomeserver, deployBaseImage, deployImage.
  rewrite !val_bind, !trc_bind, ?wld_bind, ?wld_log, trc_log.
  unfold call. cbn [val wld trc].
  set (a := mkDeployArgs _ _ _ _ _ _ _ _).
  assert (Hlog : ∀ ks f args, KPrintf ∉ ks → events ks (logEvents Config f args) = []).
  { intros ks f args Hk. unfold logEvents.
    destruct (config.DebugLoggingEnabled Config); [|done].
    apply events_cons_out. by apply bool_decide_eq_false. }
  destruct (rtDeployImage a w) as [[dep|dep e] w1]; cbn [fst snd].
  - rewrite !val_bind, !trc_bind, ?wld_bind, ?wld_log, trc_log.
    unfold runner_Run, call. cbn [val wld trc].
    destruct (rtRunnerRun hs (BaseURL dep) w1) as [r w2]; cbn [fst snd].
    rewrite ?val_bind, ?trc_bind.
    assert (Hn1 : KPrintf ∉ [KDeployImage]) by (by intros [=]%list_elem_of_singleton).
    assert (Hn2 : KPrintf ∉ [KRunnerRun]) by (by intros [=]%list_elem_of_singleton).
    destruct r as [er|]; rewrite ?trc_log;
      cbn [ret val trc contextStr homeserver containerID err].
    all: split_and!; [done|done|]; exists a, (Deployed dep).
    all: split_and!; try done.
    all: try (eexists; split; [|reflexivity]).
    all: rewrite !events_app, ?Hlog by done; done.
  - rewrite ?val_bind, ?trc_bind.
    cbn [ret val trc log_Printf emit contextStr homeserver containerID err].
    split_and!; [done|done|]. exists a, (DeployFailed dep e).
    assert (Hn1 : KPrintf ∉ [KDeployImage]) by (by intros [=]%list_elem_of_singleton).
    assert (Hn2 : KPrintf ∉ [KRunnerRun]) by (by intros [=]%list_elem_of_singleton).
    split_and!; try done.
    + rewrite !events_app, !Hlog by done. done.
    + rewrite !events_app, !Hlog by done. done.
    + apply elem_of_app. right. apply elem_of_app. right.
      apply elem_of_app. left. apply list_elem_of_here.
Qed.
End ConstructMore.

Lemma construct_without_network_witness :
  val (construct cfgQuiet noASLabels noRegistrations bpTwo networkFails) =
    [Errorf "%s: failed to create docker network. %w"
       [AStr "two"; AErr (RuntimeError "cannot create network")]] ∧
  trc (construct cfgQuiet noASLabels noRegistrations bpTwo networkFails) =
    logEvents cfgQuiet "Constructing blueprint '%s'" [AStr (b.bp_Name bpTwo)] ++
    trc (createNetworkIfNotExists (config.PackageNamespace cfgQuiet) (b.bp_Name bpTwo)
           networkFails) ∧
  only [KPrintf; KNetworkList; KNetworkCreate]
    (trc (construct cfgQuiet noASLabels noRegistrations bpTwo networkFails)).
Proof.
  apply (construct_without_network cfgQuiet noASLabels noRegistrations bpTwo networkFails).
  vm_compute. reflexivity.
Defined.

(** A commit fails: the build reports the error, and the network that
    [construct] created is still there afterwards. *)
Example ConstructBlueprint_leaves_network :
  let o := ConstructBlueprint cfgQuiet noASLabels noRegistrations 51 bpTwo commitFails in
  val o = Some (Some (Errorf "errors whilst constructing blueprint %s: %v"
    [AStr "two";
     AList [AErr (Errorf "%s : failed to ContainerCommit: %w"
                    [AStr "pkg.two.hs1"; AErr (RuntimeError "cannot commit container")])]])) ∧
  map (λ n, network.Name n.1) (Sim.networks (wld o)) = ["complement_pkg_two"].
Proof. vm_compute. done. Qed.

Lemma ConstructBlueprint_construct_errors_witness :
  let errs0 := val (construct cfgQuiet noASLabels noRegistrations bpTwo commitFails) in
  let o := ConstructBlueprint cfgQuiet noASLabels noRegistrations 51 bpTwo commitFails in
  val o = Some (Some (Errorf "errors whilst constructing blueprint %s: %v"
                        [AStr (b.bp_Name bpTwo); AList (map AErr errs0)])) ∧
  trc o = trc (construct cfgQuiet noASLabels noRegistrations bpTwo commitFails) ++
          flat_map (λ e, logEvents cfgQuiet "could not construct blueprint: %s" [AErr e])
            errs0 ∧
  wld o = wld (construct cfgQuiet noASLabels noRegistrations bpTwo commitFails) ∧
  events [KNow; KSleep; KImageList; KNetworkRemove] (trc o) = [].
Proof.
  apply (ConstructBlueprint_construct_errors cfgQuiet noASLabels noRegistrations 51 bpTwo
           commitFails).
  vm_compute. discriminate.
Defined.

(** ** Garbage collection without debug logging *)

Section CleanupMore.
Context {W : Type} {rt : Runtime W}.
Variable Config : config.Complement.

Lemma quiet_log format args (w : W) :
  config.DebugLoggingEnabled Config = false → trc (log Config format args w) = [].
Proof. intros Hq. rewrite log_out. unfold logEvents. cbn. by rewrite Hq. Qed.

Lemma quiet_removeImages_loop imgs : ∀ (w : W),
  config.DebugLoggingEnabled Config = false →
  only [KImageRemove] (trc (removeImages_loop Config imgs w)).
Proof.
  induction imgs as [|img imgs IH]; intros w Hq; [constructor|].
  cbn [removeImages_loop].
  destruct (negb (isLocalhost (image.RepoTags img))).
  { rewrite trc_bind, quiet_log by done. apply IH, Hq. }
  destruct (keepBlueprint _ _).
  { rewrite trc_bind, quiet_log by done. apply IH, Hq. }
  rewrite trc_bind. apply only_app; [by apply only_cons; [|constructor]|].
  destruct (val _); [constructor|by apply IH].
Qed.

Lemma quiet_removeImages (w : W) :
  config.DebugLoggingEnabled Config = false →
  only [KImageList; KImageRemove] (trc (removeImages Config w)).
Proof.
  intros Hq. unfold removeImages. rewrite trc_bind.
  unfold docker_ImageList, call. cbn [val wld trc].
  apply only_cons; [done|].
  destruct ((rtImageList _ w).1); [|constructor].
  eapply only_mono; [|by apply quiet_removeImages_loop]. sub_kinds.
Qed.

(** X8: with debug logging disabled [Cleanup] prints nothing, whatever fails:
    its calls are the three listings and the removals, and the errors of
    the passes are lost. *)
Theorem Cleanup_quiet (w : W) :
  config.DebugLoggingEnabled Config = false →
  only [KContainerList; KContainerRemove; KImageList; KImageRemove;
        KNetworkList; KNetworkRemove] (trc (Cleanup Config w)) ∧
  printed (trc (Cleanup Config w)) = [].
Proof.
  intros Hq.
  assert (Ho : only [KContainerList; KContainerRemove; KImageList; KImageRemove;
                     KNetworkList; KNetworkRemove] (trc (Cleanup Config w))).
  { assert (Hl : ∀ format e (w' : W),
      trc (match e with
           | Some e => log Config format [AErr e]
           | None => ret tt
           end w') = []).
    { intros format [e|] w'; [by apply quiet_log|done]. }
    unfold Cleanup. rewrite !trc_bind, !Hl. cbn [app].
    apply only_app; [|apply only_app; [|apply only_app; [|constructor]]].
    - destruct (removeContainers_pass Config w) as (rc & ec & tc & -> & Hc & _).
      apply only_cons; [done|]. eapply only_mono; [|exact Hc]. sub_kinds.
    - eapply only_mono; [|by apply quiet_removeImages]. sub_kinds.
    - match goal with |- only _ (trc (removeNetworks _ ?w')) =>
        destruct (removeNetworks_pass Config w') as (rn & en & tn & -> & Hn & _) end.
      apply only_cons; [done|]. eapply only_mono; [|exact Hn]. sub_kinds. }
  split; [exact Ho|].
  unfold printed. apply (omap_only _ _ _ Ho). by_kind.
Qed.
End CleanupMore.

Lemma Cleanup_quiet_witness :
  only [KContainerList; KContainerRemove; KImageList; KImageRemove;
        KNetworkList; KNetworkRemove] (trc (Cleanup cfgQuiet twoContainers)) ∧
  printed (trc (Cleanup cfgQuiet twoContainers)) = [].
Proof. apply (Cleanup_quiet cfgQuiet twoContainers). reflexivity. Defined.

(** ** The other labels of a committed image *)

Section LabelsMore.
Lemma addAll_plain (m labels : gmap string string) k :
  addAll "" m labels !! k =
    match m !! k with Some v => Some v | None => labels !! k end.
Proof. exact (addAll_lookup "" m labels k). Qed.

Lemma tokenLabels_device bprint (toks : gmap string string) u :
  tokenLabels bprint toks !! ("device_id" +:+ u) = None.
Proof.
  destruct (tokenLabels bprint toks !! ("device_id" +:+ u)) as [v|] eqn:Hl; [|done].
  apply tokenLabels_keys in Hl as [u' Hu]. discriminate Hu.
Qed.

(** The labels of a commit, by their origin. *)
Lemma commitLabels_origin bprint (toks devs asl : gmap string string) :
  let labels := commitLabels bprint toks devs asl in
  (∀ k v, asl !! k = Some v → labels !! k = Some v) ∧
  (∀ u, asl !! ("device_id" +:+ u) = None →
        labels !! ("device_id" +:+ u) = devs !! u) ∧
  (∀ k v, labels !! k = Some v →
     asl !! k = Some v ∨
     (∃ u, k = "device_id" +:+ u ∧ devs !! u = Some v) ∨
     (∃ u, k = "access_token_" +:+ u ∧ retained bprint toks u = Some v)).
Proof.
  cbv zeta. unfold commitLabels. split_and!.
  - intros k v Hk. by rewrite addAll_plain, Hk.
  - intros u Hu. rewrite addAll_plain, Hu, addAll_lookup, tokenLabels_device.
    by destruct (devs !! u).
  - intros k v. rewrite addAll_plain. destruct (asl !! k) as [x|] eqn:Ha.
    { intros [= ->]. by left. }
    intros [Ht|(u & -> & Hd)]%addAll_lookup_Some.
    + right. right. destruct (tokenLabels_keys _ _ _ _ Ht) as [u ->].
      exists u. split; [done|]. by rewrite <- tokenLabels_lookup.
    + right. left. by exists u.
Qed.
End LabelsMore.

Section CommitMore.
Context {W : Type} {rt : Runtime W}.
Variable Config : config.Complement.
Variable labelsForApplicationServices : b.Homeserver → gmap string string.

Local Abbreviation construct_commit' :=
  (construct_commit Config labelsForApplicationServices).

(** X9: the changes that every commit asks for are the directives
    [LABEL "k"="v"] of a set of labels, one for each label, which holds all
    the labels of the application services of the homeserver, as they are;
    for every device identifier that the runner answered, the label
    [device_id<user>] (no separator), unless an application service label
    has that name; and no label of another origin than these and the access
    tokens retained. *)
Theorem commit_device_and_service_labels bprint rs errs0 (w : W) id o resp :
  EvContainerCommit id o resp ∈ trc (construct_commit' bprint rs errs0 w) →
  ∃ r toks devs (labels : gmap string string),
    r ∈ rs ∧ id = containerID r ∧
    EvDeviceIDs (b.Name (homeserver r)) devs
      ∈ trc (construct_commit' bprint rs errs0 w) ∧
    (∀ c, c ∈ container.Changes o ↔
          ∃ k v, labels !! k = Some v ∧ c = directive k v) ∧
    length (container.Changes o) = size labels ∧
    (∀ k v, labelsForApplicationServices (homeserver r) !! k = Some v →
            labels !! k = Some v ∧ directive k v ∈ container.Changes o) ∧
    (∀ u, labelsForApplicationServices (homeserver r) !! ("device_id" +:+ u) = None →
          labels !! ("device_id" +:+ u) = devs !! u) ∧
    (∀ k v, labels !! k = Some v →
       labelsForApplicationServices (homeserver r) !! k = Some v ∨
       (∃ u, k = "device_id" +:+ u ∧ devs !! u = Some v) ∨
       (∃ u, k = "access_token_" +:+ u ∧ retained bprint toks u = Some v)).
Proof.
  intros (r & toks & devs & Hr & _ & Hid & _ & Hd & ->)%construct_commit_options.
  exists r, toks, devs,
    (commitLabels bprint toks devs (labelsForApplicationServices (homeserver r))).
  destruct (commitLabels_origin bprint toks devs
              (labelsForApplicationServices (homeserver r))) as (H1 & H2 & H3).
  destruct (toChanges_labels
              (commitLabels bprint toks devs (labelsForApplicationServices (homeserver r))))
    as [Hin Hlen].
  split_and!; try done.
  intros k v Hk. split; [by apply H1|].
  apply Hin. exists k, v. split; [by apply H1|done].
Qed.

(** X10: every image that the builder commits is named
    [localhost/complement:<context>], by the author [Complement], with the
    container paused: a name that the garbage collector takes for a local
    one, so that an image with that only name is removed by [Cleanup] unless
    its blueprint is kept. *)
Theorem commit_reference_is_local bprint rs errs0 (w : W) id o resp :
  EvContainerCommit id o resp ∈ trc (construct_commit' bprint rs errs0 w) →
  (∃ r, r ∈ rs ∧ id = containerID r ∧
        container.Reference o = "localhost/complement:" +:+ contextStr r) ∧
  container.Author o = "Complement" ∧ container.Pause o = true ∧
  isLocalhost [container.Reference o] = true ∧
  ∀ img, image.RepoTags img = [container.Reference o] →
         blueprintOf img ∉ config.KeepBlueprints Config → eligible Config img.
Proof.
  intros (r & toks & devs & Hr & _ & Hid & _ & _ & ->)%construct_commit_options.
  assert (Hloc : isLocalhost [container.Reference (commitOptions r
      (commitLabels bprint toks devs (labelsForApplicationServices (homeserver r))))]
      = true) by reflexivity.
  split_and!; [by exists r|done|done|exact Hloc|].
  intros img Htags Hkeep. split; [|done].
  rewrite Htags. by apply isLocalhost_spec.
Qed.
End CommitMore.

Lemma commit_device_and_service_labels_witness :
  let o := commitOptions resultAlice
             (commitLabels bpAll {[ "@alice:x" := "tokA" ]} {[ "@alice:x" := "DEVA" ]}
                (bridgeLabels hs1)) in
  ∃ r toks devs (labels : gmap string string),
    r ∈ [resultAlice] ∧ "cid-pkg.alice.hs1" = containerID r ∧
    EvDeviceIDs (b.Name (homeserver r)) devs
      ∈ trc (construct_commit cfgQuiet bridgeLabels bpAll [resultAlice] []
               aliceDeviceContainer) ∧
    (∀ c, c ∈ container.Changes o ↔
          ∃ k v, labels !! k = Some v ∧ c = directive k v) ∧
    length (container.Changes o) = size labels ∧
    (∀ k v, bridgeLabels (homeserver r) !! k = Some v →
            labels !! k = Some v ∧ directive k v ∈ container.Changes o) ∧
    (∀ u, bridgeLabels (homeserver r) !! ("device_id" +:+ u) = None →
          labels !! ("device_id" +:+ u) = devs !! u) ∧
    (∀ k v, labels !! k = Some v →
       bridgeLabels (homeserver r) !! k = Some v ∨
       (∃ u, k = "device_id" +:+ u ∧ devs !! u = Some v) ∨
       (∃ u, k = "access_token_" +:+ u ∧ retained bpAll toks u = Some v)).
Proof.
  apply (commit_device_and_service_labels cfgQuiet bridgeLabels bpAll [resultAlice] []
           aliceDeviceContainer "cid-pkg.alice.hs1" _ (Ok "sha256:cid-pkg.alice.hs1")).
  apply list_elem_of_In. vm_compute.
  repeat (first [left; reflexivity | right]).
Defined.

(** The changes of that commit: the token, the device and the application
    service. *)
Example commit_three_directives :
  let changes :=
    omap (λ e, match e with
               | EvContainerCommit _ o (Ok _) => Some (container.Changes o)
               | _ => None
               end)
      (trc (construct_commit cfgQuiet bridgeLabels bpAll [resultAlice] []
              aliceDeviceContainer)) in
  ∃ l, changes = [l] ∧ length l = 3%nat ∧
       directive "access_token_@alice:x" "tokA" ∈ l ∧
       directive "device_id@alice:x" "DEVA" ∈ l ∧
       directive "application_service_bridge" "id: bridge" ∈ l.
Proof.
  eexists. split; [vm_compute; reflexivity|].
  split; [reflexivity|].
  split_and!; apply list_elem_of_In; vm_compute; tauto.
Qed.

(** The labels of that commit: the token, the device and the application
    service. *)
Example commit_three_labels :
  commitLabels bpAll {[ "@alice:x" := "tokA" ]} {[ "@alice:x" := "DEVA" ]}
    (bridgeLabels hs1)
  = <["access_token_@alice:x" := "tokA"]>
      (<["device_id@alice:x" := "DEVA"]>
         (<["application_service_bridge" := "id: bridge"]> ∅)).
Proof. vm_compute. reflexivity. Qed.

Lemma commit_reference_is_local_witness :
  let o := commitOptions resultAlice
             (commitLabels bpAll {[ "@alice:x" := "tokA" ]} {[ "@alice:x" := "DEVA" ]}
                (bridgeLabels hs1)) in
  (∃ r, r ∈ [resultAlice] ∧ "cid-pkg.alice.hs1" = containerID r ∧
        container.Reference o = "localhost/complement:" +:+ contextStr r) ∧
  container.Author o = "Complement" ∧ container.Pause o = true ∧
  isLocalhost [container.Reference o] = true ∧
  ∀ img, image.RepoTags img = [container.Reference o] →
         blueprintOf img ∉ config.KeepBlueprints cfgQuiet → eligible cfgQuiet img.
Proof.
  apply (commit_reference_is_local cfgQuiet bridgeLabels bpAll [resultAlice] []
           aliceDevice "cid-pkg.alice.hs1" _ (Err (RuntimeError "No such container"))).
  apply list_elem_of_In. vm_compute.
  repeat (first [left; reflexivity | right]).
Defined.

(** ** Directives and registrations *)

Section StringsMore.
Lemma length_append (s1 s2 : string) :
  String.length (s1 +:+ s2) = (String.length s1 + String.length s2)%nat.
Proof. induction s1 as [|x s1 IH]; [done|]. simpl. by rewrite IH. Qed.

Lemma append_inj_r (s s' d : string) : s +:+ d = s' +:+ d → s = s'.
Proof.
  intros Heq.
  assert (Hlen : String.length s = String.length s').
  { apply (f_equal String.length) in Heq.
    rewrite !length_append in Heq. lia. }
  revert s' Heq Hlen. induction s as [|x s IH]; intros [|x' s'] Heq Hlen;
    try discriminate Hlen; [done|].
  cbn in Heq. injection Heq as -> Heq. f_equal. apply IH; [done|].
  cbn in Hlen. lia.
Qed.

(** Two strings without [c], each followed by [c]: what comes first is the
    same in both. *)
Lemma split_at_char c (k k' r r' : string) :
  hasChar c k = false → hasChar c k' = false →
  k +:+ String c r = k' +:+ String c r' → k = k' ∧ r = r'.
Proof.
  revert k'. induction k as [|x k IH]; intros [|x' k'] Hk Hk' Heq; cbn in *.
  - by injection Heq as ->.
  - injection Heq as <- _. by rewrite Ascii.eqb_refl in Hk'.
  - injection Heq as -> _. by rewrite Ascii.eqb_refl in Hk.
  - injection Heq as -> Heq.
    apply orb_false_iff in Hk as [_ Hk]. apply orb_false_iff in Hk' as [_ Hk'].
    destruct (IH k' Hk Hk' Heq) as [-> ->]. done.
Qed.

Lemma directive_inj k v k' v' :
  hasChar doubleQuote k = false → hasChar doubleQuote k' = false →
  directive k v = directive k' v' → k = k' ∧ v = v'.
Proof.
  intros Hk Hk' Heq. unfold directive, dquote in Heq.
  apply (append_inj "LABEL ") in Heq. cbn [String.append] in Heq.
  injection Heq as Heq.
  change (k +:+ String doubleQuote ("=" +:+ String doubleQuote "" +:+ v +:+
            String doubleQuote "") =
          k' +:+ String doubleQuote ("=" +:+ String doubleQuote "" +:+ v' +:+
            String doubleQuote "")) in Heq.
  apply split_at_char in Heq as [-> Heq]; [|done|done]. split; [done|].
  cbn [String.append] in Heq. injection Heq as Heq.
  apply (append_inj_r v v' (String doubleQuote "")). exact Heq.
Qed.

(** X11: [toChanges] writes one directive [LABEL "k"="v"] for every label, and
    nothing else; the keys and values are copied as they are, without any
    escaping.  When no key holds a double quote, different labels give
    different directives, so that no directive is written twice. *)
Theorem toChanges_directives (labels : gmap string string) :
  length (toChanges labels) = size labels ∧
  (∀ c, c ∈ toChanges labels ↔ ∃ k v, labels !! k = Some v ∧ c = directive k v) ∧
  ((∀ k v, labels !! k = Some v → hasChar doubleQuote k = false) →
   NoDup (toChanges labels)).
Proof.
  unfold toChanges. split_and!.
  - by rewrite length_map, length_map_to_list.
  - intros c. split.
    + intros ([k v] & -> & Hkv%elem_of_map_to_list)%list_elem_of_fmap.
      by exists k, v.
    + intros (k & v & Hkv & ->). apply list_elem_of_fmap. exists (k, v).
      split; [done|]. by apply elem_of_map_to_list.
  - intros Hq. apply NoDup_fmap_2_strong.
    + intros [k v] [k' v'] Hin%elem_of_map_to_list Hin'%elem_of_map_to_list Heq.
      cbn in Heq. apply directive_inj in Heq as [-> ->]; [done| |].
      * by eapply Hq.
      * by eapply Hq.
    + apply NoDup_map_to_list.
Qed.

(** X12: the registration of an application service is written on one line: it
    holds a line feed only if one of the fields of the service does. *)
Theorem generateASRegistrationYaml_one_line (as_ : b.ApplicationService) :
  hasChar lineFeed (b.ID as_) = false →
  hasChar lineFeed (b.HSToken as_) = false →
  hasChar lineFeed (b.ASToken as_) = false →
  hasChar lineFeed (b.URL as_) = false →
  hasChar lineFeed (b.SenderLocalpart as_) = false →
  hasChar lineFeed (generateASRegistrationYaml as_) = false.
Proof.
  intros H1 H2 H3 H4 H5. unfold generateASRegistrationYaml.
  rewrite !hasChar_app, H1, H2, H3, H4, H5.
  by destruct (b.RateLimited as_), (b.SendEphemeral as_), (b.EnableEncryption as_).
Qed.
End StringsMore.

Lemma generateASRegistrationYaml_one_line_witness :
  hasChar lineFeed
    (generateASRegistrationYaml
       (b.mkApplicationService "bridge" "hs" "as" "http://bridge:9000" "bot"
          true false false)) = false.
Proof.
  apply generateASRegistrationYaml_one_line; reflexivity.
Defined.

(** ** Construction: when no error is returned *)

Section ConstructSuccess.
Context {W : Type} {rt : Runtime W}.
Variable Config : config.Complement.
Variable labelsForApplicationServices : b.Homeserver → gmap string string.
Variable asIDToRegistrationFromLabels : gmap string string → gmap string string.

Local Abbreviation constructHS :=
  (constructHomeserver Config labelsForApplicationServices asIDToRegistrationFromLabels).
Local Abbreviation constructAll' :=
  (constructAll Config labelsForApplicationServices asIDToRegistrationFromLabels).
Local Abbreviation construct_main' :=
  (construct_main Config labelsForApplicationServices asIDToRegistrationFromLabels).
Local Abbreviation construct' :=
  (construct Config labelsForApplicationServices asIDToRegistrationFromLabels).
Local Abbreviation construct_commit' :=
  (construct_commit Config labelsForApplicationServices).
Local Abbreviation network bprint :=
  (createNetworkIfNotExists (config.PackageNamespace Config) (b.bp_Name bprint)).
Local Abbreviation constructed bprint networkName w :=
  (constructAll' (b.bp_Name bprint) networkName (b.Homeservers bprint)
     (afterNetwork Config bprint w)).

(** The first homeserver that fails, if one does. *)
Lemma constructAll_first_failure name nw hss : ∀ (w : W),
  ¬ Forall succeeded (val (constructAll' name nw hss w)) →
  ∃ pre hs post e,
    hss = pre ++ hs :: post ∧
    Forall succeeded (val (constructAll' name nw pre w)) ∧
    err (val (constructHS name hs nw (wld (constructAll' name nw pre w)))) = Some e.
Proof.
  induction hss as [|hs hss IH]; intros w Hno.
  - destruct Hno. constructor.
  - destruct (constructAll_cons Config labelsForApplicationServices
                asIDToRegistrationFromLabels name nw hs hss w) as (Hv & _ & _).
    rewrite Hv in Hno.
    destruct (err (val (constructHS name hs nw w))) as [e|] eqn:He.
    + exists [], hs, hss, e. split_and!; [done|constructor|done].
    + destruct (IH (wld (constructHS name hs nw w))) as (pre & h & post & e & -> & Hok & Hf).
      { intros Hall. apply Hno. by constructor. }
      exists (hs :: pre), h, post, e.
      destruct (constructAll_cons Config labelsForApplicationServices
                  asIDToRegistrationFromLabels name nw hs pre w) as (Hv' & Hw' & _).
      rewrite Hv', Hw'. split_and!; [done|by constructor|done].
Qed.

(** When every homeserver is constructed, the errors of [construct] are
    those of its commits. *)
Lemma construct_commit_errors bprint (w : W) networkName :
  val (network bprint w) = Ok networkName →
  Forall succeeded (val (constructed bprint networkName w)) →
  let rs := val (constructed bprint networkName w) in
  let t := trc (construct' bprint w) in
  length (commitAnswers t) = length rs ∧
  val (construct' bprint w) = commitErrors rs (commitAnswers t).
Proof.
  intros Hnet Hok rs t.
  destruct (construct_main_completed Config labelsForApplicationServices
              asIDToRegistrationFromLabels bprint w networkName Hnet Hok)
    as (Hv & Hw & Ht).
  cbv zeta in Hv, Hw, Ht. fold rs in Hv, Hw, Ht.
  set (c := construct_commit' bprint rs [] _) in Hv, Hw, Ht.
  destruct (construct_commit_calls Config labelsForApplicationServices bprint rs []
              (wld (constructed bprint networkName w)) Hok) as (_ & Hc2 & Hc3).
  cbv zeta in Hc2, Hc3. fold c in Hc2, Hc3.
  assert (Ha : commitAnswers t = commitAnswers (trc c)).
  { subst t. unfold construct. rewrite !trc_bind, Ht.
    cbn [ret trc]. rewrite !app_nil_r. unfold commitAnswers. rewrite !omap_app.
    rewrite omap_logEvents by done.
    rewrite (omap_only _ _ _ (only_createNetworkIfNotExists _ _ w)) by by_kind.
    rewrite (omap_only _ _ _ (only_constructAll Config labelsForApplicationServices
               asIDToRegistrationFromLabels _ _ _ _)) by by_kind.
    rewrite (omap_only _ _ _ (only_runDeferred Config _ _)) by by_kind.
    cbn [omap list_omap app]. by rewrite app_nil_r. }
  rewrite Ha. split; [exact Hc2|].
  unfold construct. rewrite !val_bind, Hv. cbn [ret val errs]. exact Hc3.
Qed.

Lemma commitErrors_nil rs answers :
  length answers = length rs →
  commitErrors rs answers = [] ↔ Forall (λ a, ∃ id, a = Ok id) answers.
Proof.
  revert answers. induction rs as [|r rs IH]; intros [|a answers] Hlen;
    try discriminate Hlen.
  - split; [constructor|done].
  - injection Hlen as Hlen. specialize (IH answers Hlen).
    unfold commitErrors in *. cbn [zip zip_with omap list_omap snd fst].
    destruct a as [id|e].
    + rewrite IH. split; [intros ?; constructor; [by exists id|done]|].
      by intros [_ ?]%Forall_cons.
    + split; [done|]. by intros [[id [=]] _]%Forall_cons.
Qed.

(** X13: [construct] returns no error exactly when the network was provided,
    every homeserver was deployed and set up without error, and every commit
    was answered with an image. *)
Theorem construct_no_error_iff bprint (w : W) :
  val (construct' bprint w) = [] ↔
  ∃ networkName,
    val (network bprint w) = Ok networkName ∧
    Forall succeeded (val (constructed bprint networkName w)) ∧
    length (commitAnswers (trc (construct' bprint w))) = length (b.Homeservers bprint) ∧
    Forall (λ a, ∃ id, a = Ok id) (commitAnswers (trc (construct' bprint w))).
Proof.
  split.
  - intros Hnil.
    destruct (val (network bprint w)) as [networkName|e] eqn:Hnet.
    2:{ destruct (construct_main_no_network Config labelsForApplicationServices
                    asIDToRegistrationFromLabels bprint w e Hnet) as [Hv _].
        revert Hnil. unfold construct. by rewrite !val_bind, Hv. }
    exists networkName. split; [done|].
    destruct (decide (Forall succeeded (val (constructed bprint networkName w))))
      as [Hok|Hno].
    + destruct (construct_commit_errors bprint w networkName Hnet Hok) as [Hlen Hv].
      cbv zeta in Hlen, Hv. split_and!; [done| |].
      * rewrite Hlen. apply length_constructAll.
      * apply (commitErrors_nil _ _ Hlen). by rewrite <- Hv.
    + exfalso.
      apply constructAll_first_failure in Hno
        as (pre & hs & post & e & Hhs & Hok & He).
      destruct (construct_main_with_network Config labelsForApplicationServices
                  asIDToRegistrationFromLabels bprint w networkName Hnet)
        as (Hv & _ & _).
      cbv zeta in Hv. rewrite Hhs in Hv.
      destruct (construct_homeservers_returned Config labelsForApplicationServices
                  asIDToRegistrationFromLabels (b.bp_Name bprint) networkName
                  pre hs post 0%nat (frame0 bprint) (afterNetwork Config bprint w)
                  Hok e He) as (tlogs & delErr & Hr & _).
      rewrite Hr in Hv. cbn [fst snd] in Hv.
      revert Hnil. unfold construct. rewrite !val_bind, Hv. cbn [ret val errs frame0].
      done.
  - intros (networkName & Hnet & Hok & _ & Hans).
    destruct (construct_commit_errors bprint w networkName Hnet Hok) as [Hlen Hv].
    cbv zeta in Hlen, Hv. rewrite Hv. by apply commitErrors_nil.
Qed.
End ConstructSuccess.

(** On the simulated runtime: a build without fault returns no error, a
    build whose first commit fails returns one. *)
Example construct_no_error_sim :
  val (construct cfgQuiet noASLabels noRegistrations bpTwo Sim.empty) = [] ∧
  commitAnswers (trc (construct cfgQuiet noASLabels noRegistrations bpTwo Sim.empty))
    = [Ok "sha256:cid-pkg.two.hs1"; Ok "sha256:cid-pkg.two.hs2"] ∧
  length (val (construct cfgQuiet noASLabels noRegistrations bpTwo commitFails)) = 1%nat.
Proof. vm_compute. done. Qed.

(** ** A blueprint without homeservers: the build and the calls after it *)

Section EmptyCalls.
Context {W : Type} {rt : Runtime W}.
Variable Config : config.Complement.
Variable labelsForApplicationServices : b.Homeserver → gmap string string.
Variable asIDToRegistrationFromLabels : gmap string string → gmap string string.

Local Abbreviation construct' :=
  (construct Config labelsForApplicationServices asIDToRegistrationFromLabels).
Local Abbreviation ConstructBlueprint' :=
  (ConstructBlueprint Config labelsForApplicationServices asIDToRegistrationFromLabels).
Local Abbreviation ConstructBlueprintIfNotExist' :=
  (ConstructBlueprintIfNotExist Config labelsForApplicationServices
     asIDToRegistrationFromLabels).
Local Abbreviation network bprint :=
  (createNetworkIfNotExists (config.PackageNamespace Config) (b.bp_Name bprint)).

Lemma wld_construct_no_network bprint (w : W) e :
  val (network bprint w) = Err e →
  wld (construct' bprint w) = wld (network bprint w).
Proof.
  intros Hnet. unfold construct, construct_main.
  rewrite !wld_bind, !val_bind, !wld_log, Hnet. done.
Qed.

Section Imageless.
Context `{!CatalogGrowsByCommit rt}.
Variable f : Filters.

Lemma imageless_createNetworkIfNotExists pkg name (w : W) :
  imageless f w → imageless f (wld (createNetworkIfNotExists pkg name w)).
Proof.
  intros Hw. unfold createNetworkIfNotExists.
  rewrite wld_bind. unfold docker_NetworkList, call. cbn [val wld].
  pose proof (imageless_NetworkList f
                (label ["complement_pkg=" +:+ pkg; "complement_blueprint=" +:+ name])
                w Hw) as Hw1.
  destruct (rtNetworkList _ w) as [[[|nw nws]|e] w1]; cbn [fst snd] in *.
  - rewrite wld_bind. unfold docker_NetworkCreate, call. cbn [val wld].
    match goal with |- context [rtNetworkCreate ?n ?l w1] =>
      pose proof (imageless_NetworkCreate f n l w1 Hw1) as Hw2;
      destruct (rtNetworkCreate n l w1) as [[resp|e] w2] end; cbn [fst snd] in *.
    + repeat (destruct (decide _)); rewrite ?wld_bind; done.
    + done.
  - rewrite wld_bind. by destruct (decide _).
  - done.
Qed.

Lemma imageless_removeNetworks_loop nws : ∀ (w : W),
  imageless f w → imageless f (wld (removeNetworks_loop nws w)).
Proof.
  induction nws as [|nw nws IH]; intros w Hw; [done|].
  cbn [removeNetworks_loop]. rewrite wld_bind.
  unfold docker_NetworkRemove, call. cbn [val wld].
  pose proof (imageless_NetworkRemove f (network.ID nw) w Hw) as Hw'.
  destruct ((rtNetworkRemove (network.ID nw) w).1); [done|by apply IH].
Qed.

Lemma imageless_removeNetworks (w : W) :
  imageless f w → imageless f (wld (removeNetworks Config w)).
Proof.
  intros Hw. unfold removeNetworks. rewrite wld_bind.
  unfold docker_NetworkList, call. cbn [val wld].
  pose proof (imageless_NetworkList f (namespaceFilter Config) w Hw) as Hw'.
  unfold namespaceFilter in Hw'.
  destruct ((rtNetworkList _ w).1); [by apply imageless_removeNetworks_loop|done].
Qed.

Lemma imageless_construct bprint (w : W) :
  b.Homeservers bprint = [] →
  imageless f w → imageless f (wld (construct' bprint w)).
Proof.
  intros Hhs Hw.
  pose proof (imageless_createNetworkIfNotExists (config.PackageNamespace Config)
                (b.bp_Name bprint) w Hw) as Hn.
  destruct (val (network bprint w)) as [networkName|e] eqn:Hnet.
  - destruct (construct_no_homeservers Config labelsForApplicationServices
                asIDToRegistrationFromLabels bprint w networkName Hhs Hnet)
      as (_ & -> & _).
    by apply imageless_NewRunner.
  - by rewrite (wld_construct_no_network bprint w e Hnet).
Qed.

Lemma imageless_pollImages bprint start fuel images (w : W) :
  b.Homeservers bprint = [] →
  imageless f w → imageless f (wld (pollImages Config fuel bprint start images w)).
Proof.
  intros Hhs Hw. destruct fuel as [|fuel]; [done|].
  rewrite pollImages_step. cbv zeta.
  pose proof (imageless_Now f w Hw) as Hw1.
  pose proof (imageless_ImageList f (blueprintFilter Config bprint) _ Hw1) as Hw2.
  destruct (decide _); [|done].
  destruct ((rtImageList _ _).1) as [imgs|e]; [|done].
  rewrite Hhs. cbn [length]. rewrite decide_False by lia. done.
Qed.

Lemma imageless_ConstructBlueprint fuel bprint (w : W) :
  b.Homeservers bprint = [] →
  imageless f w → imageless f (wld (ConstructBlueprint' fuel bprint w)).
Proof.
  intros Hhs Hw. pose proof (imageless_construct bprint w Hhs Hw) as Hc.
  unfold ConstructBlueprint. rewrite wld_bind.
  destruct (decide _).
  - rewrite wld_bind.
    destruct (logEach_out Config (val (construct' bprint w)) (wld (construct' bprint w)))
      as [_ ->].
    done.
  - rewrite !wld_bind. unfold time_Now at 1 2. unfold call. cbn [val wld].
    pose proof (imageless_pollImages bprint (rtNow (wld (construct' bprint w))).1 fuel []
                  _ Hhs (imageless_Now f _ Hc)) as Hp.
    destruct (val (pollImages _ _ _ _ _ _)) as [[e|found images]|]; [done| |done].
    rewrite wld_bind. apply imageless_removeNetworks in Hp.
    destruct found; cbn [negb]; rewrite ?wld_bind, ?wld_log; done.
Qed.
End Imageless.

(** A call of [ConstructBlueprintIfNotExist] for a blueprint without
    homeservers, on a catalogue without an image of the blueprint: no image
    is found, [ConstructBlueprint] is called, and the catalogue is without
    an image of the blueprint afterwards. *)
Lemma ConstructBlueprintIfNotExist_imageless `{!CatalogGrowsByCommit rt}
    fuel bprint (w : W) :
  b.Homeservers bprint = [] →
  imageless (lookupFilter Config bprint) w →
  let f := lookupFilter Config bprint in
  let o := ConstructBlueprintIfNotExist' fuel bprint w in
  (rtImageList f w).1 = Ok [] ∧
  trc o = EvImageList f (Ok []) :: trc (ConstructBlueprint' fuel bprint (rtImageList f w).2) ∧
  imageless f (wld o).
Proof.
  intros Hhs Hw f o.
  assert (Hl : (rtImageList f w).1 = Ok []) by (by apply (imageless_empty f f)).
  pose proof (ConstructBlueprintIfNotExist_cases Config labelsForApplicationServices
                asIDToRegistrationFromLabels fuel bprint w) as Hc.
  cbv zeta in Hc. fold f in Hc. rewrite Hl in Hc. destruct Hc as (_ & Ht & Hwld).
  split_and!; [done|done|]. subst o. rewrite Hwld.
  apply imageless_ConstructBlueprint; [done|]. by apply imageless_ImageList.
Qed.

(** C10, as the code has it: for a blueprint without homeservers, when the
    network is provided, the first reading of the clock in the polling loop
    is less than 5 seconds after the start and the first listing of the
    images succeeds, [ConstructBlueprint] succeeds: after the network and
    the runner, it reads the clock twice, lists the images once, whatever
    their number, and runs the removal pass of the networks of the
    namespace; it deploys, stops and commits nothing.  Hence, on a
    catalogue that gains images by commits only and held no image of the
    blueprint before the build, every call of [ConstructBlueprintIfNotExist]
    after the build, the first one and each one after it, finds no image
    and calls [ConstructBlueprint] again. *)
Theorem ConstructBlueprint_no_homeservers fuel bprint (w : W) networkName images :
  b.Homeservers bprint = [] →
  val (network bprint w) = Ok networkName →
  let w1 := afterNetwork Config bprint w in
  let start := (rtNow w1).1 in
  let now := (rtNow (rtNow w1).2).1 in
  let f := [complementLabel;
            "complement_blueprint=" +:+ b.bp_Name bprint;
            "complement_pkg=" +:+ config.PackageNamespace Config] in
  Sub now start < 5000000000 →
  (rtImageList f (rtNow (rtNow w1).2).2).1 = Ok images →
  let o := ConstructBlueprint' (S fuel) bprint w in
  val o = Some None ∧
  (∃ removal, networksPass Config removal ∧
     trc o = logEvents Config "Constructing blueprint '%s'" [AStr (b.bp_Name bprint)] ++
             trc (network bprint w) ++
             [EvNewRunner (b.bp_Name bprint) (config.BestEffort Config)
                (config.DebugLoggingEnabled Config);
              EvNow start; EvNow now; EvImageList f (Ok images)] ++
             removal ++ constructedLine Config bprint images) ∧
  events [KDeployImage; KContainerStop; KContainerCommit] (trc o) = [] ∧
  (∀ (grows : CatalogGrowsByCommit rt),
     imageless (lookupFilter Config bprint) w →
     ∀ fuel' n,
       let call := ConstructBlueprintIfNotExist' fuel' bprint in
       let wn := Nat.iter n (λ w', wld (call w')) (wld o) in
       (rtImageList (lookupFilter Config bprint) wn).1 = Ok [] ∧
       trc (call wn) =
         EvImageList (lookupFilter Config bprint) (Ok []) ::
         trc (ConstructBlueprint' fuel' bprint
                (rtImageList (lookupFilter Config bprint) wn).2)).
Proof.
  intros Hhs Hnet w1 start now f Hnow Hlist o.
  destruct (construct_no_homeservers Config labelsForApplicationServices
              asIDToRegistrationFromLabels bprint w networkName Hhs Hnet)
    as (Hv & Hw & Ht).
  pose proof (ConstructBlueprint_after_construct Config labelsForApplicationServices
                asIDToRegistrationFromLabels (S fuel) bprint w Hv) as Hc.
  cbv zeta in Hc. rewrite Hw in Hc. fold w1 start in Hc.
  rewrite pollImages_step in Hc. cbv zeta in Hc. fold now in Hc.
  change (blueprintFilter Config bprint) with f in Hc.
  rewrite decide_True in Hc by exact Hnow. rewrite Hlist in Hc.
  rewrite Hhs in Hc. cbn [length] in Hc. rewrite decide_False in Hc by lia.
  cbn [val wld trc] in Hc. fold o in Hc. destruct Hc as (Hval & Htrc & _).
  assert (Htrace :
    trc o = logEvents Config "Constructing blueprint '%s'" [AStr (b.bp_Name bprint)] ++
            trc (network bprint w) ++
            [EvNewRunner (b.bp_Name bprint) (config.BestEffort Config)
               (config.DebugLoggingEnabled Config);
             EvNow start; EvNow now; EvImageList f (Ok images)] ++
            trc (removeNetworks Config (rtImageList f (rtNow (rtNow w1).2).2).2) ++
            constructedLine Config bprint images).
  { rewrite Htrc, Ht. by rewrite <- !app_assoc. }
  split_and!.
  - done.
  - eexists. split; [apply removeNetworks_networksPass|exact Htrace].
  - rewrite Htrace.
    destruct (removeNetworks_networksPass Config
                (rtImageList f (rtNow (rtNow w1).2).2).2) as (r & en & t & -> & Ho & _).
    rewrite !events_app.
    rewrite (events_only [KPrintf] _ (logEvents _ _ _))
      by (first [apply only_logEvents; in_list | reflexivity]).
    rewrite (events_only [KNetworkList; KNetworkCreate; KPrintf] _ (trc (network bprint w)))
      by (first [apply only_createNetworkIfNotExists | reflexivity]).
    rewrite (events_only [KPrintf] _ (constructedLine _ _ _))
      by (first [apply only_logEvents; in_list | reflexivity]).
    rewrite (events_only [KNetworkList; KNetworkRemove] _ (_ :: t)).
    + reflexivity.
    + apply only_cons; [reflexivity|]. eapply only_mono; [|exact Ho]. sub_kinds.
    + reflexivity.
  - intros grows Himg fuel' n. cbv zeta.
    assert (Hn : imageless (lookupFilter Config bprint)
                   (Nat.iter n (λ w', wld (ConstructBlueprintIfNotExist' fuel' bprint w'))
                      (wld o))).
    { induction n as [|n IH].
      - by apply imageless_ConstructBlueprint.
      - cbn [Nat.iter nat_rect].
        by destruct (ConstructBlueprintIfNotExist_imageless fuel' bprint _ Hhs IH)
          as (_ & _ & ?). }
    by destruct (ConstructBlueprintIfNotExist_imageless fuel' bprint _ Hhs Hn)
      as (? & ? & _).
Qed.
End EmptyCalls.

(** The catalogue of the simulated runtime gains images by commits only. *)
Lemma Sim_imageless_empty f g (w : Sim.World) :
  Sim_imageless f w → (∀ tag, tag ∈ f → tag ∈ g) → (rtImageList g w).1 = Ok [].
Proof.
  intros [Hf Hall] Hsub. cbn. unfold Sim.ImageList. rewrite Hf. cbn. f_equal.
  induction Hall as [|i l Hi _ IH]; [done|].
  rewrite filter_cons_False; [exact IH|].
  intros [Hm _]. unfold Sim.matchesAll in *.
  rewrite forallb_forall in Hm.
  assert (Hm' : forallb (Sim.matchesTag (image.Labels i.1)) f = true).
  { apply forallb_forall. intros tag Htag. apply Hm.
    apply list_elem_of_In, Hsub. by apply list_elem_of_In. }
  congruence.
Qed.

Lemma Sim_imageless_tick f (w : Sim.World) :
  Sim_imageless f w → Sim_imageless f (Sim.tick w).
Proof. by intros [? ?]. Qed.

Lemma Sim_imageless_networks f (w : Sim.World) nws :
  Sim_imageless f w → Sim_imageless f (Sim.tick (Sim.withNetworks w nws)).
Proof. by intros [? ?]. Qed.

Lemma Sim_grows_by_commit : CatalogGrowsByCommit Sim.runtime.
Proof.
  refine {| imageless := Sim_imageless |}.
  - exact Sim_imageless_empty.
  - intros f g w Hw. cbn. unfold Sim.ImageList.
    destruct (Sim.failing _ _); by apply Sim_imageless_tick.
  - intros f g w Hw. cbn. unfold Sim.NetworkList.
    destruct (Sim.failing _ _); by apply Sim_imageless_tick.
  - intros f name labels w Hw. cbn. unfold Sim.NetworkCreate.
    destruct (Sim.failing _ _);
      [by apply Sim_imageless_tick|by apply Sim_imageless_networks].
  - intros f id w Hw. cbn. unfold Sim.NetworkRemove.
    destruct (Sim.failing _ _);
      [by apply Sim_imageless_tick|by apply Sim_imageless_networks].
  - intros f name bestEffort debug w Hw. exact Hw.
  - intros f w Hw. by apply Sim_imageless_tick.
Defined.

(** C10, counterexamples.  The network of a blueprint without homeservers is
    provided in each case.  When the image list cannot be read,
    [ConstructBlueprint] fails with the error of the listing.  When the
    process stalls for more than 5 seconds between the two first readings of
    the clock, no image is listed and [ConstructBlueprint] fails.  When the
    catalogue holds an image of the blueprint, [ConstructBlueprint] succeeds and the
    call of [ConstructBlueprintIfNotExist] that follows finds that image and
    constructs nothing. *)
Lemma ConstructBlueprint_no_homeservers_failures :
  b.Homeservers bpEmpty = [] ∧
  (let nw := createNetworkIfNotExists "pkg" "none" listFails in
   let o := ConstructBlueprint cfgQuiet noASLabels noRegistrations 51 bpEmpty listFails in
   val nw = Ok "complement_pkg_none" ∧
   val o = Some (Some (RuntimeError "cannot list images"))) ∧
  (let nw := createNetworkIfNotExists "pkg" "none" stalled in
   let o := ConstructBlueprint cfgQuiet noASLabels noRegistrations 51 bpEmpty stalled in
   val nw = Ok "complement_pkg_none" ∧
   events [KNow; KImageList] (trc o) = [EvNow 12000000000; EvNow 18000000000] ∧
   val o = Some (Some notFound)) ∧
  (let o := ConstructBlueprint cfgQuiet noASLabels noRegistrations 51 bpEmpty cachedNone in
   let o2 := ConstructBlueprintIfNotExist cfgQuiet noASLabels noRegistrations 51 bpEmpty
               (wld o) in
   val o = Some None ∧
   val o2 = Some None ∧
   trc o2 = [EvImageList (lookupFilter cfgQuiet bpEmpty) (Ok [imgNone])]).
Proof. vm_compute. done. Qed.

(** Two calls in a row for a blueprint without homeservers: both run the
    construction, and no image is committed. *)
Example ConstructBlueprintIfNotExist_no_homeservers_twice :
  let o1 := ConstructBlueprintIfNotExist cfgQuiet noASLabels noRegistrations 51 bpEmpty
              Sim.empty in
  let o2 := ConstructBlueprintIfNotExist cfgQuiet noASLabels noRegistrations 51 bpEmpty
              (wld o1) in
  val o1 = Some None ∧ val o2 = Some None ∧
  length (events [KNewRunner] (trc o1)) = 1%nat ∧
  length (events [KNewRunner] (trc o2)) = 1%nat ∧
  events [KContainerCommit] (trc o1 ++ trc o2) = [].
Proof. vm_compute. done. Qed.

Lemma ConstructBlueprint_no_homeservers_witness :
  let w1 := afterNetwork cfgQuiet bpEmpty Sim.empty in
  let start := (rtNow w1).1 in
  let now := (rtNow (rtNow w1).2).1 in
  let f := [complementLabel;
            "complement_blueprint=" +:+ b.bp_Name bpEmpty;
            "complement_pkg=" +:+ config.PackageNamespace cfgQuiet] in
  let o := ConstructBlueprint cfgQuiet noASLabels noRegistrations 1 bpEmpty Sim.empty in
  val o = Some None ∧
  (∃ removal, networksPass cfgQuiet removal ∧
     trc o = logEvents cfgQuiet "Constructing blueprint '%s'" [AStr (b.bp_Name bpEmpty)] ++
             trc (createNetworkIfNotExists (config.PackageNamespace cfgQuiet)
                    (b.bp_Name bpEmpty) Sim.empty) ++
             [EvNewRunner (b.bp_Name bpEmpty) (config.BestEffort cfgQuiet)
                (config.DebugLoggingEnabled cfgQuiet);
              EvNow start; EvNow now; EvImageList f (Ok [])] ++
             removal ++ constructedLine cfgQuiet bpEmpty []) ∧
  events [KDeployImage; KContainerStop; KContainerCommit] (trc o) = [] ∧
  ∀ fuel' n,
    let call := ConstructBlueprintIfNotExist cfgQuiet noASLabels noRegistrations fuel'
                  bpEmpty in
    let wn := Nat.iter n (λ w', wld (call w')) (wld o) in
    (rtImageList (lookupFilter cfgQuiet bpEmpty) wn).1 = Ok [] ∧
    trc (call wn) =
      EvImageList (lookupFilter cfgQuiet bpEmpty) (Ok []) ::
      trc (ConstructBlueprint cfgQuiet noASLabels noRegistrations fuel' bpEmpty
             (rtImageList (lookupFilter cfgQuiet bpEmpty) wn).2).
Proof.
  destruct (ConstructBlueprint_no_homeservers cfgQuiet noASLabels noRegistrations 0
              bpEmpty Sim.empty "complement_pkg_none" [])
    as (H1 & H2 & H3 & H4).
  - reflexivity.
  - vm_compute. reflexivity.
  - vm_compute. reflexivity.
  - vm_compute. reflexivity.
  - split_and!; [exact H1|exact H2|exact H3|].
    apply (H4 Sim_grows_by_commit). split; [reflexivity|constructor].
Defined.
